(** * Resilient trend-analysis pipeline (TrendAnalysisService)

    A shallow embedding of [src/trend-analysis/trend-analysis.service.ts]:
    the circuit breaker fields, the bounded retry loops around the Gemini
    call, the inline response decoding, the two fallback analyzers and the
    report renderer, together with the part of the JavaScript runtime the
    service relies on (IEEE doubles, strings, JSON decoding). *)

From Stdlib Require Import ZArith List String Ascii Bool Lia PeanoNat.
From Stdlib Require Import SpecFloat Permutation.
Import ListNotations.

Set Warnings "-register-all".

Local Open Scope Z_scope.

(** ** JavaScript numbers

    A JS [number] is an IEEE-754 binary64 value.  The Standard Library's
    [spec_float] gives the arithmetic as plain functions on [Z]. *)
Module Num.

Definition number : Type := spec_float.

Definition prec : Z := 53.
Definition emax : Z := 1024.

Definition NaN : number := S754_nan.

(** The double nearest to an integer (ties to even), as a numeric literal
    or [Array.prototype.length] would produce it. *)
Definition of_Z (z : Z) : number := binary_normalize prec emax z 0 false.
Definition of_nat (n : nat) : number := of_Z (Z.of_nat n).

Definition add (x y : number) : number := SFadd prec emax x y.
Definition mul (x y : number) : number := SFmul prec emax x y.
Definition div (x y : number) : number := SFdiv prec emax x y.

(** [x < y], [x > y], [x >= y]: all false as soon as one side is NaN. *)
Definition lt (x y : number) : bool := SFltb x y.
Definition gt (x y : number) : bool := SFltb y x.
Definition ge (x y : number) : bool := SFleb y x.

(** The literal [0.3]: the double nearest to 3/10. *)
Definition lit_0_3 : number := S754_finite false 5404319552844595 (-54).

(** [Math.round]: the nearest integer, ties towards +infinity; NaN and the
    infinities are returned unchanged, and a result of zero keeps the sign
    of the argument. *)
Definition Math_round (x : number) : number :=
  match x with
  | S754_finite s m e =>
      if 0 <=? e then x
      else
        let d := Z.pow 2 (- e) in
        let v := if s then Z.neg m else Z.pos m in
        let n := Z.div (2 * v + d) (2 * d) in
        binary_normalize prec emax n 0 s
  | _ => x
  end.

(** The integer a number denotes, when it is an integer. *)
Definition to_Z (x : number) : option Z :=
  match x with
  | S754_zero _ => Some 0
  | S754_finite s m e =>
      if 0 <=? e then Some ((if s then Z.neg m else Z.pos m) * Z.pow 2 e)
      else
        let d := Z.pow 2 (- e) in
        if Z.pos m mod d =? 0
        then Some ((if s then Z.neg m else Z.pos m) / d)
        else None
  | _ => None
  end.

(** *** [Number::toString]

    The shortest decimal that reads back as the same double, laid out in
    fixed or exponent notation as ECMAScript prescribes. *)

(** Decimal digits of a non-negative integer, most significant first. *)
Fixpoint digits_fuel (fuel : nat) (z : Z) : string :=
  match fuel with
  | O => EmptyString
  | S fuel' =>
      let d := String (ascii_of_nat (48 + Z.to_nat (z mod 10))) EmptyString in
      if z <? 10 then d else (digits_fuel fuel' (z / 10) ++ d)%string
  end.

Definition digits (z : Z) : string := digits_fuel (S (Z.to_nat (Z.log2 z))) z.

Fixpoint zeros (n : nat) : string :=
  match n with
  | O => EmptyString
  | S n' => String "0"%char (zeros n')
  end.

(** The double nearest to [s * 10^p] for [0 < s]. *)
Definition of_decimal (s p : Z) : number :=
  if 0 <=? p then binary_normalize prec emax (s * Z.pow 10 p) 0 false
  else
    let den := Z.pow 10 (- p) in
    let sh := Z.max 0 (66 + Z.log2 den - Z.log2 s) in
    let q := (s * Z.pow 2 sh) / den in
    let sticky := if (s * Z.pow 2 sh) mod den =? 0 then 0 else 1 in
    binary_normalize prec emax (2 * q + sticky) (- sh - 1) false.

(** [x < 10^n] for the positive rational [x = num / den]. *)
Definition below_pow10 (num den n : Z) : bool :=
  if 0 <=? n then num <? den * Z.pow 10 n
  else num * Z.pow 10 (- n) <? den.

Fixpoint find_n (fuel : nat) (num den n : Z) : Z :=
  match fuel with
  | O => n
  | S fuel' => if below_pow10 num den n then n else find_n fuel' num den (n + 1)
  end.

(** The least [n] with [num / den < 10^n]. *)
Definition decimal_exponent (num den : Z) : Z :=
  let est := ((Z.log2 num - Z.log2 den) * 30103) / 100000 in
  find_n 8 num den (est - 2).

(** [floor (num / den * 10^j)]. *)
Definition scaled_floor (num den j : Z) : Z :=
  if 0 <=? j then (num * Z.pow 10 j) / den
  else num / (den * Z.pow 10 (- j)).

(** Is [s * 10^j] at most as far from [num/den] as [s' * 10^j] is, for
    [s <= num/den*10^-j <= s'] ? *)
Definition lower_is_closer (num den j s s' : Z) : comparison :=
  (* compare  x*10^-j - s  with  s' - x*10^-j , i.e. 2 x 10^-j ? s + s' *)
  if 0 <=? j then Z.compare (2 * num) ((s + s') * Z.pow 10 j * den)
  else Z.compare (2 * num * Z.pow 10 (- j)) ((s + s') * den).

(** Searches [k = k0, k0+1, ...] for the shortest digit string [s] with
    [s * 10^(n-k)] reading back as [x]; returns [(s, n, k)]. *)
Fixpoint shortest (fuel : nat) (x : number) (num den n k : Z) : Z * Z * Z :=
  let lo := scaled_floor num den (k - n) in
  let hi := lo + 1 in
  let ok_lo := SFeqb (of_decimal lo (n - k)) x in
  let ok_hi := SFeqb (of_decimal hi (n - k)) x in
  let pick (s : Z) := if s =? Z.pow 10 k then (s / 10, n + 1, k) else (s, n, k) in
  match fuel with
  | O => (lo, n, k)
  | S fuel' =>
      if ok_lo && ok_hi then
        match lower_is_closer num den (n - k) lo hi with
        | Lt => pick lo
        | Gt => pick hi
        | Eq => pick (if Z.even lo then lo else hi)
        end
      else if ok_lo then pick lo
      else if ok_hi then pick hi
      else shortest fuel' x num den n (k + 1)
  end.

(** Removes the trailing zeros a carry may leave in the digit string. *)
Fixpoint strip_zeros (fuel : nat) (s k : Z) : Z * Z :=
  match fuel with
  | O => (s, k)
  | S fuel' =>
      if (1 <? k) && (s mod 10 =? 0) then strip_zeros fuel' (s / 10) (k - 1)
      else (s, k)
  end.

Definition layout (s n k : Z) : string :=
  let ds := digits s in
  if (k <=? n) && (n <=? 21) then (ds ++ zeros (Z.to_nat (n - k)))%string
  else if (0 <? n) && (n <=? 21) then
    (substring 0 (Z.to_nat n) ds ++ "." ++
     substring (Z.to_nat n) (Z.to_nat (k - n)) ds)%string
  else if (-6 <? n) && (n <=? 0) then
    ("0." ++ zeros (Z.to_nat (- n)) ++ ds)%string
  else
    let e := n - 1 in
    let sgn := if e <? 0 then "-"%string else "+"%string in
    if k =? 1 then (ds ++ "e" ++ sgn ++ digits (Z.abs e))%string
    else (substring 0 1 ds ++ "." ++ substring 1 (Z.to_nat (k - 1)) ds
          ++ "e" ++ sgn ++ digits (Z.abs e))%string.

Definition Number_toString (x : number) : string :=
  match x with
  | S754_nan => "NaN"%string
  | S754_zero _ => "0"%string
  | S754_infinity s => if s then "-Infinity"%string else "Infinity"%string
  | S754_finite sg m e =>
      let num := if 0 <=? e then Z.pos m * Z.pow 2 e else Z.pos m in
      let den := if 0 <=? e then 1 else Z.pow 2 (- e) in
      let n := decimal_exponent num den in
      let '(s, n', k) := shortest 17 (S754_finite false m e) num den n 1 in
      let '(s', k') := strip_zeros 17 s k in
      ((if sg then "-" else "") ++ layout s' n' k')%string
  end.

End Num.

(** ** JavaScript strings

    A string is modelled by [string], one character per code unit; the
    case mapping and the whitespace class are the ASCII ones. *)
Module Str.

Local Open Scope string_scope.

Definition is_upper (c : ascii) : bool :=
  let n := nat_of_ascii c in (Nat.leb 65 n && Nat.leb n 90)%bool.

Definition lower_char (c : ascii) : ascii :=
  if is_upper c then ascii_of_nat (nat_of_ascii c + 32) else c.

(** [String.prototype.toLowerCase] *)
Fixpoint toLowerCase (s : string) : string :=
  match s with
  | EmptyString => EmptyString
  | String c r => String (lower_char c) (toLowerCase r)
  end.

(** [String.prototype.includes]: [sub] occurs somewhere in [s]. *)
Fixpoint includes (s sub : string) : bool :=
  if prefix sub s then true
  else match s with
       | EmptyString => false
       | String _ r => includes r sub
       end.

(** [String.prototype.substring(0, n)] *)
Definition substring0 (n : nat) (s : string) : string := substring 0 n s.

(** The class [\s] *)
Definition is_space (c : ascii) : bool :=
  let n := nat_of_ascii c in
  (Nat.leb 9 n && Nat.leb n 13)%bool || Nat.eqb n 32.

Fixpoint skip_spaces (s : string) : string :=
  match s with
  | String c r => if is_space c then skip_spaces r else s
  | EmptyString => s
  end.

Fixpoint drop (n : nat) (s : string) : string :=
  match n, s with
  | S n', String _ r => drop n' r
  | _, _ => s
  end.

Definition endsWith (s suf : string) : bool :=
  Nat.leb (length suf) (length s)
  && String.eqb (drop (length s - length suf) s) suf.

Definition fence_open : string := "```json".
Definition fence_close : string := "```".

(** [text.replace(/^```json\s*|```$/g, '')]: an opening fence with the
    whitespace after it is removed at the very start, a closing fence at
    the very end; neither needs the other. *)
Definition strip_fence (text : string) : string :=
  let rest :=
    if prefix fence_open text
    then skip_spaces (drop (length fence_open) text)
    else text in
  if endsWith rest fence_close
  then substring 0 (length rest - length fence_close) rest
  else rest.

(** [Array.prototype.join] on strings *)
Fixpoint join (sep : string) (l : list string) : string :=
  match l with
  | [] => ""
  | [x] => x
  | x :: r => x ++ sep ++ join sep r
  end.

(** A text of ASCII characters only. *)
Fixpoint asciiText (s : string) : bool :=
  match s with
  | EmptyString => true
  | String c r => Nat.ltb (nat_of_ascii c) 128 && asciiText r
  end.

End Str.

(** ** JavaScript values and [JSON.parse] *)
Module Json.

Import Num.
Local Open Scope string_scope.

(** What [JSON.parse] can return. *)
Inductive JsValue : Type :=
  | VNull
  | VBool (b : bool)
  | VNum (x : number)
  | VStr (s : string)
  | VArr (elems : list JsValue)
  | VObj (props : list (string * JsValue)).

(** [Array.isArray] *)
Definition Array_isArray (v : JsValue) : bool :=
  match v with VArr _ => true | _ => false end.

(** Own-property lookup; [None] is [undefined]. *)
Fixpoint get (k : string) (props : list (string * JsValue)) : option JsValue :=
  match props with
  | [] => None
  | (k', v) :: r => if String.eqb k k' then Some v else get k r
  end.

(** Assignment of a property: an existing key keeps its position. *)
Fixpoint set (k : string) (v : JsValue) (props : list (string * JsValue))
  : list (string * JsValue) :=
  match props with
  | [] => [(k, v)]
  | (k', v') :: r => if String.eqb k k' then (k', v) :: r else (k', v') :: set k v r
  end.

Definition is_ws (c : ascii) : bool :=
  let n := nat_of_ascii c in
  Nat.eqb n 32 || Nat.eqb n 9 || Nat.eqb n 10 || Nat.eqb n 13.

Fixpoint skip_ws (s : string) : string :=
  match s with
  | String c r => if is_ws c then skip_ws r else s
  | EmptyString => s
  end.

Definition is_digit (c : ascii) : bool :=
  let n := nat_of_ascii c in (Nat.leb 48 n && Nat.leb n 57)%bool.

Definition digit_val (c : ascii) : Z := Z.of_nat (nat_of_ascii c - 48).

(** Reads a maximal run of digits: accumulated value, number of digits
    read, and the rest. *)
Fixpoint take_digits (acc : Z) (cnt : nat) (s : string) : Z * nat * string :=
  match s with
  | String c r =>
      if is_digit c then take_digits (10 * acc + digit_val c)%Z (S cnt) r
      else (acc, cnt, s)
  | EmptyString => (acc, cnt, s)
  end.

(** The JSON number grammar: an optional minus sign; an integer part, a
    single zero or a non-zero digit followed by digits; an optional
    fraction, a dot and at least one digit; an optional exponent, [e] or
    [E], an optional sign and at least one digit. *)
Definition parse_number (s : string) : option (number * string) :=
  let '(neg, s1) :=
    match s with
    | String "-" r => (true, r)
    | _ => (false, s)
    end in
  let int_part :=
    match s1 with
    | String "0" r => Some (0%Z, r)
    | String c _ =>
        if is_digit c then
          let '(v, _, r) := take_digits 0 0 s1 in Some (v, r)
        else None
    | EmptyString => None
    end in
  match int_part with
  | None => None
  | Some (iv, s2) =>
      let frac :=
        match s2 with
        | String "." r =>
            let '(v, cnt, r') := take_digits iv 0 r in
            if Nat.eqb cnt 0 then None else Some (v, cnt, r')
        | _ => Some (iv, O, s2)
        end in
      match frac with
      | None => None
      | Some (m, fcnt, s3) =>
          let expo :=
            match s3 with
            | String c r =>
                if Ascii.eqb c "e" || Ascii.eqb c "E" then
                  let '(eneg, r1) :=
                    match r with
                    | String "-" r' => (true, r')
                    | String "+" r' => (false, r')
                    | _ => (false, r)
                    end in
                  let '(ev, cnt, r2) := take_digits 0 0 r1 in
                  if Nat.eqb cnt 0 then None
                  else Some ((if eneg then - ev else ev)%Z, r2)
                else Some (0%Z, s3)
            | EmptyString => Some (0%Z, s3)
            end in
          match expo with
          | None => None
          | Some (e, s4) =>
              let x :=
                if (m =? 0)%Z then S754_zero neg
                else
                  let v := of_decimal m (e - Z.of_nat fcnt) in
                  if neg then SFopp v else v in
              Some (x, s4)
          end
      end
  end.

Definition hex_val (c : ascii) : option nat :=
  let n := nat_of_ascii c in
  if (Nat.leb 48 n && Nat.leb n 57)%bool then Some (n - 48)%nat
  else if (Nat.leb 97 n && Nat.leb n 102)%bool then Some (n - 87)%nat
  else if (Nat.leb 65 n && Nat.leb n 70)%bool then Some (n - 55)%nat
  else None.

(** The code unit of a [\uXXXX] escape, written out as UTF-8. *)
Definition utf8_of_unit (u : nat) : string :=
  if Nat.ltb u 128 then String (ascii_of_nat u) ""
  else if Nat.ltb u 2048 then
    String (ascii_of_nat (192 + u / 64))
      (String (ascii_of_nat (128 + u mod 64)) "")
  else
    String (ascii_of_nat (224 + u / 4096))
      (String (ascii_of_nat (128 + (u / 64) mod 64))
         (String (ascii_of_nat (128 + u mod 64)) "")).

Definition dquote : ascii := ascii_of_nat 34.
Definition backslash : ascii := ascii_of_nat 92.

(** What a single-character escape stands for. *)
Definition escape_char (e : ascii) : option ascii :=
  if Ascii.eqb e dquote then Some dquote
  else if Ascii.eqb e backslash then Some backslash
  else match e with
       | "/"%char => Some "/"%char
       | "b"%char => Some (ascii_of_nat 8)
       | "f"%char => Some (ascii_of_nat 12)
       | "n"%char => Some (ascii_of_nat 10)
       | "r"%char => Some (ascii_of_nat 13)
       | "t"%char => Some (ascii_of_nat 9)
       | _ => None
       end.

(** The characters of a string literal after its opening quote, up to and
    including the closing quote. *)
Fixpoint parse_chars (fuel : nat) (s : string) : option (string * string) :=
  match fuel with
  | O => None
  | S fuel' =>
      match s with
      | EmptyString => None
      | String c r =>
          if Ascii.eqb c dquote then Some ("", r)
          else if Ascii.eqb c backslash then
            match r with
            | String "u" (String a (String b (String c (String d r1)))) =>
                match hex_val a, hex_val b, hex_val c, hex_val d with
                | Some a', Some b', Some c', Some d' =>
                    match parse_chars fuel' r1 with
                    | Some (t, r') =>
                        Some (utf8_of_unit (((a' * 16 + b') * 16 + c') * 16 + d')%nat ++ t, r')
                    | None => None
                    end
                | _, _, _, _ => None
                end
            | String e r1 =>
                match escape_char e with
                | Some x =>
                    match parse_chars fuel' r1 with
                    | Some (t, r') => Some (String x t, r')
                    | None => None
                    end
                | None => None
                end
            | EmptyString => None
            end
          else if Nat.ltb (nat_of_ascii c) 32 then None
          else match parse_chars fuel' r with
               | Some (t, r') => Some (String c t, r')
               | None => None
               end
      end
  end.

Fixpoint parse_value (fuel : nat) (s : string) : option (JsValue * string) :=
  match fuel with
  | O => None
  | S fuel' =>
      let s := skip_ws s in
      if prefix "null" s then Some (VNull, Str.drop 4 s)
      else if prefix "true" s then Some (VBool true, Str.drop 4 s)
      else if prefix "false" s then Some (VBool false, Str.drop 5 s)
      else
        match s with
        | String "[" r =>
            match skip_ws r with
            | String "]" r' => Some (VArr [], r')
            | _ =>
                match parse_elems fuel' r with
                | Some (vs, r') => Some (VArr vs, r')
                | None => None
                end
            end
        | String "{" r =>
            match skip_ws r with
            | String "}" r' => Some (VObj [], r')
            | _ =>
                match parse_members fuel' [] r with
                | Some (ps, r') => Some (VObj ps, r')
                | None => None
                end
            end
        | String c r =>
            if Ascii.eqb c dquote then
              match parse_chars (S (length r)) r with
              | Some (t, r') => Some (VStr t, r')
              | None => None
              end
            else
              match parse_number s with
              | Some (x, r) => Some (VNum x, r)
              | None => None
              end
        | EmptyString => None
        end
  end

(** One or more values separated by commas, then the closing bracket. *)
with parse_elems (fuel : nat) (s : string) : option (list JsValue * string) :=
  match fuel with
  | O => None
  | S fuel' =>
      match parse_value fuel' s with
      | None => None
      | Some (v, r) =>
          match skip_ws r with
          | String "]" r' => Some ([v], r')
          | String "," r' =>
              match parse_elems fuel' r' with
              | Some (vs, r'') => Some (v :: vs, r'')
              | None => None
              end
          | _ => None
          end
      end
  end

(** One or more [key : value] members separated by commas, then the
    closing brace; a repeated key overwrites the earlier value. *)
with parse_members (fuel : nat) (acc : list (string * JsValue)) (s : string)
  : option (list (string * JsValue) * string) :=
  match fuel with
  | O => None
  | S fuel' =>
      match skip_ws s with
      | String c r =>
          if negb (Ascii.eqb c dquote) then None
          else
            match parse_chars (S (length r)) r with
            | None => None
            | Some (k, r1) =>
                match skip_ws r1 with
                | String ":" r2 =>
                    match parse_value fuel' r2 with
                    | None => None
                    | Some (v, r3) =>
                        let acc' := set k v acc in
                        match skip_ws r3 with
                        | String "}" r4 => Some (acc', r4)
                        | String "," r4 => parse_members fuel' acc' r4
                        | _ => None
                        end
                    end
                | _ => None
                end
            end
      | EmptyString => None
      end
  end.

(** [JSON.parse]; [None] stands for the [SyntaxError] it throws. *)
Definition JSON_parse (text : string) : option JsValue :=
  match parse_value (2 * length text + 2) text with
  | Some (v, r) =>
      match skip_ws r with
      | EmptyString => Some v
      | _ => None
      end
  | None => None
  end.

End Json.

(** ** The service's data *)

Import Num.

(** [RedditPost], the record the repository returns.  The schema class
    [schemas/reddit-post.schema] is not among the sources at hand; the
    fields are those of the [RedditPost] interface declared by the Reddit
    service, which are the ones this service reads. *)
Record RedditPost : Type := mkPost {
  id : string;
  title : string;
  author : string;
  subreddit : string;
  score : number;
  num_comments : number;
  created_utc : number;
  reddit_url : string;
  external_url : option string;
  selftext : option string
}.

Record TrendAnalysisResult : Type := mkTrend {
  trend : string;
  growthPercentage : number;
  timePeriod : string;
  marketAnalysis : string;
  competitionLevel : string;
  entryCost : string;
  recommendation : string;
  confidence : number
}.

Record ProblemAnalysis : Type := mkProblem {
  problem : string;
  frequency : number;
  severity : string;
  potentialSolutions : list string;
  marketSize : string;
  urgency : string
}.

(** ** Fallback trend analyzer *)
Module FallbackTrend.

Local Open Scope string_scope.

(** A value stored in [subredditCounts]: a count, or the text that
    [+ 1] builds when the key was first read from the prototype.  A count
    is at most an array length, so it is kept as a [nat] and turned into a
    double where the source divides it. *)
Inductive CountVal : Type :=
  | CNum (n : nat)
  | CText (s : string).

(** The object [subredditCounts]: own properties in insertion order. *)
Definition Counts : Type := list (string * CountVal).

(** [acc] starts as the literal [{}], so reading a key it does not own
    finds the members of [Object.prototype].  This gives the text such a
    member turns into under [+], as V8 prints it. *)
Definition inherited (key : string) : option string :=
  if String.eqb key "constructor" then Some "function Object() { [native code] }"
  else if String.eqb key "__proto__" then Some "[object Object]"
  else if existsb (String.eqb key)
            ["__defineGetter__"; "__defineSetter__"; "hasOwnProperty";
             "__lookupGetter__"; "__lookupSetter__"; "isPrototypeOf";
             "propertyIsEnumerable"; "toString"; "valueOf"; "toLocaleString"]
       then Some ("function " ++ key ++ "() { [native code] }")
  else None.

(** [(v || 0) + 1] for a value the object owns *)
Definition plusOne (v : CountVal) : CountVal :=
  match v with
  | CNum n => CNum (S n)
  | CText t => CText (t ++ "1")
  end.

(** [acc[key] = (acc[key] || 0) + 1]; assigning a string to [__proto__]
    leaves the object as it is. *)
Fixpoint bump (key : string) (acc : Counts) : Counts :=
  match acc with
  | [] =>
      match inherited key with
      | None => [(key, CNum 1)]
      | Some t => if String.eqb key "__proto__" then [] else [(key, CText (t ++ "1"))]
      end
  | (k, v) :: r =>
      if String.eqb key k then (k, plusOne v) :: r else (k, v) :: bump key r
  end.

(** [posts.reduce((acc, post) => ..., {})] *)
Definition subredditCounts (posts : list RedditPost) : Counts :=
  fold_left (fun acc post => bump (subreddit post) acc) posts [].

(** A property name that is an array index (a canonical decimal below
    2^32 - 1), with its value. *)
Definition array_index (k : string) : option Z :=
  match k with
  | EmptyString => None
  | String c r =>
      let '(v, cnt, rest) := Json.take_digits 0 0 k in
      match rest with
      | EmptyString =>
          if (Ascii.eqb c "0" && negb (Nat.eqb cnt 1))%bool then None
          else if (v <? 4294967295)%Z then Some v else None
      | _ => None
      end
  end.

Fixpoint insert_index (e : Z * (string * CountVal)) (l : list (Z * (string * CountVal)))
  : list (Z * (string * CountVal)) :=
  match l with
  | [] => [e]
  | y :: r => if (fst e <=? fst y)%Z then e :: l else y :: insert_index e r
  end.

Fixpoint index_entries (o : Counts) : list (Z * (string * CountVal)) :=
  match o with
  | [] => []
  | (k, n) :: r =>
      match array_index k with
      | Some v => insert_index (v, (k, n)) (index_entries r)
      | None => index_entries r
      end
  end.

Definition named_key (e : string * CountVal) : bool :=
  match array_index (fst e) with Some _ => false | None => true end.

(** [Object.entries]: array-index keys in ascending numeric order, then
    the other keys in insertion order. *)
Definition Object_entries (o : Counts) : list (string * CountVal) :=
  (map snd (index_entries o) ++ filter named_key o)%list.

(** The number a stored value stands for in [b - a] and in the division;
    the texts above are not numerals. *)
Definition toNumber (v : CountVal) : number :=
  match v with
  | CNum n => of_nat n
  | CText _ => NaN
  end.

(** Whether the comparator [([, a], [, b]) => b - a] is positive on
    [(e, y)], so that [y] sorts first; a NaN result counts as zero. *)
Definition sortsAfter (e y : string * CountVal) : bool :=
  match snd e, snd y with
  | CNum a, CNum b => Nat.ltb a b
  | _, _ => false
  end.

(** One step of the stable sort: [e] goes in front of the first entry the
    comparator does not put before it. *)
Fixpoint insert_desc (e : string * CountVal) (l : list (string * CountVal))
  : list (string * CountVal) :=
  match l with
  | [] => [e]
  | y :: r => if sortsAfter e y then y :: insert_desc e r else e :: l
  end.

(** [entries.sort(([, a], [, b]) => b - a)].  With a text among the values
    the comparator is not an ordering and ECMAScript leaves the result to
    the engine; the model then still sorts by insertion. *)
Definition sort_desc (l : list (string * CountVal)) : list (string * CountVal) :=
  fold_right insert_desc [] l.

Definition topSubreddits (posts : list RedditPost) : list (string * CountVal) :=
  firstn 3 (sort_desc (Object_entries (subredditCounts posts))).

(** [posts.reduce((sum, post) => sum + f(post), 0) / posts.length] *)
Definition average (f : RedditPost -> number) (posts : list RedditPost) : number :=
  div (fold_left (fun sum post => add sum (f post)) posts (of_Z 0))
      (of_nat (List.length posts)).

Definition avgScore (posts : list RedditPost) : number := average score posts.
Definition avgComments (posts : list RedditPost) : number := average num_comments posts.

Definition topInsight (posts : list RedditPost) (top : string * CountVal)
  : TrendAnalysisResult :=
  {| trend := "Growing activity in " ++ fst top ++ " community";
     growthPercentage :=
       Math_round (mul (div (toNumber (snd top)) (of_nat (List.length posts))) (of_Z 100));
     timePeriod := "30 days";
     marketAnalysis :=
       "High engagement community with "
       ++ Number_toString (Math_round (avgScore posts)) ++ " avg score and "
       ++ Number_toString (Math_round (avgComments posts)) ++ " avg comments";
     competitionLevel := "Medium";
     entryCost := "Low";
     recommendation := "Consider building tools for " ++ fst top ++ " community needs";
     confidence := of_Z 60 |}.

Definition engagementInsight (posts : list RedditPost) : TrendAnalysisResult :=
  {| trend := "High-engagement content trend";
     growthPercentage :=
       Math_round (mul (div (avgScore posts) (of_Z 100)) (of_Z 10));
     timePeriod := "30 days";
     marketAnalysis := "Content with high engagement indicates strong community interest";
     competitionLevel := "High";
     entryCost := "Medium";
     recommendation := "Focus on content creation and community management tools";
     confidence := of_Z 70 |}.

Definition getFallbackTrendAnalysis (posts : list RedditPost) : list TrendAnalysisResult :=
  let trends0 :=
    match topSubreddits posts with
    | top :: _ => [topInsight posts top]
    | [] => []
    end in
  (if gt (avgScore posts) (of_Z 100)
   then trends0 ++ [engagementInsight posts]
   else trends0)%list.

(** A label that names no member of [Object.prototype]. *)
Definition plainLabel (label : string) : bool :=
  match inherited label with
  | None => true
  | Some _ => false
  end.

(** Own-property lookup in [subredditCounts]. *)
Fixpoint lookup (label : string) (acc : Counts) : option CountVal :=
  match acc with
  | [] => None
  | (k, v) :: r => if String.eqb label k then Some v else lookup label r
  end.

(** How many records carry the label. *)
Definition occurrences (label : string) (posts : list RedditPost) : nat :=
  List.length (filter (fun post => String.eqb (subreddit post) label) posts).

(** The count an entry holds; a text holds none. *)
Definition countOf (e : string * CountVal) : nat :=
  match snd e with
  | CNum n => n
  | CText _ => 0
  end.

Definition isCount (e : string * CountVal) : Prop :=
  exists n, snd e = CNum n.

(** The first entry holds the largest count. *)
Definition headIsLargest (l : list (string * CountVal)) : Prop :=
  match l with
  | [] => True
  | h :: t => forall e, In e t -> (countOf e <= countOf h)%nat
  end.

End FallbackTrend.

(** ** Fallback problem analyzer *)
Module FallbackProblem.

Local Open Scope string_scope.

Definition problemKeywords : list string :=
  ["problem"; "issue"; "difficult"; "hard"; "struggle"; "frustrated";
   "annoying"; "broken"; "fix"; "help"].

(** [post.title.toLowerCase().includes(keyword) ||
     post.selftext?.toLowerCase().includes(keyword)] for some keyword *)
Definition mentionsProblem (post : RedditPost) : bool :=
  existsb
    (fun keyword =>
       Str.includes (Str.toLowerCase (title post)) keyword
       || match selftext post with
          | Some body => Str.includes (Str.toLowerCase body) keyword
          | None => false
          end)
    problemKeywords.

Definition lowEngagement (post : RedditPost) : bool :=
  lt (score post) (of_Z 5) && lt (num_comments post) (of_Z 3).

Definition keywordInsight (problemPosts : list RedditPost) : ProblemAnalysis :=
  {| problem := "User-reported issues and difficulties";
     frequency := of_nat (List.length problemPosts);
     severity := if Nat.ltb 10 (List.length problemPosts) then "High" else "Medium";
     potentialSolutions :=
       ["User support tools"; "Automated troubleshooting"; "Community forums"];
     marketSize := "Large";
     urgency := "High" |}.

Definition engagementInsight (lowEngagementPosts : list RedditPost) : ProblemAnalysis :=
  {| problem := "Low engagement content";
     frequency := of_nat (List.length lowEngagementPosts);
     severity := "Medium";
     potentialSolutions :=
       ["Content optimization tools"; "Engagement analytics"; "A/B testing platforms"];
     marketSize := "Medium";
     urgency := "Medium" |}.

Definition getFallbackProblemAnalysis (posts : list RedditPost) : list ProblemAnalysis :=
  let problemPosts := filter mentionsProblem posts in
  let problems0 :=
    if Nat.ltb 0 (List.length problemPosts) then [keywordInsight problemPosts] else [] in
  let lowEngagementPosts := filter lowEngagement posts in
  (if gt (of_nat (List.length lowEngagementPosts)) (mul (of_nat (List.length posts)) lit_0_3)
   then problems0 ++ [engagementInsight lowEngagementPosts]
   else problems0)%list.







End FallbackProblem.

(** ** Asynchronous programs

    The service's methods are [async] functions over the breaker fields,
    the clock, the logger, the repository and the Gemini client.  A method
    is embedded as a finite tree of effects: [Sync] nodes run to completion
    within one turn of the event loop, [Await] nodes are the points where
    the method is suspended until the outside world answers. *)

Record JsError : Type := mkError { err_name : string; err_message : string }.

Inductive Result (A : Type) : Type :=
  | Ok (a : A)
  | Err (e : JsError).
Arguments Ok {A} a.
Arguments Err {A} e.

Inductive Level : Type := LLog | LWarn | LError | LConsole.

(** The rows of [postsData] sent with a prompt.  The prompt text itself is
    a fixed instruction around [JSON.stringify(postsData, null, 2)]; the
    request is represented by that payload.  [date_ms] is the time value
    whose [toISOString] rendering the source sends. *)
Record TrendDatum : Type := mkTrendDatum {
  td_title : string; td_subreddit : string; td_score : number;
  td_comments : number; td_date_ms : number; td_selftext : string
}.

Record ProblemDatum : Type := mkProblemDatum {
  pd_title : string; pd_subreddit : string; pd_score : number;
  pd_comments : number; pd_selftext : string
}.

Inductive Prompt : Type :=
  | TrendPrompt (postsData : list TrendDatum)
  | ProblemPrompt (postsData : list ProblemDatum).

(** Effects that complete within the current turn. *)
Inductive SyncEff : Type -> Type :=
  | DateNow : SyncEff Z
  | GetOpen : SyncEff bool
  | SetOpen (b : bool) : SyncEff unit
  | GetResetTime : SyncEff Z
  | SetResetTime (t : Z) : SyncEff unit
  | Log (lvl : Level) (msg : string) : SyncEff unit
  | CutoffTimestamp (days : number) : SyncEff number.

(** Effects the method awaits. *)
Inductive IoEff : Type -> Type :=
  | FindAll (limit skip : nat) : IoEff (Result (list RedditPost))
  | GenerateContent (model : string) (p : Prompt) : IoEff (Result string)
  | Timeout (ms : Z) : IoEff unit.

Inductive Prog (A : Type) : Type :=
  | Ret (a : A)
  | Throw (e : JsError)
  | Sync {X : Type} (e : SyncEff X) (k : X -> Prog A)
  | Await {X : Type} (e : IoEff X) (k : X -> Prog A).
Arguments Ret {A} a.
Arguments Throw {A} e.
Arguments Sync {A X} e k.
Arguments Await {A X} e k.

Fixpoint bind {A B : Type} (p : Prog A) (f : A -> Prog B) : Prog B :=
  match p with
  | Ret a => f a
  | Throw e => Throw e
  | Sync e k => Sync e (fun x => bind (k x) f)
  | Await e k => Await e (fun x => bind (k x) f)
  end.

(** [try { p } catch (error) { h error }] *)
Fixpoint try_catch {A : Type} (p : Prog A) (h : JsError -> Prog A) : Prog A :=
  match p with
  | Ret a => Ret a
  | Throw e => h e
  | Sync e k => Sync e (fun x => try_catch (k x) h)
  | Await e k => Await e (fun x => try_catch (k x) h)
  end.

Definition sync {X : Type} (e : SyncEff X) : Prog X := Sync e Ret.
Definition await {X : Type} (e : IoEff X) : Prog X := Await e Ret.

(** Awaiting a promise that may reject. *)
Definition await_result {X : Type} (e : IoEff (Result X)) : Prog X :=
  Await e (fun r => match r with Ok x => Ret x | Err err => Throw err end).

Declare Scope prog_scope.
Delimit Scope prog_scope with prog.
Notation "x <- p ;; q" := (bind p (fun x => q))
  (at level 61, p at next level, right associativity) : prog_scope.
Notation "p ;; q" := (bind p (fun _ => q))
  (at level 61, right associativity) : prog_scope.

(** ** The service *)
Module Service.

Import Json.
Local Open Scope string_scope.
Local Open Scope prog_scope.

Definition circuitBreakerTimeout : Z := 5 * 60 * 1000.
Definition aiModel : string := "gemini-2.0-flash-lite".
Definition maxRetries : nat := 3.
Definition retryDelay : Z := 2000.

(** The object literal a fallback analyzer pushes, as the value the
    renderer later reads. *)
Definition trend_value (t : TrendAnalysisResult) : JsValue :=
  VObj [("trend", VStr (trend t));
        ("growthPercentage", VNum (growthPercentage t));
        ("timePeriod", VStr (timePeriod t));
        ("marketAnalysis", VStr (marketAnalysis t));
        ("competitionLevel", VStr (competitionLevel t));
        ("entryCost", VStr (entryCost t));
        ("recommendation", VStr (recommendation t));
        ("confidence", VNum (confidence t))].

Definition problem_value (p : ProblemAnalysis) : JsValue :=
  VObj [("problem", VStr (problem p));
        ("frequency", VNum (frequency p));
        ("severity", VStr (severity p));
        ("potentialSolutions", VArr (map VStr (potentialSolutions p)));
        ("marketSize", VStr (marketSize p));
        ("urgency", VStr (urgency p))].

Definition getFallbackTrendAnalysis (posts : list RedditPost) : Prog (list JsValue) :=
  sync (Log LLog "Using fallback trend analysis due to API unavailability") ;;
  Ret (map trend_value (FallbackTrend.getFallbackTrendAnalysis posts)).

Definition getFallbackProblemAnalysis (posts : list RedditPost) : Prog (list JsValue) :=
  sync (Log LLog "Using fallback problem analysis due to API unavailability") ;;
  Ret (map problem_value (FallbackProblem.getFallbackProblemAnalysis posts)).

(** [this.circuitBreakerOpen && Date.now() < this.circuitBreakerResetTime];
    the clock is read only when the flag is set. *)
Definition breakerBlocks : Prog bool :=
  open <- sync GetOpen ;;
  if open : bool then
    now <- sync DateNow ;;
    reset <- sync GetResetTime ;;
    Ret (now <? reset)%Z
  else Ret false.

(** [this.circuitBreakerOpen = true;
     this.circuitBreakerResetTime = Date.now() + this.circuitBreakerTimeout] *)
Definition openBreaker : Prog unit :=
  sync (SetOpen true) ;;
  now <- sync DateNow ;;
  sync (SetResetTime (now + circuitBreakerTimeout)%Z).

(** [new Date(t).toISOString()] throws a [RangeError] unless [t] is a
    finite number of magnitude at most 8.64e15. *)
Definition validTime (t : number) : bool :=
  match t with
  | S754_nan | S754_infinity _ => false
  | _ => SFleb (SFabs t) (of_Z 8640000000000000)
  end.

Definition body_prefix (n : nat) (post : RedditPost) : string :=
  match selftext post with
  | Some t => Str.substring0 n t
  | None => EmptyString
  end.

Fixpoint trendData (posts : list RedditPost) : Result (list TrendDatum) :=
  match posts with
  | [] => Ok []
  | post :: rest =>
      let t := mul (created_utc post) (of_Z 1000) in
      if validTime t then
        match trendData rest with
        | Ok ds =>
            Ok (mkTrendDatum (title post) (subreddit post) (score post)
                  (num_comments post) t (body_prefix 200 post) :: ds)
        | Err e => Err e
        end
      else Err (mkError "RangeError" "Invalid time value")
  end.

Definition problemData (posts : list RedditPost) : list ProblemDatum :=
  map (fun post =>
         mkProblemDatum (title post) (subreddit post) (score post)
           (num_comments post) (body_prefix 300 post))
      posts.

Definition lift {A : Type} (r : Result A) : Prog A :=
  match r with Ok a => Ret a | Err e => Throw e end.

(** The decoding both paths apply to the response text:
    [JSON.parse(text.replace(/^```json\s*|```$/g, ''))]. *)
Definition syntaxError : JsError := mkError "SyntaxError" "Unexpected token in JSON".

Definition decode (text : string) : Prog JsValue :=
  match JSON_parse (Str.strip_fence text) with
  | Some v => Ret v
  | None => Throw syntaxError
  end.

(** [Array.isArray(v) ? v : []] *)
Definition arrayOrEmpty (v : JsValue) : list JsValue :=
  match v with VArr l => l | _ => [] end.

Definition nat_toString (n : nat) : string := Number_toString (of_nat n).

(** The body of the [try] block of one trend attempt. *)
Definition trendAttempt (posts : list RedditPost) (limit : nat) : Prog (list JsValue) :=
  postsData <- lift (trendData (firstn limit posts)) ;;
  sync (Log LConsole ("postsData ==>  " ++ nat_toString (List.length postsData))) ;;
  text <- await_result (GenerateContent aiModel (TrendPrompt postsData)) ;;
  trends <- decode text ;;
  sync (SetOpen false) ;;
  Ret (arrayOrEmpty trends).

(** The [for] loop of [analyzeWithGemini], entered at attempt number
    [attempt] with [remaining] iterations left. *)
Fixpoint trendLoop (remaining attempt : nat) (posts : list RedditPost) (limit : nat)
  : Prog (list JsValue) :=
  match remaining with
  | O => Ret []
  | S remaining' =>
      try_catch (trendAttempt posts limit)
        (fun error =>
           sync (Log LWarn ("Gemini API attempt " ++ nat_toString attempt ++ "/"
                            ++ nat_toString maxRetries ++ " failed: "
                            ++ err_message error)) ;;
           if Nat.eqb attempt maxRetries then
             sync (Log LError "All Gemini API attempts failed, opening circuit breaker") ;;
             openBreaker ;;
             getFallbackTrendAnalysis posts
           else
             await (Timeout (retryDelay * Z.of_nat attempt)) ;;
             trendLoop remaining' (S attempt) posts limit)
  end.

Definition analyzeWithGemini (posts : list RedditPost) (limit : nat) : Prog (list JsValue) :=
  blocked <- breakerBlocks ;;
  if blocked : bool then
    sync (Log LWarn "Circuit breaker is open, using fallback analysis") ;;
    getFallbackTrendAnalysis posts
  else trendLoop maxRetries 1 posts limit.

Definition problemAttempt (posts : list RedditPost) (limit : nat) : Prog (list JsValue) :=
  let postsData := problemData (firstn limit posts) in
  sync (Log LConsole ("postsData problems ==>  " ++ nat_toString (List.length postsData))) ;;
  text <- await_result (GenerateContent aiModel (ProblemPrompt postsData)) ;;
  problems <- decode text ;;
  sync (SetOpen false) ;;
  Ret (arrayOrEmpty problems).

Fixpoint problemLoop (remaining attempt : nat) (posts : list RedditPost) (limit : nat)
  : Prog (list JsValue) :=
  match remaining with
  | O => Ret []
  | S remaining' =>
      try_catch (problemAttempt posts limit)
        (fun error =>
           sync (Log LWarn ("Gemini API attempt " ++ nat_toString attempt ++ "/"
                            ++ nat_toString maxRetries ++ " failed for problems: "
                            ++ err_message error)) ;;
           if Nat.eqb attempt maxRetries then
             sync (Log LError
                     "All Gemini API attempts failed for problems, opening circuit breaker") ;;
             openBreaker ;;
             getFallbackProblemAnalysis posts
           else
             await (Timeout (retryDelay * Z.of_nat attempt)) ;;
             problemLoop remaining' (S attempt) posts limit)
  end.

Definition analyzeProblemsWithGemini (posts : list RedditPost) (limit : nat)
  : Prog (list JsValue) :=
  blocked <- breakerBlocks ;;
  if blocked : bool then
    sync (Log LWarn "Circuit breaker is open, using fallback analysis for problems") ;;
    getFallbackProblemAnalysis posts
  else problemLoop maxRetries 1 posts limit.

(** [getRecentPosts]: the cutoff is the local-calendar computation
    [new Date(); setDate(getDate() - days); Math.floor(getTime() / 1000)],
    answered by the environment. *)
Definition getRecentPosts (days : number) : Prog (list RedditPost) :=
  cutoffTimestamp <- sync (CutoffTimestamp days) ;;
  posts <- await_result (FindAll 1000 0) ;;
  Ret (filter (fun post => ge (created_utc post) cutoffTimestamp) posts).

Definition defaultLimit : nat := 500.

Definition analyzeTrends (days : number) : Prog (list JsValue) :=
  sync (Log LLog ("Starting trend analysis for the last " ++ Number_toString days ++ " days")) ;;
  try_catch
    (posts <- getRecentPosts days ;;
     if Nat.eqb (List.length posts) 0 then
       sync (Log LWarn "No posts found for analysis") ;;
       Ret []
     else
       trends <- analyzeWithGemini posts defaultLimit ;;
       sync (Log LLog ("Found " ++ nat_toString (List.length trends) ++ " trends")) ;;
       Ret trends)
    (fun error =>
       sync (Log LError ("Error during trend analysis: " ++ err_message error)) ;;
       Throw error).

Definition analyzeProblems (days : number) : Prog (list JsValue) :=
  sync (Log LLog ("Starting problem analysis for the last " ++ Number_toString days ++ " days")) ;;
  try_catch
    (posts <- getRecentPosts days ;;
     if Nat.eqb (List.length posts) 0 then
       sync (Log LWarn "No posts found for problem analysis") ;;
       Ret []
     else
       problems <- analyzeProblemsWithGemini posts defaultLimit ;;
       sync (Log LLog ("Found " ++ nat_toString (List.length problems) ++ " problems")) ;;
       Ret problems)
    (fun error =>
       sync (Log LError ("Error during problem analysis: " ++ err_message error)) ;;
       Throw error).

(** *** Rendering the report *)

Definition nl : string := String (ascii_of_nat 10) EmptyString.

Definition typeError (msg : string) : JsError := mkError "TypeError" msg.

(** [ToString] of a decoded value, as a template literal applies it.  An
    array joins its elements with a comma, [null] elements giving the empty
    string; an object prints as [[object Object]] unless it carries an own
    [toString] property, which is not callable. *)
Fixpoint toStr (v : JsValue) : Result string :=
  match v with
  | VNull => Ok "null"
  | VBool b => Ok (if b then "true" else "false")
  | VNum x => Ok (Number_toString x)
  | VStr t => Ok t
  | VArr l =>
      match
        (fix elems (l : list JsValue) : Result (list string) :=
           match l with
           | [] => Ok []
           | x :: r =>
               match (match x with VNull => Ok EmptyString | _ => toStr x end) with
               | Ok t => match elems r with Ok ts => Ok (t :: ts) | Err e => Err e end
               | Err e => Err e
               end
           end) l
      with
      | Ok ts => Ok (Str.join "," ts)
      | Err e => Err e
      end
  | VObj props =>
      match get "toString" props with
      | Some _ => Err (typeError "Cannot convert object to primitive value")
      | None => Ok "[object Object]"
      end
  end.

(** The strings [Array.prototype.join] glues together. *)
Fixpoint elemStrings (l : list JsValue) : Result (list string) :=
  match l with
  | [] => Ok []
  | x :: r =>
      match (match x with VNull => Ok EmptyString | _ => toStr x end) with
      | Ok t => match elemStrings r with Ok ts => Ok (t :: ts) | Err e => Err e end
      | Err e => Err e
      end
  end.

(** [${e}] where [e] may be [undefined]. *)
Definition interp (v : option JsValue) : Result string :=
  match v with
  | None => Ok "undefined"
  | Some v => toStr v
  end.

(** [item.name]: reading a property of [null] throws; an object yields its
    own property or [undefined]; any other value has no such property. *)
Definition prop (item : JsValue) (name : string) : Result (option JsValue) :=
  match item with
  | VNull => Err (typeError ("Cannot read properties of null (reading '" ++ name ++ "')"))
  | VObj props => Ok (get name props)
  | _ => Ok None
  end.

(** [${item.name}] *)
Definition field (item : JsValue) (name : string) : Result string :=
  match prop item name with
  | Ok v => interp v
  | Err e => Err e
  end.

Definition rbind {A B : Type} (r : Result A) (f : A -> Result B) : Result B :=
  match r with Ok a => f a | Err e => Err e end.

Declare Scope result_scope.
Delimit Scope result_scope with result.
Notation "x <~ r ;; q" := (rbind r (fun x => q))
  (at level 61, r at next level, right associativity) : result_scope.

(** [problem.potentialSolutions.join(', ')] *)
Definition joinSolutions (item : JsValue) : Result string :=
  (ps <~ prop item "potentialSolutions" ;;
   match ps with
   | None =>
       Err (typeError "Cannot read properties of undefined (reading 'join')")
   | Some VNull =>
       Err (typeError "Cannot read properties of null (reading 'join')")
   | Some (VArr l) =>
       ts <~ elemStrings l ;; Ok (Str.join ", " ts)
   | Some _ =>
       Err (typeError "problem.potentialSolutions.join is not a function")
   end)%result.

(** The lines one [trends.forEach] callback appends. *)
Definition renderTrend (index : nat) (item : JsValue) : Result string :=
  (t <~ field item "trend" ;;
   g <~ field item "growthPercentage" ;;
   tp <~ field item "timePeriod" ;;
   m <~ field item "marketAnalysis" ;;
   c <~ field item "competitionLevel" ;;
   ec <~ field item "entryCost" ;;
   r <~ field item "recommendation" ;;
   cf <~ field item "confidence" ;;
   Ok (nat_toString (index + 1) ++ ". " ++ t ++ " (+" ++ g ++ "% over " ++ tp ++ ")" ++ nl
       ++ "   Market: " ++ m ++ nl
       ++ "   Competition: " ++ c ++ " | Entry Cost: " ++ ec ++ nl
       ++ "   Recommendation: " ++ r ++ nl
       ++ "   Confidence: " ++ cf ++ "%" ++ nl ++ nl))%result.

(** The lines one [problems.forEach] callback appends. *)
Definition renderProblem (index : nat) (item : JsValue) : Result string :=
  (pb <~ field item "problem" ;;
   f <~ field item "frequency" ;;
   sv <~ field item "severity" ;;
   ms <~ field item "marketSize" ;;
   u <~ field item "urgency" ;;
   sols <~ joinSolutions item ;;
   Ok (nat_toString (index + 1) ++ ". " ++ pb ++ nl
       ++ "   Frequency: " ++ f ++ " mentions | Severity: " ++ sv ++ nl
       ++ "   Market Size: " ++ ms ++ " | Urgency: " ++ u ++ nl
       ++ "   Potential Solutions: " ++ sols ++ nl ++ nl))%result.

(** [items.forEach((item, index) => { report += render(index, item) })] *)
Fixpoint renderEach (render : nat -> JsValue -> Result string)
    (index : nat) (items : list JsValue) : Result string :=
  match items with
  | [] => Ok EmptyString
  | item :: rest =>
      (t <~ render index item ;;
       ts <~ renderEach render (S index) rest ;;
       Ok (t ++ ts))%result
  end.

Definition header (days : number) : string :=
  nl ++ "=== TREND ANALYSIS REPORT (" ++ Number_toString days ++ " days) ===" ++ nl ++ nl.

Definition trendsHeading : string := "📈 EMERGING TRENDS:" ++ nl.
Definition problemsHeading : string := "🔍 IDENTIFIED PROBLEMS:" ++ nl.

Definition nothingFound : string :=
  "No significant trends or problems identified in the current data." ++ nl.

Definition footer : string := nl ++ "=== END OF REPORT ===" ++ nl.

Definition trendsBlock (trends : list JsValue) : Result string :=
  if Nat.ltb 0 (List.length trends)
  then (body <~ renderEach renderTrend 0 trends ;; Ok (trendsHeading ++ body))%result
  else Ok EmptyString.

Definition problemsBlock (problems : list JsValue) : Result string :=
  if Nat.ltb 0 (List.length problems)
  then (body <~ renderEach renderProblem 0 problems ;; Ok (problemsHeading ++ body))%result
  else Ok EmptyString.

(** The text [generateReport] builds from the two collections. *)
Definition renderReport (days : number) (trends problems : list JsValue) : Result string :=
  (tb <~ trendsBlock trends ;;
   pb <~ problemsBlock problems ;;
   Ok (header days ++ tb ++ pb
       ++ (if Nat.eqb (List.length trends) 0 && Nat.eqb (List.length problems) 0
           then nothingFound else EmptyString)
       ++ footer))%result.

(** *** Running the methods

    The environment answers every effect: the [n]-th clock reading, cutoff
    computation, repository query and Gemini call, and which of two
    suspended methods is resumed first. *)

Inductive Event : Type :=
  | ELog (lvl : Level) (msg : string)
  | ESetOpen (b : bool)
  | ESetResetTime (t : Z)
  | EFindAll (limit skip : nat)
  | EGenerateContent (model : string) (p : Prompt)
  | ETimeout (ms : Z).

(** [clock n] is the [n]-th reading of [Date.now()]: an integer number of
    milliseconds, of magnitude at most 8.64e15, for which the double
    arithmetic of [Date.now() + 300000] and of [<] is exact, so the
    readings and the reset time are kept in [Z].  [calendar n days] is the
    [n]-th cutoff computed by [getRecentPosts]; [repository n] answers the
    [n]-th [findAll]; [gemini n prompt] is the outcome of the [n]-th
    [generateContent] call, the text of the response or the error it
    rejects with; [scheduler n] tells which of two suspended methods is
    resumed at the [n]-th choice. *)
Record Env : Type := mkEnv {
  clock : nat -> Z;
  calendar : nat -> number -> number;
  repository : nat -> Result (list RedditPost);
  gemini : nat -> Prompt -> Result string;
  scheduler : nat -> bool
}.

(** The two breaker fields of the service, what has happened so far (an
    awaited operation is entered when it is answered), and how many
    answers of each kind the environment has given. *)
Record World : Type := mkWorld {
  circuitBreakerOpen : bool;
  circuitBreakerResetTime : Z;
  trace : list Event;
  clockReads : nat;
  cutoffs : nat;
  fetches : nat;
  calls : nat;
  turns : nat
}.

(** A freshly constructed service: [circuitBreakerOpen = false],
    [circuitBreakerResetTime = 0]. *)
Definition initial : World := mkWorld false 0 [] 0 0 0 0 0.

Definition record (ev : Event) (w : World) : World :=
  mkWorld (circuitBreakerOpen w) (circuitBreakerResetTime w) (trace w ++ [ev])%list
          (clockReads w) (cutoffs w) (fetches w) (calls w) (turns w).

Definition tick (w : World) : World :=
  mkWorld (circuitBreakerOpen w) (circuitBreakerResetTime w) (trace w)
          (S (clockReads w)) (cutoffs w) (fetches w) (calls w) (turns w).

Definition setOpen (b : bool) (w : World) : World :=
  mkWorld b (circuitBreakerResetTime w) (trace w ++ [ESetOpen b])%list
          (clockReads w) (cutoffs w) (fetches w) (calls w) (turns w).

Definition setResetTime (t : Z) (w : World) : World :=
  mkWorld (circuitBreakerOpen w) t (trace w ++ [ESetResetTime t])%list
          (clockReads w) (cutoffs w) (fetches w) (calls w) (turns w).

Definition cutoffTaken (w : World) : World :=
  mkWorld (circuitBreakerOpen w) (circuitBreakerResetTime w) (trace w)
          (clockReads w) (S (cutoffs w)) (fetches w) (calls w) (turns w).

Definition fetched (limit skip : nat) (w : World) : World :=
  mkWorld (circuitBreakerOpen w) (circuitBreakerResetTime w)
          (trace w ++ [EFindAll limit skip])%list
          (clockReads w) (cutoffs w) (S (fetches w)) (calls w) (turns w).

Definition called (model : string) (p : Prompt) (w : World) : World :=
  mkWorld (circuitBreakerOpen w) (circuitBreakerResetTime w)
          (trace w ++ [EGenerateContent model p])%list
          (clockReads w) (cutoffs w) (fetches w) (S (calls w)) (turns w).

Definition sync_step (env : Env) {X : Type} (e : SyncEff X) (w : World) : World * X :=
  match e in SyncEff X return World * X with
  | DateNow => (tick w, clock env (clockReads w))
  | GetOpen => (w, circuitBreakerOpen w)
  | SetOpen b => (setOpen b w, tt)
  | GetResetTime => (w, circuitBreakerResetTime w)
  | SetResetTime t => (setResetTime t w, tt)
  | Log lvl msg => (record (ELog lvl msg) w, tt)
  | CutoffTimestamp days => (cutoffTaken w, calendar env (cutoffs w) days)
  end.

Definition io_step (env : Env) {X : Type} (e : IoEff X) (w : World) : World * X :=
  match e in IoEff X return World * X with
  | FindAll limit skip => (fetched limit skip w, repository env (fetches w))
  | GenerateContent model p => (called model p w, gemini env (calls w) p)
  | Timeout ms => (record (ETimeout ms) w, tt)
  end.

(** One method running alone, to completion. *)
Fixpoint run {A : Type} (env : Env) (p : Prog A) (w : World) : World * Result A :=
  match p with
  | Ret a => (w, Ok a)
  | Throw e => (w, Err e)
  | Sync e k => let '(w', x) := sync_step env e w in run env (k x) w'
  | Await e k => let '(w', x) := io_step env e w in run env (k x) w'
  end.

Definition next_turn (w : World) : World :=
  mkWorld (circuitBreakerOpen w) (circuitBreakerResetTime w) (trace w)
          (clockReads w) (cutoffs w) (fetches w) (calls w) (S (turns w)).

(** [await Promise.all([p, q])]: [p] runs up to its first [await], then
    [q] does; from then on the environment picks which suspended method is
    resumed, and the resumed one runs up to its next [await].  The promise
    rejects as soon as one of the two throws. *)
Fixpoint run_all {A B : Type} (env : Env) (p : Prog A)
  : Prog B -> World -> World * Result (A * B) :=
  fix inner (q : Prog B) (w : World) {struct q} : World * Result (A * B) :=
    match p with
    | Sync e k => let '(w', x) := sync_step env e w in run_all env (k x) q w'
    | Throw e => (w, Err e)
    | Ret a =>
        match q with
        | Sync e k => let '(w', x) := sync_step env e w in inner (k x) w'
        | Throw e => (w, Err e)
        | Ret b => (w, Ok (a, b))
        | Await e k => let '(w', x) := io_step env e w in inner (k x) w'
        end
    | Await ep kp =>
        match q with
        | Sync e k => let '(w', x) := sync_step env e w in inner (k x) w'
        | Throw e => (w, Err e)
        | Ret b => let '(w', x) := io_step env ep w in run_all env (kp x) q w'
        | Await eq kq =>
            if scheduler env (turns w)
            then let '(w', x) := io_step env ep (next_turn w) in run_all env (kp x) q w'
            else let '(w', x) := io_step env eq (next_turn w) in inner (kq x) w'
        end
    end.

(** [generateReport] *)
Definition generateReport (env : Env) (days : number) (w : World) : World * Result string :=
  let w0 :=
    record (ELog LLog ("Generating comprehensive report for the last "
                       ++ Number_toString days ++ " days")) w in
  match run_all env (analyzeTrends days) (analyzeProblems days) w0 with
  | (w1, Ok (trends, problems)) =>
      match renderReport days trends problems with
      | Ok report => (w1, Ok report)
      | Err error =>
          (record (ELog LError ("Error generating report: " ++ err_message error)) w1,
           Err error)
      end
  | (w1, Err error) =>
      (record (ELog LError ("Error generating report: " ++ err_message error)) w1,
       Err error)
  end.

(** *** The two paths side by side

    [analyzeWithGemini] and [analyzeProblemsWithGemini] are two copies of
    one retry loop; these names let a statement range over both. *)

Inductive Kind : Type := Trend | Problem.

Definition analyze (kind : Kind) : list RedditPost -> nat -> Prog (list JsValue) :=
  match kind with
  | Trend => analyzeWithGemini
  | Problem => analyzeProblemsWithGemini
  end.

Definition loop (kind : Kind) : nat -> nat -> list RedditPost -> nat -> Prog (list JsValue) :=
  match kind with
  | Trend => trendLoop
  | Problem => problemLoop
  end.

Definition attempt (kind : Kind) : list RedditPost -> nat -> Prog (list JsValue) :=
  match kind with
  | Trend => trendAttempt
  | Problem => problemAttempt
  end.

(** The prompt an attempt sends, or the error that stops it before the
    call. *)
Definition promptOf (kind : Kind) (posts : list RedditPost) (limit : nat) : Result Prompt :=
  match kind with
  | Trend =>
      match trendData (firstn limit posts) with
      | Ok data => Ok (TrendPrompt data)
      | Err e => Err e
      end
  | Problem => Ok (ProblemPrompt (problemData (firstn limit posts)))
  end.

(** What the path's fallback analyzer returns. *)
Definition fallbackOf (kind : Kind) (posts : list RedditPost) : list JsValue :=
  match kind with
  | Trend => map trend_value (FallbackTrend.getFallbackTrendAnalysis posts)
  | Problem => map problem_value (FallbackProblem.getFallbackProblemAnalysis posts)
  end.

(** The lines the two paths log. *)
Definition consoleLine (p : Prompt) : Event :=
  match p with
  | TrendPrompt data =>
      ELog LConsole ("postsData ==>  " ++ nat_toString (List.length data))
  | ProblemPrompt data =>
      ELog LConsole ("postsData problems ==>  " ++ nat_toString (List.length data))
  end.

Definition warningLine (kind : Kind) (a : nat) (e : JsError) : Event :=
  ELog LWarn ("Gemini API attempt " ++ nat_toString a ++ "/" ++ nat_toString maxRetries
              ++ match kind with
                 | Trend => " failed: "
                 | Problem => " failed for problems: "
                 end
              ++ err_message e).

Definition exhaustedLine (kind : Kind) : Event :=
  ELog LError
    match kind with
    | Trend => "All Gemini API attempts failed, opening circuit breaker"
    | Problem => "All Gemini API attempts failed for problems, opening circuit breaker"
    end.

Definition fallbackLine (kind : Kind) : Event :=
  ELog LLog
    match kind with
    | Trend => "Using fallback trend analysis due to API unavailability"
    | Problem => "Using fallback problem analysis due to API unavailability"
    end.

Definition refusedLine (kind : Kind) : Event :=
  ELog LWarn
    match kind with
    | Trend => "Circuit breaker is open, using fallback analysis"
    | Problem => "Circuit breaker is open, using fallback analysis for problems"
    end.

(** The breaker does not stand in the way of an invocation in world [w]. *)
Definition unblocked (env : Env) (w : World) : bool :=
  negb (circuitBreakerOpen w
        && (clock env (clockReads w) <? circuitBreakerResetTime w)%Z).

(** The world in which the retry loop is entered. *)
Definition entered (w : World) : World :=
  if circuitBreakerOpen w then tick w else w.

(** The world after the breaker has been opened in world [w]. *)
Definition opened (env : Env) (w : World) : World :=
  setResetTime (clock env (clockReads w) + circuitBreakerTimeout) (tick (setOpen true w)).

(** The world in which the [catch] block of the last attempt ends. *)
Definition exhausted (env : Env) (kind : Kind) (w : World) : World :=
  record (fallbackLine kind) (opened env (record (exhaustedLine kind) w)).

(** The world in which a refused invocation ends. *)
Definition refused (kind : Kind) (w : World) : World :=
  record (fallbackLine kind) (record (refusedLine kind) (tick w)).

(** The world in which a failed attempt that is not the last hands over
    to the next one. *)
Definition retried (kind : Kind) (a : nat) (e : JsError) (prompt : Prompt) (w : World)
  : World :=
  record (ETimeout (retryDelay * Z.of_nat a))
    (record (warningLine kind a e)
       (called aiModel prompt (record (consoleLine prompt) w))).

(** What the loop leaves in the trace for failed attempts [a, a+1, ...]:
    the call and the wait that follows it. *)
Definition retryEvents (prompt : Prompt) (a k : nat) : list Event :=
  flat_map (fun j => [EGenerateContent aiModel prompt; ETimeout (retryDelay * Z.of_nat j)])
           (seq a k).

(** Invocations made one after the other, each awaited before the next. *)
Definition Invocation : Type := Kind * list RedditPost * nat.

Fixpoint run_seq (env : Env) (invs : list Invocation) (w : World)
  : World * list (Result (list JsValue)) :=
  match invs with
  | [] => (w, [])
  | (kind, posts, limit) :: rest =>
      let '(w1, r) := run env (analyze kind posts limit) w in
      let '(w2, rs) := run_seq env rest w1 in
      (w2, r :: rs)
  end.

(** What one response is worth to the caller: the decoded value, or the
    error that makes the attempt fail. *)
Definition decoded (r : Result string) : Result JsValue :=
  match r with
  | Err e => Err e
  | Ok text =>
      match JSON_parse (Str.strip_fence text) with
      | Some v => Ok v
      | None => Err syntaxError
      end
  end.

(** The trace without the logger lines. *)
Definition isLog (ev : Event) : bool :=
  match ev with ELog _ _ => true | _ => false end.

Definition observable (tr : list Event) : list Event :=
  filter (fun ev => negb (isLog ev)) tr.

(** *** Vocabulary of the statements about the pipeline *)

Definition isTypeError (e : JsError) : Prop := err_name e = "TypeError".

(** A collection every element of which renders. *)
Definition renders (kind : Kind) (items : list JsValue) : Prop :=
  forall index, exists text,
    renderEach (match kind with Trend => renderTrend | Problem => renderProblem end)
               index items = Ok text.

(** The window of a fetch is empty: whatever query and whatever cutoff
    computation are paired, no record passes the filter. *)
Definition emptyWindow (env : Env) (days : number) : Prop :=
  forall i j, exists posts,
    repository env i = Ok posts
    /\ filter (fun post => ge (created_utc post) (calendar env j days)) posts = [].

(** [analyzeTrends] from the point where the repository has answered. *)
Definition trendsAfterFetch (days cutoffTimestamp : number) (r : Result (list RedditPost))
  : Prog (list JsValue) :=
  try_catch
    (bind
       (bind (lift r)
             (fun posts =>
                Ret (filter (fun post => ge (created_utc post) cutoffTimestamp) posts)))
       (fun posts =>
          if Nat.eqb (List.length posts) 0 then
            bind (sync (Log LWarn "No posts found for analysis")) (fun _ => Ret [])
          else
            bind (analyzeWithGemini posts defaultLimit)
                 (fun trends =>
                    bind (sync (Log LLog ("Found " ++ nat_toString (List.length trends)
                                          ++ " trends")))
                         (fun _ => Ret trends))))
    (fun error =>
       bind (sync (Log LError ("Error during trend analysis: " ++ err_message error)))
            (fun _ => Throw error)).

Definition problemsAfterFetch (days cutoffTimestamp : number) (r : Result (list RedditPost))
  : Prog (list JsValue) :=
  try_catch
    (bind
       (bind (lift r)
             (fun posts =>
                Ret (filter (fun post => ge (created_utc post) cutoffTimestamp) posts)))
       (fun posts =>
          if Nat.eqb (List.length posts) 0 then
            bind (sync (Log LWarn "No posts found for problem analysis")) (fun _ => Ret [])
          else
            bind (analyzeProblemsWithGemini posts defaultLimit)
                 (fun problems =>
                    bind (sync (Log LLog ("Found " ++ nat_toString (List.length problems)
                                          ++ " problems")))
                         (fun _ => Ret problems))))
    (fun error =>
       bind (sync (Log LError ("Error during problem analysis: " ++ err_message error)))
            (fun _ => Throw error)).

(** *** What a method can end in

    [Leaves env P E p]: whatever the environment answers, [p] ends by
    returning a value in [P] or by throwing an error in [E]. *)

Definition answers (env : Env) {X : Type} (e : IoEff X) (x : X) : Prop :=
  exists w, snd (io_step env e w) = x.

Inductive Leaves (env : Env) {A : Type} (P : A -> Prop) (E : JsError -> Prop)
  : Prog A -> Prop :=
  | LRet (a : A) : P a -> Leaves env P E (Ret a)
  | LThrow (e : JsError) : E e -> Leaves env P E (Throw e)
  | LSync {X : Type} (e : SyncEff X) (k : X -> Prog A) :
      (forall x, Leaves env P E (k x)) -> Leaves env P E (Sync e k)
  | LAwait {X : Type} (e : IoEff X) (k : X -> Prog A) :
      (forall x, answers env e x -> Leaves env P E (k x)) -> Leaves env P E (Await e k).

(** The error of a rejected repository query. *)
Definition fetchFailure (env : Env) (e : JsError) : Prop := exists i, repository env i = Err e.

(** [analyzeTrends] or [analyzeProblems]. *)
Definition analysis (kind : Kind) (days : number) : Prog (list JsValue) :=
  match kind with
  | Trend => analyzeTrends days
  | Problem => analyzeProblems days
  end.

(** The result of an invocation the breaker refuses. *)
Definition refusal (inv : Invocation) : Result (list JsValue) :=
  let '(kind, posts, _) := inv in Ok (fallbackOf kind posts).

End Service.

(** ** Vocabulary of the statements about the report text *)
Module Text.

Local Open Scope string_scope.

Definition newline : ascii := ascii_of_nat 10.

(** Every character of [s] passes [ok]. *)
Fixpoint allChars (ok : ascii -> bool) (s : string) : bool :=
  match s with
  | EmptyString => true
  | String c r => ok c && allChars ok r
  end.

Definition onOneLine (s : string) : bool :=
  allChars (fun c => negb (Ascii.eqb c newline)) s.

(** The lines of a text, split at every newline. *)
Fixpoint lines (s : string) : list string :=
  match s with
  | EmptyString => [EmptyString]
  | String c r =>
      if Ascii.eqb c newline then EmptyString :: lines r
      else match lines r with
           | [] => [String c EmptyString]
           | l :: ls => String c l :: ls
           end
  end.

(** A line that opens a numbered list item: digits, a dot, a space. *)
Definition numberedItem (line : string) : bool :=
  let '(_, cnt, rest) := Json.take_digits 0 0 line in
  negb (Nat.eqb cnt 0) && prefix ". " rest.

(** The characters [Number_toString] can produce. *)
Definition numeric (c : ascii) : bool :=
  Json.is_digit c
  || existsb (Ascii.eqb c)
       ["."%char; "-"%char; "+"%char; "e"%char; "N"%char; "a"%char; "I"%char;
        "n"%char; "f"%char; "i"%char; "t"%char; "y"%char].

(** The title line of the report. *)
Definition titleLine (days : number) : string :=
  "=== TREND ANALYSIS REPORT (" ++ Num.Number_toString days ++ " days) ===".

End Text.

(** ** Vocabulary of the statements about whole invocations *)
Module Conduct.

Import Json.
Import Service.
Local Open Scope string_scope.

(** The waits a trace records, in the order they were started. *)
Definition timeouts (tr : list Event) : list Z :=
  flat_map (fun ev => match ev with ETimeout ms => [ms] | _ => [] end) tr.

(** The prompts of the calls a trace records. *)
Definition prompts (tr : list Event) : list Prompt :=
  flat_map (fun ev => match ev with EGenerateContent _ p => [p] | _ => [] end) tr.

(** A record whose [created_utc * 1000] is no time value [toISOString]
    can print. *)
Definition undatable (post : RedditPost) : bool :=
  negb (validTime (mul (created_utc post) (of_Z 1000))).

(** A method run up to the point where it first suspends, returns or
    throws: what happens within the current turn of the event loop. *)
Fixpoint settle {A : Type} (env : Env) (p : Prog A) (w : World) : World * Prog A :=
  match p with
  | Sync e k => let '(w', x) := sync_step env e w in settle env (k x) w'
  | _ => (w, p)
  end.

(** [analyzeTrends] or [analyzeProblems] from the point where the
    repository has answered. *)
Definition afterFetch (kind : Kind) : number -> number -> Result (list RedditPost)
                                      -> Prog (list JsValue) :=
  match kind with
  | Trend => trendsAfterFetch
  | Problem => problemsAfterFetch
  end.

(** The records of a repository answer that fall in the window. *)
Definition window (cutoffTimestamp : number) (posts : list RedditPost) : list RedditPost :=
  filter (fun post => ge (created_utc post) cutoffTimestamp) posts.

(** The line [analyzeTrends] or [analyzeProblems] logs before rethrowing. *)
Definition analysisErrorLine (kind : Kind) (e : JsError) : Event :=
  ELog LError
    (match kind with
     | Trend => "Error during trend analysis: "
     | Problem => "Error during problem analysis: "
     end ++ err_message e).

(** The computation returned. *)
Definition isOk {A : Type} (r : Result A) : bool :=
  match r with Ok _ => true | Err _ => false end.

(** A value [ToString] prints without consulting the value itself for a
    method: anything but an object that carries its own [toString], looked
    for through the arrays. *)
Fixpoint printable (v : JsValue) : bool :=
  match v with
  | VArr l => forallb printable l
  | VObj props => match get "toString" props with Some _ => false | None => true end
  | _ => true
  end.

(** [${item.name}] can be printed. *)
Definition printableField (item : JsValue) (name : string) : bool :=
  match item with
  | VObj props => match get name props with Some v => printable v | None => true end
  | _ => true
  end.

Definition trendFields : list string :=
  ["trend"; "growthPercentage"; "timePeriod"; "marketAnalysis"; "competitionLevel";
   "entryCost"; "recommendation"; "confidence"].

Definition problemFields : list string :=
  ["problem"; "frequency"; "severity"; "marketSize"; "urgency"].

(** The items the two [forEach] callbacks of [generateReport] get through
    without throwing. *)
Definition trendRenders (item : JsValue) : bool :=
  match item with
  | VNull => false
  | _ => forallb (printableField item) trendFields
  end.

Definition problemRenders (item : JsValue) : bool :=
  match item with
  | VObj props =>
      forallb (printableField item) problemFields
      && match get "potentialSolutions" props with
         | Some (VArr l) => forallb printable l
         | _ => false
         end
  | _ => false
  end.

End Conduct.

(** ** The scheduler ([trend-analysis.scheduler.ts])

    The three jobs await [generateReport] inside a [try] whose [catch]
    only logs. *)
Module Scheduler.

Import Service.
Local Open Scope string_scope.

Definition handleDailyAnalysis (env : Env) (w : World) : World * Result unit :=
  let w0 := record (ELog LLog "Starting daily trend analysis...") w in
  match generateReport env (of_Z 180) w0 with
  | (w1, Ok report) =>
      (record (ELog LLog "Daily trend analysis completed successfully")
         (record (ELog LConsole report) w1),
       Ok tt)
  | (w1, Err error) =>
      (record (ELog LError ("Daily trend analysis failed: " ++ err_message error)) w1,
       Ok tt)
  end.

Definition handleWeeklyAnalysis (env : Env) (w : World) : World * Result unit :=
  let w0 := record (ELog LLog "Starting weekly trend analysis...") w in
  match generateReport env (of_Z 30) w0 with
  | (w1, Ok report) =>
      (record (ELog LLog "Weekly trend analysis completed successfully")
         (record (ELog LConsole report) w1),
       Ok tt)
  | (w1, Err error) =>
      (record (ELog LError ("Weekly trend analysis failed: " ++ err_message error)) w1,
       Ok tt)
  end.

Definition runManualAnalysis (env : Env) (days : number) (w : World) : World * Result unit :=
  let w0 :=
    record (ELog LLog ("Running manual trend analysis for " ++ Number_toString days
                       ++ " days...")) w in
  match generateReport env days w0 with
  | (w1, Ok report) =>
      (record (ELog LLog "Manual trend analysis completed successfully")
         (record (ELog LConsole report) w1),
       Ok tt)
  | (w1, Err error) =>
      (record (ELog LError ("Manual trend analysis failed: " ++ err_message error)) w1,
       Ok tt)
  end.

(** The jobs by name, for statements that range over the three. *)
Inductive Job : Type := Daily | Weekly | Manual (days : number).

Definition runJob (job : Job) : Env -> World -> World * Result unit :=
  match job with
  | Daily => handleDailyAnalysis
  | Weekly => handleWeeklyAnalysis
  | Manual days => fun env => runManualAnalysis env days
  end.

(** The window a job asks for. *)
Definition jobDays (job : Job) : number :=
  match job with
  | Daily => of_Z 180
  | Weekly => of_Z 30
  | Manual days => days
  end.

Definition startLine (job : Job) : Event :=
  ELog LLog
    match job with
    | Daily => "Starting daily trend analysis..."
    | Weekly => "Starting weekly trend analysis..."
    | Manual days =>
        "Running manual trend analysis for " ++ Number_toString days ++ " days..."
    end.

Definition doneLine (job : Job) : Event :=
  ELog LLog
    match job with
    | Daily => "Daily trend analysis completed successfully"
    | Weekly => "Weekly trend analysis completed successfully"
    | Manual _ => "Manual trend analysis completed successfully"
    end.

Definition failedLine (job : Job) (e : JsError) : Event :=
  ELog LError
    (match job with
     | Daily => "Daily trend analysis failed: "
     | Weekly => "Weekly trend analysis failed: "
     | Manual _ => "Manual trend analysis failed: "
     end ++ err_message e).

End Scheduler.

(** ** Vocabulary of the statements about decoding *)
Module Grammar.

Import Num.
Import Json.
Local Open Scope string_scope.

(** The four stages of [parse_number], named. *)
Definition number_sign (s : string) : bool * string :=
  match s with
  | String "-" r => (true, r)
  | _ => (false, s)
  end.

Definition number_int (s1 : string) : option (Z * string) :=
  match s1 with
  | String "0" r => Some (0%Z, r)
  | String c _ =>
      if is_digit c then
        let '(v, _, r) := take_digits 0 0 s1 in Some (v, r)
      else None
  | EmptyString => None
  end.

Definition number_frac (iv : Z) (s2 : string) : option (Z * nat * string) :=
  match s2 with
  | String "." r =>
      let '(v, cnt, r') := take_digits iv 0 r in
      if Nat.eqb cnt 0 then None else Some (v, cnt, r')
  | _ => Some (iv, O, s2)
  end.

Definition number_exp (s3 : string) : option (Z * string) :=
  match s3 with
  | String c r =>
      if Ascii.eqb c "e" || Ascii.eqb c "E" then
        let '(eneg, r1) :=
          match r with
          | String "-" r' => (true, r')
          | String "+" r' => (false, r')
          | _ => (false, r)
          end in
        let '(ev, cnt, r2) := take_digits 0 0 r1 in
        if Nat.eqb cnt 0 then None
        else Some ((if eneg then - ev else ev)%Z, r2)
      else Some (0%Z, s3)
  | EmptyString => Some (0%Z, s3)
  end.

(** A character a JSON text can end in: a digit, a quote, a closing
    bracket or brace, or the last letter of [null], [true] or [false]. *)
Definition valueEnd (c : ascii) : bool :=
  is_digit c || Ascii.eqb c dquote
  || existsb (Ascii.eqb c) ["]"%char; "}"%char; "l"%char; "e"%char].

(** [r] is what is left of [s] after a text that ends in such a
    character, or in a digit. *)
Definition endsBefore (s r : string) : Prop :=
  exists pre c, s = pre ++ String c r /\ valueEnd c = true.

Definition digitBefore (s r : string) : Prop :=
  exists pre d, s = pre ++ String d r /\ is_digit d = true.

(** The last character of [s] that passes [p]. *)
Fixpoint lastThat (p : ascii -> bool) (s : string) : option ascii :=
  match s with
  | EmptyString => None
  | String c r =>
      match lastThat p r with
      | Some d => Some d
      | None => if p c then Some c else None
      end
  end.

(** The last character of a text, and the last one that is not JSON
    white space. *)
Definition lastChar : string -> option ascii := lastThat (fun _ => true).
Definition lastSolid : string -> option ascii := lastThat (fun c => negb (is_ws c)).

(** The ASCII characters of the class [\s]: tab, line feed, vertical tab,
    form feed, carriage return and space. *)
Definition asciiWhiteSpace (c : ascii) : bool :=
  existsb (Ascii.eqb c)
          [ascii_of_nat 9; ascii_of_nat 10; ascii_of_nat 11; ascii_of_nat 12;
           ascii_of_nat 13; ascii_of_nat 32].

(** The text begins with a character of the class [\s]. *)
Definition beginsWithSpace (s : string) : bool :=
  match s with
  | String c _ => Str.is_space c
  | EmptyString => false
  end.

End Grammar.

(** ** Vocabulary of the statements about the low-engagement threshold *)
Module Threshold.

Import Num.

(** The numbers 0 to 1000, the most [findAll(1000, 0)] can return, each
    with the double that [length] gives for it. *)
Definition thresholdTable : list (Z * number) :=
  map (fun n => (Z.of_nat n, of_nat n)) (seq 0 1001).

(** [k > n * 0.3] on the doubles agrees with [3 n < 10 k] on the integers
    for every pair of the table. *)
Definition thresholdAgrees (table : list (Z * number)) : bool :=
  forallb (fun nf =>
             let t := mul (snd nf) lit_0_3 in
             forallb (fun kf => Bool.eqb (gt (snd kf) t) (3 * fst nf <? 10 * fst kf)%Z) table)
          table.

End Threshold.

(** ** Collecting posts

    [reddit.service.ts], the endpoints of [reddit.controller.ts] that read
    their bounds with [parseInt], and the writes of
    [reddit-post.repository.ts].  The methods run one at a time, so they
    are written as functions on the state of the service and of the
    outside world. *)
Module Reddit.

Import Num.

(** [Math.ceil] *)
Definition Math_ceil (x : number) : number :=
  match x with
  | S754_finite s m e =>
      if 0 <=? e then x
      else
        let d := Z.pow 2 (- e) in
        let v := if s then Z.neg m else Z.pos m in
        let n := - ((- v) / d) in
        binary_normalize prec emax n 0 s
  | _ => x
  end.

(** The integral part of a finite number (zero for NaN). *)
Definition truncate (x : number) : Z :=
  match x with
  | S754_finite s m e =>
      let v := if 0 <=? e then Z.pos m * Z.pow 2 e else Z.pos m / Z.pow 2 (- e) in
      if s then - v else v
  | _ => 0
  end.

(** [array.splice(start)]: what is left in the array.  A negative [start]
    counts from the end. *)
Definition splice {A : Type} (start : number) (l : list A) : list A :=
  let len := Z.of_nat (List.length l) in
  let actualStart :=
    match start with
    | S754_infinity true => 0
    | S754_infinity false => len
    | _ =>
        let relativeStart := truncate start in
        if relativeStart <? 0 then Z.max (len + relativeStart) 0
        else Z.min relativeStart len
    end in
  firstn (Z.to_nat actualStart) l.

Local Open Scope string_scope.

(** A query parameter or cursor used as a condition: [undefined], [null]
    and the empty string are falsy.  [None] stands for [undefined] and
    [null] alike. *)
Definition truthy (s : option string) : bool :=
  match s with
  | Some (String _ _) => true
  | _ => false
  end.

(** [`${s}`] *)
Definition shown (s : option string) : string :=
  match s with
  | Some x => x
  | None => "undefined"
  end.

(** [s || d] *)
Definition orElse (s : option string) (d : string) : string :=
  match s with
  | Some (String c r) => String c r
  | _ => d
  end.

Definition quoted (s : string) : string :=
  String Json.dquote s ++ String Json.dquote "".

(** *** [parseInt(s, 10)]

    Leading white space is skipped, one sign is read, then the decimal
    digits up to the first other character; without a digit the result is
    NaN.  The radix being given as 10, a prefix [0x] is not special.  Up
    to 20 significant digits the result is the double nearest to the
    integer read.  Of the white space that [parseInt] skips the model has
    the ASCII characters; the statements about it are for ASCII texts. *)
Definition is_digit (c : ascii) : bool :=
  let n := nat_of_ascii c in (Nat.leb 48 n && Nat.leb n 57)%bool.

Definition digit_value (c : ascii) : Z := Z.of_nat (nat_of_ascii c - 48).

Fixpoint leading_digits (s : string) (acc : option Z) : option Z :=
  match s with
  | String c r =>
      if is_digit c
      then leading_digits r
             (Some (10 * match acc with Some a => a | None => 0 end + digit_value c))
      else acc
  | EmptyString => acc
  end.

Definition signed (s : string) : bool * string :=
  match s with
  | String "-" r => (true, r)
  | String "+" r => (false, r)
  | _ => (false, s)
  end.

Definition parseInt (s : string) : number :=
  let '(negative, body) := signed (Str.skip_spaces s) in
  match leading_digits body None with
  | None => NaN
  | Some n =>
      if negative then (if (n =? 0)%Z then S754_zero true else of_Z (- n))
      else of_Z n
  end.

(** *** The listing Reddit answers with

    [response.data.data] of a listing: the fields of [children[i].data]
    that the service reads, and the cursor [after]. *)
Record Child : Type := mkChild {
  child_id : string;
  child_title : string;
  child_author : string;
  child_subreddit : string;
  child_score : number;
  child_num_comments : number;
  child_created_utc : number;
  child_permalink : string;
  child_url : option string;
  child_selftext : option string
}.

Record Page : Type := mkPage {
  children : list Child;
  page_after : option string
}.

(** A GET of the axios instance: the path and the query parameters, which
    [URLSearchParams] or axios serialise. *)
Record Request : Type := mkRequest {
  path : string;
  params : list (string * string)
}.

Record RedditSearchResponse : Type := mkResponse {
  posts : list RedditPost;
  total : nat;
  after : option string
}.

Record DatabaseResult : Type := mkDatabaseResult {
  saved : nat;
  skipped : nat
}.

Record SavedResponse : Type := mkSavedResponse {
  searchResult : RedditSearchResponse;
  databaseResult : option DatabaseResult
}.

(** What [newPost.save()] ends in: the stored document, or an error with
    its [code] (if it has one). *)
Inductive SaveOutcome : Type :=
  | Stored (doc : RedditPost)
  | Rejected (code : option Z) (error : JsError).

Inductive Severity : Type := SDebug | SLog | SError.

Inductive Event : Type :=
  | Logged (lvl : Severity) (msg : string)
  | Failure (msg : string) (error : JsError)
  | Stamped (t : Z)
  | Waited (ms : Z)
  | Requested (req : Request)
  | Saving (postData : RedditPost).

(** The outside world.  Time is in integer milliseconds, as [Date.now()]
    gives it.  [passes n] is the time that goes by until the outside
    world's [n]-th answer (a clock reading, a response, a save);
    [timer n ms] is the time the [n]-th [setTimeout(resolve, ms)] takes to
    fire; [reddit n req] answers the [n]-th GET and [store n postData] the
    [n]-th save. *)
Record Env : Type := mkEnv {
  passes : nat -> Z;
  timer : nat -> Z -> Z;
  reddit : nat -> Request -> Result Page;
  store : nat -> RedditPost -> SaveOutcome
}.

(** The field [lastRequestTime] of the service, the current time, what has
    happened so far, and how many answers of each kind were given. *)
Record World : Type := mkWorld {
  lastRequestTime : Z;
  now : Z;
  history : list Event;
  answers : nat;
  waits : nat;
  gets : nat;
  saves : nat
}.

(** A freshly constructed service: [lastRequestTime = 0]. *)
Definition started (t : Z) : World := mkWorld 0 t [] 0 0 0 0.

Definition record (ev : Event) (w : World) : World :=
  mkWorld (lastRequestTime w) (now w) (history w ++ [ev])%list
          (answers w) (waits w) (gets w) (saves w).

Definition elapse (env : Env) (w : World) : World :=
  mkWorld (lastRequestTime w) (now w + passes env (answers w)) (history w)
          (S (answers w)) (waits w) (gets w) (saves w).

(** [Date.now()] *)
Definition Date_now (env : Env) (w : World) : World * Z :=
  let w' := elapse env w in (w', now w').

(** [await new Promise((resolve) => setTimeout(resolve, ms))] *)
Definition sleep (env : Env) (ms : Z) (w : World) : World :=
  mkWorld (lastRequestTime w) (now w + timer env (waits w) ms)
          (history w ++ [Waited ms])%list
          (answers w) (S (waits w)) (gets w) (saves w).

Definition setLastRequestTime (t : Z) (w : World) : World :=
  mkWorld t (now w) (history w ++ [Stamped t])%list
          (answers w) (waits w) (gets w) (saves w).

(** [await this.axiosInstance.get(...)] and [response.data.data] *)
Definition get (env : Env) (req : Request) (w : World) : World * Result Page :=
  let w' := elapse env w in
  (mkWorld (lastRequestTime w') (now w') (history w' ++ [Requested req])%list
           (answers w') (waits w') (S (gets w')) (saves w'),
   reddit env (gets w) req).

(** [await newPost.save()] *)
Definition save (env : Env) (postData : RedditPost) (w : World) : World * SaveOutcome :=
  let w' := elapse env w in
  (mkWorld (lastRequestTime w') (now w') (history w' ++ [Saving postData])%list
           (answers w') (waits w') (gets w') (S (saves w')),
   store env (saves w) postData).

(** *** [RedditPostRepository] *)
Module RedditPostRepository.

(** [error.code === 11000] *)
Definition duplicateKey (code : option Z) : bool :=
  match code with
  | Some c => (c =? 11000)%Z
  | None => false
  end.

Definition create (env : Env) (postData : RedditPost) (w : World)
  : World * Result RedditPost :=
  match save env postData w with
  | (w1, Stored doc) => (w1, Ok doc)
  | (w1, Rejected code error) =>
      if duplicateKey code
      then (w1, Err (mkError "Error" ("Post with id " ++ id postData ++ " already exists")))
      else (w1, Err error)
  end.

(** The loop of [createMany], from the counters reached so far. *)
Fixpoint createMany_from (env : Env) (postsData : list RedditPost)
    (created skipped : nat) (w : World) : World * Result (nat * nat) :=
  match postsData with
  | [] => (w, Ok (created, skipped))
  | postData :: rest =>
      match create env postData w with
      | (w1, Ok _) => createMany_from env rest (S created) skipped w1
      | (w1, Err error) =>
          if Str.includes (err_message error) "already exists"
          then createMany_from env rest created (S skipped) w1
          else (w1, Err error)
      end
  end.

Definition createMany (env : Env) (postsData : list RedditPost) (w : World)
  : World * Result (nat * nat) :=
  createMany_from env postsData 0 0 w.

End RedditPostRepository.

(** *** [RedditService] *)
Module RedditService.

Definition requestDelay : Z := 1000.

Definition ensureRateLimit (env : Env) (w : World) : World :=
  let '(w1, now1) := Date_now env w in
  let timeSinceLastRequest := now1 - lastRequestTime w1 in
  let w2 :=
    if (timeSinceLastRequest <? requestDelay)%Z then
      let waitTime := requestDelay - timeSinceLastRequest in
      sleep env waitTime
        (record (Logged SDebug ("Rate limiting: waiting "
                                ++ Number_toString (of_Z waitTime) ++ "ms")) w1)
    else w1 in
  let '(w3, now2) := Date_now env w2 in
  setLastRequestTime now2 w3.

(** The post made of [child.data]. *)
Definition toPost (child : Child) : RedditPost :=
  let permalink := "https://reddit.com" ++ child_permalink child in
  mkPost (child_id child) (child_title child) (child_author child)
         (child_subreddit child) (child_score child) (child_num_comments child)
         (child_created_utc child)
         permalink
         (match child_url child with
          | Some url => if String.eqb url permalink then None else Some url
          | None => None
          end)
         (Some (orElse (child_selftext child) "")).

(** The request of one batch of [searchAllPosts]. *)
Definition searchRequest (query : string) (subreddit : option string)
    (after : option string) : Request :=
  mkRequest
    (if truthy subreddit then "/r/" ++ shown subreddit ++ "/search.json"
     else "/search.json")
    ([("q", query); ("limit", "100"); ("sort", "relevance"); ("t", "all")]
     ++ (if truthy after then [("after", shown after)] else []))%list.

(** The request of one batch of [getAllSubredditPosts]. *)
Definition listingRequest (subreddit sort : string) (after : option string) : Request :=
  mkRequest
    ("/r/" ++ subreddit ++ "/" ++ sort ++ ".json")
    ([("limit", "100")] ++ (if truthy after then [("after", shown after)] else []))%list.

(** The [while] loop of [searchAllPosts] and of [getAllSubredditPosts],
    which differ in the request ([request]) and in one log line
    ([origin]).  The loop variables are [allPosts], [after] and
    [totalRequests]; [fuel] bounds the number of iterations. *)
Fixpoint batches (fuel : nat) (env : Env) (request : option string -> Request)
    (origin : string) (maxResults maxRequests : number)
    (allPosts : list RedditPost) (after : option string) (totalRequests : nat)
    (w : World) : option (World * Result (list RedditPost * option string * nat)) :=
  if (lt (of_nat (List.length allPosts)) maxResults
      && lt (of_nat totalRequests) maxRequests)%bool
  then
    match fuel with
    | O => None
    | S fuel' =>
        let w1 := ensureRateLimit env w in
        let w2 :=
          record (Logged SDebug ("Fetching batch "
                                 ++ Service.nat_toString (totalRequests + 1)
                                 ++ origin ++ ", after: " ++ orElse after "none")) w1 in
        match get env (request after) w2 with
        | (w3, Err error) =>
            Some (record (Failure ("Error in batch "
                                   ++ Service.nat_toString (totalRequests + 1) ++ ":")
                                  error) w3,
                  Err error)
        | (w3, Ok page) =>
            let batchPosts := map toPost (children page) in
            let allPosts' := (allPosts ++ batchPosts)%list in
            let after' := page_after page in
            let totalRequests' := S totalRequests in
            let w4 :=
              record (Logged SDebug ("Batch " ++ Service.nat_toString totalRequests'
                                     ++ ": found "
                                     ++ Service.nat_toString (List.length batchPosts)
                                     ++ " posts, total: "
                                     ++ Service.nat_toString (List.length allPosts'))) w3 in
            if (negb (truthy after') || Nat.eqb (List.length batchPosts) 0)%bool then
              Some (record (Logged SLog "No more results available") w4,
                    Ok (allPosts', after', totalRequests'))
            else if ge (of_nat (List.length allPosts')) maxResults then
              Some (record (Logged SLog ("Reached maximum results limit: "
                                         ++ Number_toString maxResults)) w4,
                    Ok (splice maxResults allPosts', after', totalRequests'))
            else
              batches fuel' env request origin maxResults maxRequests
                      allPosts' after' totalRequests' w4
        end
    end
  else Some (w, Ok (allPosts, after, totalRequests)).

Definition searchAllPosts (fuel : nat) (env : Env) (query : string)
    (subreddit : option string) (maxResults : number) (w : World)
  : option (World * Result RedditSearchResponse) :=
  let w0 :=
    record (Logged SLog ("Starting comprehensive search for: " ++ quoted query
                         ++ (if truthy subreddit then " in r/" ++ shown subreddit else "")
                         ++ " (max: " ++ Number_toString maxResults ++ ")")) w in
  let maxRequests := Math_ceil (div maxResults (of_Z 100)) in
  match batches fuel env (searchRequest query subreddit) "" maxResults maxRequests
                [] None 0 w0 with
  | None => None
  | Some (w1, Err error) => Some (w1, Err error)
  | Some (w1, Ok (allPosts, after, totalRequests)) =>
      Some (record (Logged SLog ("Comprehensive search completed: found "
                                 ++ Service.nat_toString (List.length allPosts)
                                 ++ " posts in " ++ Service.nat_toString totalRequests
                                 ++ " requests")) w1,
            Ok (mkResponse allPosts (List.length allPosts) after))
  end.

Definition getAllSubredditPosts (fuel : nat) (env : Env) (subreddit sort : string)
    (maxResults : number) (w : World)
  : option (World * Result RedditSearchResponse) :=
  let w0 :=
    record (Logged SLog ("Starting comprehensive fetch from r/" ++ subreddit
                         ++ " (" ++ sort ++ ", max: "
                         ++ Number_toString maxResults ++ ")")) w in
  let maxRequests := Math_ceil (div maxResults (of_Z 100)) in
  match batches fuel env (listingRequest subreddit sort) (" from r/" ++ subreddit)
                maxResults maxRequests [] None 0 w0 with
  | None => None
  | Some (w1, Err error) => Some (w1, Err error)
  | Some (w1, Ok (allPosts, after, totalRequests)) =>
      Some (record (Logged SLog ("Comprehensive fetch completed: found "
                                 ++ Service.nat_toString (List.length allPosts)
                                 ++ " posts in " ++ Service.nat_toString totalRequests
                                 ++ " requests")) w1,
            Ok (mkResponse allPosts (List.length allPosts) after))
  end.

Definition savePostsToDatabase (env : Env) (posts : list RedditPost) (w : World)
  : World * Result DatabaseResult :=
  let w0 :=
    record (Logged SLog ("Saving " ++ Service.nat_toString (List.length posts)
                         ++ " posts to database")) w in
  match RedditPostRepository.createMany env posts w0 with
  | (w1, Ok (created, skipped)) =>
      (record (Logged SLog ("Saved " ++ Service.nat_toString created
                            ++ " new posts, skipped " ++ Service.nat_toString skipped
                            ++ " duplicates")) w1,
       Ok (mkDatabaseResult created skipped))
  | (w1, Err error) =>
      (record (Failure "Error saving posts to database:" error) w1, Err error)
  end.

(** The second half of [searchAndSavePosts] and of
    [getSubredditAndSavePosts]. *)
Definition andSave (env : Env) (saveToDatabase : bool)
    (found : option (World * Result RedditSearchResponse))
  : option (World * Result SavedResponse) :=
  match found with
  | None => None
  | Some (w1, Err error) => Some (w1, Err error)
  | Some (w1, Ok searchResult) =>
      if (saveToDatabase && Nat.ltb 0 (List.length (posts searchResult)))%bool then
        match savePostsToDatabase env (posts searchResult) w1 with
        | (w2, Ok dbResult) => Some (w2, Ok (mkSavedResponse searchResult (Some dbResult)))
        | (w2, Err error) => Some (w2, Err error)
        end
      else Some (w1, Ok (mkSavedResponse searchResult None))
  end.

Definition searchAndSavePosts (fuel : nat) (env : Env) (query : string)
    (subreddit : option string) (maxResults : number) (saveToDatabase : bool)
    (w : World) : option (World * Result SavedResponse) :=
  andSave env saveToDatabase (searchAllPosts fuel env query subreddit maxResults w).

Definition getSubredditAndSavePosts (fuel : nat) (env : Env) (subreddit sort : string)
    (maxResults : number) (saveToDatabase : bool)
    (w : World) : option (World * Result SavedResponse) :=
  andSave env saveToDatabase (getAllSubredditPosts fuel env subreddit sort maxResults w).

End RedditService.

(** *** [RedditController]

    A query parameter is a string or absent. *)
Module RedditController.

Definition required (what : string) : JsError := mkError "Error" what.

(** [maxResults ? parseInt(maxResults, 10) : 1000] and the two checks on
    it. *)
Definition maxResultsNumber (maxResults : option string) : Result number :=
  let n := if truthy maxResults then parseInt (shown maxResults) else of_Z 1000 in
  if gt n (of_Z 10000) then Err (mkError "Error" "Max results cannot exceed 10000")
  else if lt n (of_Z 1) then Err (mkError "Error" "Max results must be at least 1")
  else Ok n.

(** [saveToDatabase !== 'false'] *)
Definition shouldSave (saveToDatabase : option string) : bool :=
  match saveToDatabase with
  | Some s => negb (String.eqb s "false")
  | None => true
  end.

Definition searchAllPosts (fuel : nat) (env : Env)
    (query subreddit maxResults : option string) (w : World)
  : option (World * Result RedditSearchResponse) :=
  let w0 :=
    record (Logged SLog ("Comprehensive search request: query=" ++ quoted (shown query)
                         ++ ", subreddit=" ++ quoted (shown subreddit)
                         ++ ", max=" ++ quoted (shown maxResults))) w in
  if negb (truthy query)
  then Some (w0, Err (required ("Query parameter " ++ quoted "q" ++ " is required")))
  else
    match maxResultsNumber maxResults with
    | Err error => Some (w0, Err error)
    | Ok n => RedditService.searchAllPosts fuel env (shown query) subreddit n w0
    end.

Definition getAllSubredditPosts (fuel : nat) (env : Env)
    (subreddit sort maxResults : option string) (w : World)
  : option (World * Result RedditSearchResponse) :=
  let w0 :=
    record (Logged SLog ("Comprehensive subreddit request: subreddit="
                         ++ quoted (shown subreddit)
                         ++ ", sort=" ++ quoted (shown sort)
                         ++ ", max=" ++ quoted (shown maxResults))) w in
  if negb (truthy subreddit)
  then Some (w0, Err (required "Subreddit parameter is required"))
  else
    match maxResultsNumber maxResults with
    | Err error => Some (w0, Err error)
    | Ok n =>
        RedditService.getAllSubredditPosts fuel env (shown subreddit)
                                           (orElse sort "hot") n w0
    end.

Definition searchAndSavePosts (fuel : nat) (env : Env)
    (query subreddit maxResults saveToDatabase : option string) (w : World)
  : option (World * Result SavedResponse) :=
  let w0 :=
    record (Logged SLog ("Search and save request: query=" ++ quoted (shown query)
                         ++ ", subreddit=" ++ quoted (shown subreddit)
                         ++ ", max=" ++ quoted (shown maxResults)
                         ++ ", save=" ++ quoted (shown saveToDatabase))) w in
  if negb (truthy query)
  then Some (w0, Err (required ("Query parameter " ++ quoted "q" ++ " is required")))
  else
    match maxResultsNumber maxResults with
    | Err error => Some (w0, Err error)
    | Ok n =>
        RedditService.searchAndSavePosts fuel env (shown query) subreddit n
                                         (shouldSave saveToDatabase) w0
    end.

Definition getSubredditAndSavePosts (fuel : nat) (env : Env)
    (subreddit sort maxResults saveToDatabase : option string) (w : World)
  : option (World * Result SavedResponse) :=
  let w0 :=
    record (Logged SLog ("Subreddit and save request: subreddit="
                         ++ quoted (shown subreddit)
                         ++ ", sort=" ++ quoted (shown sort)
                         ++ ", max=" ++ quoted (shown maxResults)
                         ++ ", save=" ++ quoted (shown saveToDatabase))) w in
  if negb (truthy subreddit)
  then Some (w0, Err (required "Subreddit parameter is required"))
  else
    match maxResultsNumber maxResults with
    | Err error => Some (w0, Err error)
    | Ok n =>
        RedditService.getSubredditAndSavePosts fuel env (shown subreddit)
                                               (orElse sort "hot") n
                                               (shouldSave saveToDatabase) w0
    end.

End RedditController.

End Reddit.

(** ** Vocabulary of the statements about collecting posts *)
Module Collecting.

Import Num Reddit.

(** The times stored in [lastRequestTime], in order. *)
Fixpoint stamps (h : list Event) : list Z :=
  match h with
  | [] => []
  | Stamped t :: r => t :: stamps r
  | _ :: r => stamps r
  end.

(** Each time is at least [requestDelay] after the one before it. *)
Fixpoint spaced (l : list Z) : bool :=
  match l with
  | a :: r =>
      match r with
      | b :: _ => (a + RedditService.requestDelay <=? b) && spaced r
      | [] => true
      end
  | [] => true
  end.

(** The clock does not run backwards and no timer fires early. *)
Definition honest (env : Env) : Prop :=
  (forall n, 0 <= passes env n) /\ (forall n ms, ms <= timer env n ms).

(** The state a service is in between two of its methods: the stored
    times are spaced, the field holds the last of them, which is not in
    the future, and one time was stored for each request sent. *)
Definition paced (w : World) : Prop :=
  spaced (stamps (history w)) = true
  /\ last (stamps (history w)) 0 = lastRequestTime w
  /\ lastRequestTime w <= now w
  /\ List.length (stamps (history w)) = gets w.

(** The GETs sent, in order. *)
Fixpoint requests (h : list Event) : list Request :=
  match h with
  | [] => []
  | Requested req :: r => req :: requests r
  | _ :: r => requests r
  end.

(** The posts handed to [save], in order. *)
Fixpoint savings (h : list Event) : list RedditPost :=
  match h with
  | [] => []
  | Saving p :: r => p :: savings r
  | _ :: r => savings r
  end.

(** The integer [parseInt] reads, if it reads one. *)
Definition integerRead (s : string) : option Z :=
  let '(negative, body) := signed (Str.skip_spaces s) in
  match leading_digits body None with
  | None => None
  | Some n => Some (if negative then - n else n)
  end.

(** The same double, bit for bit. *)
Definition same (x y : number) : bool :=
  match x, y with
  | S754_zero s, S754_zero s' => Bool.eqb s s'
  | S754_infinity s, S754_infinity s' => Bool.eqb s s'
  | S754_nan, S754_nan => true
  | S754_finite s m e, S754_finite s' m' e' => Bool.eqb s s' && Pos.eqb m m' && Z.eqb e e'
  | _, _ => false
  end.

(** The bounds 1 to 10000 that the endpoints let through. *)
Definition ceilTable : list Z := map Z.of_nat (seq 1 (Z.to_nat 10000)).

(** [Math.ceil(m / 100)] on doubles is the integer ceiling, for every
    bound of the table. *)
Definition ceilAgrees (table : list Z) : bool :=
  forallb (fun m => same (Math_ceil (div (of_Z m) (of_Z 100))) (of_Z ((m + 99) / 100)))
          table.

(** A save that [createMany] does not survive: it is rejected, not as a
    duplicate key, and without the words [already exists] in its
    message. *)
Definition fatal (o : SaveOutcome) : bool :=
  match o with
  | Stored _ => false
  | Rejected code error =>
      negb (RedditPostRepository.duplicateKey code)
      && negb (Str.includes (err_message error) "already exists")
  end.

Definition stored (o : SaveOutcome) : bool :=
  match o with
  | Stored _ => true
  | Rejected _ _ => false
  end.

(** The outcomes of saving [postsData] one after the other, the first of
    them being the [n]-th save. *)
Fixpoint outcomes (env : Env) (n : nat) (postsData : list RedditPost) : list SaveOutcome :=
  match postsData with
  | [] => []
  | postData :: rest => store env n postData :: outcomes env (S n) rest
  end.

(** The first [k] pages of a listing as it is served when the first
    request carries the cursor [after] and every later one the cursor of
    the page before it, the first request being the [n]-th GET.  The
    listing stops at a request that fails. *)
Fixpoint listing (env : Env) (request : option string -> Request) (n : nat)
    (after : option string) (k : nat) : list Page :=
  match k with
  | O => []
  | S k' =>
      match reddit env n (request after) with
      | Ok page => page :: listing env request (S n) (page_after page) k'
      | Err _ => []
      end
  end.

End Collecting.

(** ** Sample data used by the checks below *)

Import Json.
Import Service.
Local Open Scope string_scope.

(** Writes a JSON text with apostrophes standing for the double quotes. *)
Fixpoint dq (s : string) : string :=
  match s with
  | EmptyString => EmptyString
  | String c r => String (if Ascii.eqb c "'" then dquote else c) (dq r)
  end.

Definition samplePost (sub ttl : string) (sc : Z) : RedditPost :=
  mkPost "t3_sample" ttl "someone" sub (of_Z sc) (of_Z 7) (of_Z 1700000000)
         "https://reddit.example/sample" None None.

(** Three posts: two in [saas], one in [startups], scores 100, 200, 150. *)
Definition samplePosts : list RedditPost :=
  [samplePost "saas" "Invoicing is a problem for freelancers" 100;
   samplePost "startups" "Show HN style launch thread" 200;
   samplePost "saas" "Churn dashboards" 150].

(** An environment whose clock advances one second per reading, whose
    repository always returns [samplePosts] and whose analyzer answers the
    [n]-th call with the [n]-th entry of [responses], rejecting later
    calls. *)
Definition sampleEnv (responses : list (Result string)) : Env :=
  mkEnv (fun n => (1000 * Z.of_nat n)%Z)
        (fun _ _ => of_Z 0)
        (fun _ => Ok samplePosts)
        (fun n _ => nth n responses (Err (mkError "Error" "fetch failed")))
        (fun _ => true).

(** The same, with a clock that reads 0, 1 and 2 seconds and then jumps
    past the five minutes. *)
Definition cooldownEnv (responses : list (Result string)) : Env :=
  mkEnv (fun n => if Nat.ltb n 3 then (1000 * Z.of_nat n)%Z else 400000%Z)
        (fun _ _ => of_Z 0)
        (fun _ => Ok samplePosts)
        (fun n _ => nth n responses (Err (mkError "Error" "fetch failed")))
        (fun _ => true).

(** The same, with every cutoff computed after the sample posts were
    created. *)
Definition staleEnv : Env :=
  mkEnv (fun n => (1000 * Z.of_nat n)%Z)
        (fun _ _ => of_Z 1800000000)
        (fun _ => Ok samplePosts)
        (fun _ _ => Err (mkError "Error" "fetch failed"))
        (fun n => Nat.even n).

(** An environment in which the problem path is resumed first, once, and
    then waits for its answer while the trend path uses up its three
    attempts: trend prompts are answered in prose, problem prompts with an
    empty JSON array. *)
Definition raceEnv : Env :=
  mkEnv (fun n => (1000 * Z.of_nat n)%Z)
        (fun _ _ => of_Z 0)
        (fun _ => Ok samplePosts)
        (fun _ p => match p with
                    | TrendPrompt _ => Ok "Sorry, I cannot analyze these posts."
                    | ProblemPrompt _ => Ok "[]"
                    end)
        (fun n => negb (Nat.eqb n 0)).

(** Twenty posts, fifteen of which mention a keyword in the title. *)
Definition twentyPosts : list RedditPost :=
  (repeat (samplePost "saas" "Need HELP with a broken export" 12) 15
   ++ repeat (samplePost "saas" "Weekly showcase thread" 40) 5)%list.


Definition sampleTrendPrompt : Prompt :=
  TrendPrompt
    (map (fun post =>
            mkTrendDatum (title post) (subreddit post) (score post) (num_comments post)
                         (mul (created_utc post) (of_Z 1000)) EmptyString)
         samplePosts).

Definition sampleProblemPrompt : Prompt :=
  ProblemPrompt
    (map (fun post =>
            mkProblemDatum (title post) (subreddit post) (score post) (num_comments post)
                           EmptyString)
         samplePosts).

Definition rejection : Result string := Err (mkError "Error" "503 Service Unavailable").

Definition prose : Result string := Ok "Sorry, I cannot analyze these posts.".

Definition trendsJson : Result string :=
  Ok (dq "[{'trend':'AI note taking','growthPercentage':47,'confidence':85}]").

Definition trendsValue : JsValue :=
  VArr [VObj [("trend", VStr "AI note taking");
              ("growthPercentage", VNum (of_Z 47));
              ("confidence", VNum (of_Z 85))]].


(** A record whose [created_utc] is in microseconds. *)
Definition microsecondPost : RedditPost :=
  mkPost "t3_micro" "Imported from an archive" "someone" "saas" (of_Z 10) (of_Z 1)
         (of_Z 1700000000000000) "https://reddit.example/micro" None None.

(** A world in which the breaker was opened at time 0 by a third failed
    call, one clock reading ago. *)
Definition coolingWorld : World := mkWorld true 300000 [] 1 0 0 3 0.

(** An environment whose repository rejects every query. *)
Definition downEnv : Env :=
  mkEnv (fun n => (1000 * Z.of_nat n)%Z)
        (fun _ _ => of_Z 0)
        (fun _ => Err (mkError "MongoNetworkError" "connection refused"))
        (fun _ _ => Ok "[]")
        (fun _ => true).

(** A listing of two full pages, the second of which is the last, served
    by a clock that advances 3 ms per answer and timers that fire on
    time; the second of the saves hits a duplicate key. *)
Definition sampleChild : Reddit.Child :=
  Reddit.mkChild "a1" "Looking for a CRM" "alice" "saas" (Num.of_Z 12) (Num.of_Z 3)
                 (Num.of_Z 1700000000) "/r/saas/comments/a1/looking_for_a_crm/"
                 (Some "https://example.com/crm") None.

Definition fullPage (cursor : option string) : Reddit.Page :=
  Reddit.mkPage (repeat sampleChild 100) cursor.

Definition duplicateKeyError : JsError :=
  mkError "MongoServerError" "E11000 duplicate key error collection: reddit_posts".

Definition redditEnv : Reddit.Env :=
  Reddit.mkEnv
    (fun _ => 3)
    (fun _ ms => ms)
    (fun n _ => nth n [Ok (fullPage (Some "t3_a1")); Ok (fullPage None)]
                    (Err (mkError "AxiosError" "Request failed with status code 429")))
    (fun n postData => nth n [Reddit.Stored postData;
                              Reddit.Rejected (Some 11000) duplicateKeyError]
                           (Reddit.Stored postData)).

(** A database that is lost at the second save. *)
Definition lostEnv : Reddit.Env :=
  Reddit.mkEnv
    (fun _ => 3)
    (fun _ ms => ms)
    (fun n _ => nth n [Ok (fullPage None)]
                    (Err (mkError "AxiosError" "Request failed with status code 429")))
    (fun n postData => nth n [Reddit.Stored postData;
                              Reddit.Rejected None
                                (mkError "MongoNetworkError" "connection refused")]
                           (Reddit.Stored postData)).

(** * Checks of the runtime model *)

Example parse_empty_array : JSON_parse "[]" = Some (VArr []).
Proof. vm_compute. reflexivity. Qed.

Example parse_rejects_prose : JSON_parse "oops" = None.
Proof. vm_compute. reflexivity. Qed.

Example parse_fenced_document :
  JSON_parse (Str.strip_fence ("```json" ++ nl
                               ++ dq "[{'a': 1.5, 'b':[null,true, 'x\nA']}]" ++ nl ++ "```"))
  = Some (VArr [VObj [("a", VNum (div (of_Z 3) (of_Z 2)));
                      ("b", VArr [VNull; VBool true; VStr ("x" ++ nl ++ "A")])]]).
Proof. vm_compute. reflexivity. Qed.

Example parse_object : JSON_parse "{}" = Some (VObj []).
Proof. vm_compute. reflexivity. Qed.

Example parse_rejects_trailing_comma : JSON_parse "[1,]" = None.
Proof. vm_compute. reflexivity. Qed.

Example parse_number_with_exponent : JSON_parse " -0.5e1 " = Some (VNum (of_Z (-5))).
Proof. vm_compute. reflexivity. Qed.

Example parse_rejects_leading_zero : JSON_parse "01" = None.
Proof. vm_compute. reflexivity. Qed.

Example parse_rejects_empty_text : JSON_parse "" = None.
Proof. vm_compute. reflexivity. Qed.

Example parse_repeated_key :
  JSON_parse (dq "{'a':1,'a':2}") = Some (VObj [("a", VNum (of_Z 2))]).
Proof. vm_compute. reflexivity. Qed.

Example strip_fence_cases :
  Str.strip_fence "```json```" = "" /\
  Str.strip_fence "``````" = "```" /\
  Str.strip_fence "[]```" = "[]" /\
  Str.strip_fence ("```json  " ++ nl ++ "[]") = "[]".
Proof. vm_compute. auto. Qed.

Example round_two_thirds :
  to_Z (Math_round (mul (div (of_Z 2) (of_Z 3)) (of_Z 100))) = Some 67%Z.
Proof. vm_compute. reflexivity. Qed.

Example round_half_up :
  to_Z (Math_round (div (of_Z 5) (of_Z 2))) = Some 3%Z /\
  Math_round (div (of_Z (-1)) (of_Z 2)) = S754_zero true /\
  to_Z (Math_round (div (of_Z (-5)) (of_Z 2))) = Some (-2)%Z.
Proof. vm_compute. auto. Qed.

Example literal_three_tenths : div (of_Z 3) (of_Z 10) = lit_0_3.
Proof. vm_compute. reflexivity. Qed.

Example toString_cases :
  Number_toString (of_Z 67) = "67" /\
  Number_toString (div (of_Z 1) (of_Z 10)) = "0.1" /\
  Number_toString (mul (div (of_Z 2) (of_Z 3)) (of_Z 100)) = "66.66666666666666" /\
  Number_toString (of_Z (10 ^ 21)) = "1e+21" /\
  Number_toString (of_Z 123456789012345678901) = "123456789012345680000" /\
  Number_toString (div (of_Z 1) (of_Z 10000000)) = "1e-7" /\
  Number_toString (div (of_Z (-1)) (of_Z 1000000)) = "-0.000001" /\
  Number_toString (S754_finite false 1 (-1074)) = "5e-324" /\
  Number_toString (S754_finite false (2 ^ 53 - 1) 971) = "1.7976931348623157e+308" /\
  Number_toString (add (div (of_Z 1) (of_Z 10)) (div (of_Z 2) (of_Z 10)))
    = "0.30000000000000004" /\
  Number_toString (div (of_Z 123456) (of_Z 1000)) = "123.456".
Proof. vm_compute. repeat split. Qed.

(** * Reasoning about runs *)

Local Open Scope nat_scope.

Arguments Number_toString : simpl never.
Arguments nat_toString : simpl never.
Arguments String.append : simpl never.
Arguments FallbackTrend.getFallbackTrendAnalysis : simpl never.
Arguments FallbackProblem.getFallbackProblemAnalysis : simpl never.
Arguments JSON_parse : simpl never.
Arguments Str.strip_fence : simpl never.
Arguments trendData : simpl never.
Arguments problemData : simpl never.
Arguments firstn : simpl never.
Arguments Z.mul : simpl never.
Arguments Z.add : simpl never.
Arguments Z.ltb : simpl never.

Lemma observable_app (a b : list Event) :
  observable (a ++ b) = (observable a ++ observable b)%list.
Proof. apply filter_app. Qed.

Section Runs.

Variable env : Env.

Lemma run_bind {A B : Type} (p : Prog A) (f : A -> Prog B) (w : World) :
  run env (bind p f) w =
  match run env p w with
  | (w', Ok a) => run env (f a) w'
  | (w', Err e) => (w', Err e)
  end.
Proof.
  revert w. induction p as [a | e | X e k IH | X e k IH]; intro w; simpl.
  - reflexivity.
  - reflexivity.
  - destruct (sync_step env e w) as [w' x]. apply IH.
  - destruct (io_step env e w) as [w' x]. apply IH.
Qed.

Lemma run_try_catch {A : Type} (p : Prog A) (h : JsError -> Prog A) (w : World) :
  run env (try_catch p h) w =
  match run env p w with
  | (w', Ok a) => (w', Ok a)
  | (w', Err e) => run env (h e) w'
  end.
Proof.
  revert w. induction p as [a | e | X e k IH | X e k IH]; intro w; simpl.
  - reflexivity.
  - reflexivity.
  - destruct (sync_step env e w) as [w' x]. apply IH.
  - destruct (io_step env e w) as [w' x]. apply IH.
Qed.

(** The breaker check reads the clock once when the flag is set, and not
    at all otherwise. *)
Lemma run_breakerBlocks (w : World) :
  run env breakerBlocks w =
  if circuitBreakerOpen w
  then (tick w, Ok (clock env (clockReads w) <? circuitBreakerResetTime w)%Z)
  else (w, Ok false).
Proof.
  unfold breakerBlocks. simpl. destruct (circuitBreakerOpen w); reflexivity.
Qed.

Lemma run_openBreaker (w : World) :
  run env openBreaker w = (opened env w, Ok tt).
Proof. reflexivity. Qed.

End Runs.

Section Attempts.

Variable env : Env.

Lemma run_attempt (kind : Kind) (posts : list RedditPost) (limit : nat) (w : World) :
  run env (attempt kind posts limit) w =
  match promptOf kind posts limit with
  | Err e => (w, Err e)
  | Ok prompt =>
      let w1 := called aiModel prompt (record (consoleLine prompt) w) in
      match decoded (gemini env (calls w) prompt) with
      | Ok v => (setOpen false w1, Ok (arrayOrEmpty v))
      | Err e => (w1, Err e)
      end
  end.
Proof.
  destruct kind; unfold attempt, promptOf.
  - unfold trendAttempt. rewrite run_bind.
    destruct (trendData (firstn limit posts)) as [data | e]; simpl; [| reflexivity].
    unfold decoded, decode.
    destruct (gemini env (calls w) (TrendPrompt data)) as [text | e]; simpl; [| reflexivity].
    destruct (JSON_parse (Str.strip_fence text)) as [v |]; reflexivity.
  - unfold problemAttempt, decoded, decode. simpl.
    destruct (gemini env (calls w) (ProblemPrompt _)) as [text | e]; simpl; [| reflexivity].
    destruct (JSON_parse (Str.strip_fence text)) as [v |]; reflexivity.
Qed.

Lemma run_loop_S (kind : Kind) (r a : nat) (posts : list RedditPost) (limit : nat)
    (w : World) :
  run env (loop kind (S r) a posts limit) w =
  match run env (attempt kind posts limit) w with
  | (w', Ok l) => (w', Ok l)
  | (w', Err e) =>
      let w2 := record (warningLine kind a e) w' in
      if Nat.eqb a maxRetries then (exhausted env kind w2, Ok (fallbackOf kind posts))
      else run env (loop kind r (S a) posts limit)
               (record (ETimeout (retryDelay * Z.of_nat a)) w2)
  end.
Proof.
  destruct kind; unfold loop, attempt.
  - cbn [trendLoop]. rewrite run_try_catch.
    destruct (run env (trendAttempt posts limit) w) as [w' [l | e]]; [reflexivity |].
    destruct (Nat.eqb a maxRetries); reflexivity.
  - cbn [problemLoop]. rewrite run_try_catch.
    destruct (run env (problemAttempt posts limit) w) as [w' [l | e]]; [reflexivity |].
    destruct (Nat.eqb a maxRetries); reflexivity.
Qed.

Lemma run_analyze (kind : Kind) (posts : list RedditPost) (limit : nat) (w : World) :
  run env (analyze kind posts limit) w =
  if unblocked env w
  then run env (loop kind maxRetries 1 posts limit) (entered w)
  else (refused kind w, Ok (fallbackOf kind posts)).
Proof.
  unfold unblocked, entered.
  destruct kind; unfold analyze, loop.
  - unfold analyzeWithGemini. rewrite run_bind, run_breakerBlocks.
    destruct (circuitBreakerOpen w); [| reflexivity].
    destruct (clock env (clockReads w) <? circuitBreakerResetTime w)%Z; reflexivity.
  - unfold analyzeProblemsWithGemini. rewrite run_bind, run_breakerBlocks.
    destruct (circuitBreakerOpen w); [| reflexivity].
    destruct (clock env (clockReads w) <? circuitBreakerResetTime w)%Z; reflexivity.
Qed.

Lemma loop_success (kind : Kind) (r a : nat) (posts : list RedditPost) (limit : nat)
    (w : World) (prompt : Prompt) (v : JsValue) :
  promptOf kind posts limit = Ok prompt ->
  decoded (gemini env (calls w) prompt) = Ok v ->
  run env (loop kind (S r) a posts limit) w =
  (setOpen false (called aiModel prompt (record (consoleLine prompt) w)),
   Ok (arrayOrEmpty v)).
Proof.
  intros Hp Hd. rewrite run_loop_S, run_attempt, Hp. cbn zeta. rewrite Hd. reflexivity.
Qed.

Lemma loop_retry (kind : Kind) (r a : nat) (posts : list RedditPost) (limit : nat)
    (w : World) (prompt : Prompt) (e : JsError) :
  promptOf kind posts limit = Ok prompt ->
  decoded (gemini env (calls w) prompt) = Err e ->
  a <> maxRetries ->
  run env (loop kind (S r) a posts limit) w =
  run env (loop kind r (S a) posts limit) (retried kind a e prompt w).
Proof.
  intros Hp Hd Ha. rewrite run_loop_S, run_attempt, Hp. cbn zeta. rewrite Hd.
  cbn zeta. apply Nat.eqb_neq in Ha. rewrite Ha. reflexivity.
Qed.

Lemma loop_exhaustion (kind : Kind) (r : nat) (posts : list RedditPost) (limit : nat)
    (w : World) (prompt : Prompt) (e : JsError) :
  promptOf kind posts limit = Ok prompt ->
  decoded (gemini env (calls w) prompt) = Err e ->
  run env (loop kind (S r) maxRetries posts limit) w =
  (exhausted env kind
     (record (warningLine kind maxRetries e)
        (called aiModel prompt (record (consoleLine prompt) w))),
   Ok (fallbackOf kind posts)).
Proof.
  intros Hp Hd. rewrite run_loop_S, run_attempt, Hp. cbn zeta. rewrite Hd. reflexivity.
Qed.

(** [k] failed attempts in a row, none of them the last one. *)
Lemma loop_retries (kind : Kind) (posts : list RedditPost) (limit : nat) (prompt : Prompt)
    (k : nat) :
  promptOf kind posts limit = Ok prompt ->
  forall (r a : nat) (w : World),
    a + k <= maxRetries ->
    (forall j, j < k -> exists e, decoded (gemini env (j + calls w) prompt) = Err e) ->
    exists w',
      run env (loop kind (k + r) a posts limit) w = run env (loop kind r (a + k) posts limit) w'
      /\ calls w' = k + calls w
      /\ clockReads w' = clockReads w
      /\ circuitBreakerOpen w' = circuitBreakerOpen w
      /\ circuitBreakerResetTime w' = circuitBreakerResetTime w
      /\ observable (trace w') = (observable (trace w) ++ retryEvents prompt a k)%list.
Proof.
  intro Hp. induction k as [| k IH]; intros r a w Hle Hfail.
  - exists w. rewrite Nat.add_0_r. unfold retryEvents. simpl.
    rewrite app_nil_r. repeat split; reflexivity.
  - destruct (Hfail 0 (Nat.lt_0_succ k)) as [e He]. simpl in He.
    destruct (IH r (S a) (retried kind a e prompt w)) as (w' & Hrun & Hc & Hk & Ho & Ht & Htr).
    + lia.
    + intros j Hj. destruct (Hfail (S j)) as [e' He']; [lia |].
      exists e'. simpl. rewrite Nat.add_succ_r. exact He'.
    + exists w'. split.
      * change (S k + r) with (S (k + r)).
        rewrite (loop_retry kind (k + r) a posts limit w prompt e Hp He) by lia.
        rewrite Hrun. f_equal. f_equal. lia.
      * simpl in Hc, Hk, Ho, Ht. repeat split; try assumption.
        -- rewrite Hc. lia.
        -- rewrite Htr. unfold retried, retryEvents. simpl.
           rewrite !observable_app. destruct prompt; simpl;
             rewrite !app_nil_r, <- !app_assoc; reflexivity.
Qed.

End Attempts.

(** * The retry loop *)

Section RetryLoop.

Variable env : Env.

Lemma entered_calls (w : World) : calls (entered w) = calls w.
Proof. unfold entered. destruct (circuitBreakerOpen w); reflexivity. Qed.

Lemma entered_trace (w : World) : trace (entered w) = trace w.
Proof. unfold entered. destruct (circuitBreakerOpen w); reflexivity. Qed.

Lemma entered_open (w : World) : circuitBreakerOpen (entered w) = circuitBreakerOpen w.
Proof. unfold entered. destruct (circuitBreakerOpen w) eqn:E; simpl; auto. Qed.

Lemma entered_resetTime (w : World) :
  circuitBreakerResetTime (entered w) = circuitBreakerResetTime w.
Proof. unfold entered. destruct (circuitBreakerOpen w); reflexivity. Qed.

(** C4. An operation that fails [k < maxRetries] times and then succeeds:
    after the failed attempt number [j] the loop waits [retryDelay * j]
    milliseconds (2000, then 4000) and calls again; the successful attempt
    returns its result at once, which is the array the answer decodes to,
    element for element (and the empty collection when the answer decodes
    to something else), writes [circuitBreakerOpen = false] exactly once,
    is the last call made, and the breaker is never opened. *)
Theorem retry_then_success (kind : Kind) (posts : list RedditPost) (limit : nat)
    (w : World) (prompt : Prompt) (k : nat) (v : JsValue) :
  k < maxRetries ->
  unblocked env w = true ->
  promptOf kind posts limit = Ok prompt ->
  (forall j, j < k -> exists e, decoded (gemini env (j + calls w) prompt) = Err e) ->
  decoded (gemini env (k + calls w) prompt) = Ok v ->
  exists w' result,
    run env (analyze kind posts limit) w = (w', Ok result)
    /\ (forall items, v = VArr items -> result = items)
    /\ ((forall items, v <> VArr items) -> result = [])
    /\ observable (trace w')
       = (observable (trace w)
          ++ flat_map (fun j => [EGenerateContent aiModel prompt;
                                 ETimeout (2000 * Z.of_nat j)]) (seq 1 k)
          ++ [EGenerateContent aiModel prompt; ESetOpen false])%list
    /\ calls w' = k + 1 + calls w
    /\ circuitBreakerOpen w' = false
    /\ circuitBreakerResetTime w' = circuitBreakerResetTime w.
Proof.
  intros Hk Hun Hp Hfail Hok.
  rewrite run_analyze, Hun.
  set (r := maxRetries - k - 1).
  replace (loop kind maxRetries 1 posts limit) with (loop kind (k + S r) 1 posts limit)
    by (f_equal; unfold r; lia).
  destruct (loop_retries env kind posts limit prompt k Hp (S r) 1 (entered w))
    as (w1 & Hrun & Hc & _ & _ & Ht & Htr).
  - lia.
  - intros j Hj. rewrite entered_calls. auto.
  - rewrite entered_calls in Hc. rewrite entered_trace in Htr.
    rewrite entered_resetTime in Ht.
    rewrite Hrun.
    rewrite (loop_success env kind r (1 + k) posts limit w1 prompt v Hp)
      by (rewrite Hc; exact Hok).
    eexists. exists (arrayOrEmpty v). split; [reflexivity |].
    split; [intros items ->; reflexivity |].
    split.
    { intro Hn. destruct v; try reflexivity. exfalso. exact (Hn _ eq_refl). }
    simpl. rewrite !observable_app, Htr. unfold retryEvents, retryDelay.
    repeat split.
    + destruct prompt; simpl; rewrite <- !app_assoc; reflexivity.
    + rewrite Hc. lia.
    + exact Ht.
Qed.

(** A response that arrived but does not decode makes the attempt fail. *)
Lemma undecodable_fails (r : Result string) (text : string) :
  r = Ok text -> JSON_parse (Str.strip_fence text) = None ->
  decoded r = Err syntaxError.
Proof. intros -> H. unfold decoded. rewrite H. reflexivity. Qed.

(** What the loop leaves behind when every attempt fails. *)
Lemma all_attempts_fail (kind : Kind) (posts : list RedditPost) (limit : nat)
    (w : World) (prompt : Prompt) :
  unblocked env w = true ->
  promptOf kind posts limit = Ok prompt ->
  (forall j, j < maxRetries -> exists e, decoded (gemini env (j + calls w) prompt) = Err e) ->
  exists w',
    run env (analyze kind posts limit) w = (w', Ok (fallbackOf kind posts))
    /\ observable (trace w')
       = (observable (trace w)
          ++ [EGenerateContent aiModel prompt; ETimeout 2000;
              EGenerateContent aiModel prompt; ETimeout 4000;
              EGenerateContent aiModel prompt;
              ESetOpen true;
              ESetResetTime (clock env (clockReads (entered w)) + 300000)])%list
    /\ calls w' = 3 + calls w
    /\ clockReads w' = S (clockReads (entered w))
    /\ circuitBreakerOpen w' = true
    /\ circuitBreakerResetTime w' = (clock env (clockReads (entered w)) + 300000)%Z.
Proof.
  intros Hun Hp Hfail.
  rewrite run_analyze, Hun.
  destruct (loop_retries env kind posts limit prompt 2 Hp 1 1 (entered w))
    as (w1 & Hrun & Hc & Hk & _ & _ & Htr).
  - unfold maxRetries. lia.
  - intros j Hj. rewrite entered_calls. apply Hfail. unfold maxRetries. lia.
  - rewrite entered_calls in Hc. rewrite entered_trace in Htr.
    destruct (Hfail 2) as [e He]; [unfold maxRetries; lia |].
    change (loop kind maxRetries 1 posts limit) with (loop kind (2 + 1) 1 posts limit).
    rewrite Hrun.
    change (loop kind 1 (1 + 2) posts limit) with (loop kind 1 maxRetries posts limit).
    rewrite (loop_exhaustion env kind 0 posts limit w1 prompt e Hp)
      by (rewrite Hc; exact He).
    eexists. split; [reflexivity |].
    simpl. rewrite !observable_app, Htr, Hk.
    repeat split.
    + destruct prompt, kind; simpl; rewrite <- !app_assoc; reflexivity.
    + rewrite Hc. reflexivity.
Qed.

(** C6. A response counts as a success, and closes the breaker, only once
    its text has decoded: an attempt whose call succeeds but whose text
    does not decode fails like any other and leaves the breaker as it was;
    three such responses in a row are each retried with the usual waits,
    after which the breaker is opened and the fallback result returned,
    although no call was ever rejected. *)
Theorem undecodable_responses_open_breaker (kind : Kind) (posts : list RedditPost)
    (limit : nat) (w : World) (prompt : Prompt) :
  unblocked env w = true ->
  promptOf kind posts limit = Ok prompt ->
  (forall j, j < maxRetries ->
     exists text, gemini env (j + calls w) prompt = Ok text
                  /\ JSON_parse (Str.strip_fence text) = None) ->
  (exists w',
     run env (analyze kind posts limit) w = (w', Ok (fallbackOf kind posts))
     /\ observable (trace w')
        = (observable (trace w)
           ++ [EGenerateContent aiModel prompt; ETimeout 2000;
               EGenerateContent aiModel prompt; ETimeout 4000;
               EGenerateContent aiModel prompt;
               ESetOpen true;
               ESetResetTime (clock env (clockReads (entered w)) + 300000)])%list
     /\ circuitBreakerOpen w' = true
     /\ circuitBreakerResetTime w' = (clock env (clockReads (entered w)) + 300000)%Z)
  /\ (forall w0 w1 l,
        run env (attempt kind posts limit) w0 = (w1, Ok l) ->
        exists v, decoded (gemini env (calls w0) prompt) = Ok v
                  /\ l = arrayOrEmpty v
                  /\ circuitBreakerOpen w1 = false)
  /\ (forall w0 w1 e,
        run env (attempt kind posts limit) w0 = (w1, Err e) ->
        decoded (gemini env (calls w0) prompt) = Err e
        /\ circuitBreakerOpen w1 = circuitBreakerOpen w0
        /\ circuitBreakerResetTime w1 = circuitBreakerResetTime w0
        /\ observable (trace w1)
           = (observable (trace w0) ++ [EGenerateContent aiModel prompt])%list).
Proof.
  intros Hun Hp Hbad. split; [| split].
  - destruct (all_attempts_fail kind posts limit w prompt Hun Hp)
      as (w' & Hrun & Htr & _ & _ & Ho & Ht).
    + intros j Hj. destruct (Hbad j Hj) as (text & Hg & Hparse).
      exists syntaxError. exact (undecodable_fails _ text Hg Hparse).
    + exists w'. auto.
  - intros w0 w1 l. rewrite run_attempt, Hp. cbn zeta.
    destruct (decoded (gemini env (calls w0) prompt)) as [v | e]; intro H; inversion H.
    exists v. auto.
  - intros w0 w1 e. rewrite run_attempt, Hp. cbn zeta.
    destruct (decoded (gemini env (calls w0) prompt)) as [v | e']; intro H; inversion H.
    subst. simpl. rewrite !observable_app.
    repeat split. destruct prompt; simpl; rewrite app_nil_r; reflexivity.
Qed.

End RetryLoop.

(** * The circuit breaker *)

Section Breaker.

Variable env : Env.

Lemma sync_step_trace {X : Type} (e : SyncEff X) (w : World) :
  exists evs, trace (fst (sync_step env e w)) = (trace w ++ evs)%list.
Proof.
  destruct e; simpl; eauto; exists []; rewrite app_nil_r; reflexivity.
Qed.

Lemma io_step_trace {X : Type} (e : IoEff X) (w : World) :
  exists evs, trace (fst (io_step env e w)) = (trace w ++ evs)%list.
Proof. destruct e; simpl; eauto. Qed.

(** A run only ever appends to the trace. *)
Lemma run_trace {A : Type} (p : Prog A) (w : World) :
  exists evs, trace (fst (run env p w)) = (trace w ++ evs)%list.
Proof.
  revert w. induction p as [a | e | X e k IH | X e k IH]; intro w; simpl.
  - exists []. rewrite app_nil_r. reflexivity.
  - exists []. rewrite app_nil_r. reflexivity.
  - destruct (sync_step_trace e w) as [evs1 H1].
    destruct (sync_step env e w) as [w' x]. simpl in H1.
    destruct (IH x w') as [evs2 H2]. exists (evs1 ++ evs2)%list.
    rewrite H2, H1, app_assoc. reflexivity.
  - destruct (io_step_trace e w) as [evs1 H1].
    destruct (io_step env e w) as [w' x]. simpl in H1.
    destruct (IH x w') as [evs2 H2]. exists (evs1 ++ evs2)%list.
    rewrite H2, H1, app_assoc. reflexivity.
Qed.

(** While the flag is set and the clock reads before the reset time, an
    invocation returns its fallback and changes nothing but the log. *)
Lemma refused_invocation (kind : Kind) (posts : list RedditPost) (limit : nat) (w : World) :
  circuitBreakerOpen w = true ->
  (clock env (clockReads w) < circuitBreakerResetTime w)%Z ->
  run env (analyze kind posts limit) w = (refused kind w, Ok (fallbackOf kind posts)).
Proof.
  intros Ho Hlt. rewrite run_analyze. unfold unblocked. rewrite Ho.
  apply Z.ltb_lt in Hlt. rewrite Hlt. reflexivity.
Qed.

Lemma refused_observable (kind : Kind) (w : World) :
  observable (trace (refused kind w)) = observable (trace w).
Proof.
  unfold refused. simpl. rewrite !observable_app.
  destruct kind; simpl; rewrite !app_nil_r; reflexivity.
Qed.

(** An invocation the breaker lets through begins with the call to the
    analyzer: nothing is written to the breaker before it. *)
Lemma allowed_invocation (kind : Kind) (posts : list RedditPost) (limit : nat)
    (w : World) (prompt : Prompt) :
  unblocked env w = true ->
  promptOf kind posts limit = Ok prompt ->
  exists w' r rest,
    run env (analyze kind posts limit) w = (w', r)
    /\ observable (trace w')
       = (observable (trace w) ++ EGenerateContent aiModel prompt :: rest)%list
    /\ (forall v, decoded (gemini env (calls w) prompt) = Ok v ->
          r = Ok (arrayOrEmpty v) /\ circuitBreakerOpen w' = false
          /\ rest = [ESetOpen false]).
Proof.
  intros Hun Hp. rewrite run_analyze, Hun.
  change maxRetries with (S 2) at 1.
  rewrite run_loop_S, run_attempt, Hp. cbn zeta.
  rewrite entered_calls.
  destruct (decoded (gemini env (calls w) prompt)) as [v | e].
  - eexists _, _, [ESetOpen false]. split; [reflexivity |]. split.
    + simpl. rewrite !observable_app, entered_trace.
      destruct prompt; simpl; rewrite <- !app_assoc; reflexivity.
    + intros v' Hv. inversion Hv. subst. auto.
  - cbn zeta. change (Nat.eqb 1 maxRetries) with false. cbv iota.
    match goal with
    | |- context [run env ?p ?w0] =>
        destruct (run_trace p w0) as [evs Hevs];
        destruct (run env p w0) as [w' r]
    end.
    simpl in Hevs. exists w', r. eexists. split; [reflexivity |]. split.
    + rewrite Hevs, !observable_app, entered_trace.
      destruct prompt; simpl; rewrite <- !app_assoc; simpl; reflexivity.
    + intros v Hv. discriminate.
Qed.

(** Any number of invocations, of either path, made one after the other
    while the clock reads before the reset time: all are refused and the
    breaker, the call count and the observable trace stay as they were. *)
Lemma refused_sequence (invs : list Invocation) :
  forall w : World,
    circuitBreakerOpen w = true ->
    (forall n, clockReads w <= n < clockReads w + List.length invs ->
               (clock env n < circuitBreakerResetTime w)%Z) ->
    exists w',
      run_seq env invs w = (w', map refusal invs)
      /\ calls w' = calls w
      /\ clockReads w' = clockReads w + List.length invs
      /\ circuitBreakerOpen w' = true
      /\ circuitBreakerResetTime w' = circuitBreakerResetTime w
      /\ observable (trace w') = observable (trace w).
Proof.
  induction invs as [| [[kind posts] limit] rest IH]; intros w Ho Hclock.
  - exists w. simpl. rewrite Nat.add_0_r. repeat split; auto.
  - cbn [run_seq].
    rewrite (refused_invocation kind posts limit w Ho)
      by (apply Hclock; simpl; lia).
    destruct (IH (refused kind w)) as (w' & Hrun & Hc & Hk & Ho' & Ht & Htr).
    + exact Ho.
    + intros n Hn. simpl in Hn. apply Hclock. simpl. lia.
    + rewrite Hrun. exists w'. simpl in Hc, Hk, Ht. rewrite refused_observable in Htr.
      repeat split; auto. simpl. lia.
Qed.

(** C2, amended.  Once three failed attempts have been recorded the
    breaker is open with its reset time five minutes after the clock
    reading taken at that moment.  The invocations made from then on one
    after the other, each awaited before the next, are refused as long as
    they read the clock before the reset time: each returns its fallback,
    makes no call and leaves the breaker as it is.  The first of them that
    reads the clock at or after the reset time is let through with no
    reset in between: it starts with the call to the analyzer, the
    breaker being written only after the response.  An invocation that
    had passed the check before the breaker was opened is not among
    them. *)
Theorem breaker_cooldown (kind : Kind) (posts : list RedditPost) (limit : nat)
    (w : World) (prompt : Prompt)
    (invs : list Invocation)
    (kind' : Kind) (posts' : list RedditPost) (limit' : nat) (prompt' : Prompt) :
  unblocked env w = true ->
  promptOf kind posts limit = Ok prompt ->
  (forall j, j < maxRetries -> exists e, decoded (gemini env (j + calls w) prompt) = Err e) ->
  promptOf kind' posts' limit' = Ok prompt' ->
  exists w1,
    run env (analyze kind posts limit) w = (w1, Ok (fallbackOf kind posts))
    /\ circuitBreakerOpen w1 = true
    /\ circuitBreakerResetTime w1
       = (clock env (clockReads w1 - 1) + 5 * 60 * 1000)%Z
    /\ ((forall n, clockReads w1 <= n < clockReads w1 + List.length invs ->
                   (clock env n < circuitBreakerResetTime w1)%Z) ->
        exists w2,
          run_seq env invs w1 = (w2, map refusal invs)
          /\ calls w2 = calls w1
          /\ observable (trace w2) = observable (trace w1)
          /\ circuitBreakerOpen w2 = true
          /\ circuitBreakerResetTime w2 = circuitBreakerResetTime w1
          /\ ((circuitBreakerResetTime w1 <= clock env (clockReads w2))%Z ->
              exists w3 r rest,
                run env (analyze kind' posts' limit') w2 = (w3, r)
                /\ observable (trace w3)
                   = (observable (trace w2)
                      ++ EGenerateContent aiModel prompt' :: rest)%list
                /\ (forall v, decoded (gemini env (calls w2) prompt') = Ok v ->
                      r = Ok (arrayOrEmpty v) /\ circuitBreakerOpen w3 = false
                      /\ rest = [ESetOpen false]))).
Proof.
  intros Hun Hp Hfail Hp'.
  destruct (all_attempts_fail env kind posts limit w prompt Hun Hp Hfail)
    as (w1 & Hrun & _ & _ & Hk & Ho & Ht).
  exists w1. repeat split; auto.
  - rewrite Ht, Hk. simpl. rewrite Nat.sub_0_r. reflexivity.
  - intro Hclock.
    destruct (refused_sequence invs w1 Ho Hclock) as (w2 & Hseq & Hc & _ & Ho2 & Ht2 & Htr).
    exists w2. repeat split; auto.
    intro Hdue.
    apply allowed_invocation; [| exact Hp'].
    unfold unblocked. rewrite Ho2, Ht2. simpl.
    apply Bool.negb_true_iff. apply Z.ltb_ge. exact Hdue.
Qed.

(** C3. Both paths read and write the same two breaker fields.  After
    either path has used up its attempts, the next invocation of either
    path (the other one in particular) that reads the clock before the
    reset time makes no call and returns its own fallback.  After either
    path has succeeded the flag is cleared, and the next invocation of
    either path goes straight to the analyzer whatever the clock reads. *)
Theorem breaker_is_shared (k1 k2 : Kind) (posts1 posts2 : list RedditPost)
    (limit1 limit2 : nat) (w : World) (prompt1 prompt2 : Prompt) :
  unblocked env w = true ->
  promptOf k1 posts1 limit1 = Ok prompt1 ->
  promptOf k2 posts2 limit2 = Ok prompt2 ->
  ((forall j, j < maxRetries ->
      exists e, decoded (gemini env (j + calls w) prompt1) = Err e) ->
   exists w1,
     run env (analyze k1 posts1 limit1) w = (w1, Ok (fallbackOf k1 posts1))
     /\ circuitBreakerOpen w1 = true
     /\ ((clock env (clockReads w1) < circuitBreakerResetTime w1)%Z ->
         exists w2,
           run env (analyze k2 posts2 limit2) w1 = (w2, Ok (fallbackOf k2 posts2))
           /\ calls w2 = calls w1
           /\ observable (trace w2) = observable (trace w1)))
  /\ (forall v, decoded (gemini env (calls w) prompt1) = Ok v ->
      exists w1,
        run env (analyze k1 posts1 limit1) w = (w1, Ok (arrayOrEmpty v))
        /\ circuitBreakerOpen w1 = false
        /\ exists w2 r rest,
             run env (analyze k2 posts2 limit2) w1 = (w2, r)
             /\ observable (trace w2)
                = (observable (trace w1)
                   ++ EGenerateContent aiModel prompt2 :: rest)%list).
Proof.
  intros Hun Hp1 Hp2. split.
  - intro Hfail.
    destruct (all_attempts_fail env k1 posts1 limit1 w prompt1 Hun Hp1 Hfail)
      as (w1 & Hrun & _ & _ & _ & Ho & _).
    exists w1. repeat split; auto.
    intro Hlt. exists (refused k2 w1).
    rewrite (refused_invocation k2 posts2 limit2 w1 Ho Hlt).
    repeat split. apply refused_observable.
  - intros v Hv.
    destruct (allowed_invocation k1 posts1 limit1 w prompt1 Hun Hp1)
      as (w1 & r & rest & Hrun & _ & Hok).
    destruct (Hok v Hv) as (Hr & Ho & _). subst r.
    exists w1. repeat split; auto.
    destruct (allowed_invocation k2 posts2 limit2 w1 prompt2) as (w2 & r2 & rest2 & H2 & Htr & _).
    + unfold unblocked. rewrite Ho. reflexivity.
    + exact Hp2.
    + exists w2, r2, rest2. auto.
Qed.

End Breaker.

(** * Decoding the response *)

Section Decoding.

Variable env : Env.

(** The loop returns a collection whatever the analyzer answers. *)
Lemma loop_total (kind : Kind) (posts : list RedditPost) (limit : nat) (r : nat) :
  forall (a : nat) (w : World),
    exists w' l, run env (loop kind r a posts limit) w = (w', Ok l).
Proof.
  induction r as [| r IH]; intros a w.
  - exists w, []. destruct kind; reflexivity.
  - rewrite run_loop_S.
    destruct (run env (attempt kind posts limit) w) as [w1 [l | e]].
    + eauto.
    + cbn zeta. destruct (Nat.eqb a maxRetries); eauto.
Qed.

Lemma analyze_total (kind : Kind) (posts : list RedditPost) (limit : nat) (w : World) :
  exists w' l, run env (analyze kind posts limit) w = (w', Ok l).
Proof.
  rewrite run_analyze. destruct (unblocked env w); [apply loop_total | eauto].
Qed.

(** C1, as the code has it.  Decoding never raises past the two analysis
    methods: they return a collection for every response text.  A text
    that decodes to something other than an array gives the empty
    collection and counts as a success.  A text that does not decode is
    not turned into zero insights: the attempt fails, the loop waits and
    calls again, and when the two following attempts fail as well the
    breaker is opened and the fallback insights are returned. *)
Theorem decoding_outcomes (kind : Kind) (posts : list RedditPost) (limit : nat)
    (w : World) (prompt : Prompt) (text : string) :
  unblocked env w = true ->
  promptOf kind posts limit = Ok prompt ->
  gemini env (calls w) prompt = Ok text ->
  (forall kind0 posts0 limit0 w0,
      exists w' l, run env (analyze kind0 posts0 limit0) w0 = (w', Ok l))
  /\ (forall v, JSON_parse (Str.strip_fence text) = Some v ->
        exists w',
          run env (analyze kind posts limit) w = (w', Ok (arrayOrEmpty v))
          /\ (Array_isArray v = false -> arrayOrEmpty v = [])
          /\ calls w' = 1 + calls w
          /\ circuitBreakerOpen w' = false)
  /\ (JSON_parse (Str.strip_fence text) = None ->
        exists w' l rest,
          run env (analyze kind posts limit) w = (w', Ok l)
          /\ observable (trace w')
             = (observable (trace w)
                ++ [EGenerateContent aiModel prompt; ETimeout 2000;
                    EGenerateContent aiModel prompt] ++ rest)%list
          /\ ((forall j, 1 <= j < maxRetries ->
                 exists e, decoded (gemini env (j + calls w) prompt) = Err e) ->
              l = fallbackOf kind posts /\ circuitBreakerOpen w' = true)).
Proof.
  intros Hun Hp Hg. split; [| split].
  - intros. apply analyze_total.
  - intros v Hv.
    rewrite run_analyze, Hun. change maxRetries with (S 2) at 1.
    rewrite (loop_success env kind 2 1 posts limit (entered w) prompt v Hp)
      by (rewrite entered_calls; unfold decoded; rewrite Hg, Hv; reflexivity).
    eexists. split; [reflexivity |]. simpl. rewrite entered_calls.
    repeat split.
    destruct v; simpl; intro H; try reflexivity; discriminate.
  - intro Hbad.
    assert (He : decoded (gemini env (calls (entered w)) prompt) = Err syntaxError).
    { rewrite entered_calls. exact (undecodable_fails _ text Hg Hbad). }
    rewrite run_analyze, Hun.
    change maxRetries with (S 2) at 1.
    rewrite (loop_retry env kind 2 1 posts limit (entered w) prompt syntaxError Hp He)
      by (unfold maxRetries; lia).
    rewrite run_loop_S, run_attempt, Hp. cbn zeta.
    change (calls (retried kind 1 syntaxError prompt (entered w))) with (S (calls (entered w))).
    rewrite entered_calls.
    destruct (decoded (gemini env (S (calls w)) prompt)) as [v | e] eqn:E1.
    + eexists _, _, [ESetOpen false]. split; [reflexivity |]. split.
      * simpl. rewrite !observable_app, entered_trace.
        destruct prompt, kind; simpl; rewrite <- !app_assoc; reflexivity.
      * intro Hfail. destruct (Hfail 1) as [e He1]; [unfold maxRetries; lia |].
        simpl in He1. rewrite E1 in He1. discriminate.
    + cbn zeta. change (Nat.eqb 2 maxRetries) with false. cbv iota.
      rewrite run_loop_S, run_attempt, Hp. cbn zeta.
      match goal with
      | |- context [gemini env (calls ?w0) prompt] =>
          change (calls w0) with (S (S (calls (entered w))))
      end.
      rewrite entered_calls.
      destruct (decoded (gemini env (S (S (calls w))) prompt)) as [v | e2] eqn:E2.
      * eexists _, _, _. split; [reflexivity |]. split.
        -- simpl. rewrite !observable_app, entered_trace.
           destruct prompt, kind; simpl; rewrite <- !app_assoc; reflexivity.
        -- intro Hfail. destruct (Hfail 2) as [e' He2]; [unfold maxRetries; lia |].
           simpl in He2. rewrite E2 in He2. discriminate.
      * cbn zeta. change (Nat.eqb 3 maxRetries) with true. cbv iota.
        eexists _, _, _. split; [reflexivity |]. split.
        -- simpl. rewrite !observable_app, entered_trace.
           destruct prompt, kind; simpl; rewrite <- !app_assoc; reflexivity.
        -- intros _. split; reflexivity.
Qed.

End Decoding.

(** * The claims at concrete inputs *)

Lemma sample_trend_prompt : promptOf Trend samplePosts 500 = Ok sampleTrendPrompt.
Proof. vm_compute. reflexivity. Qed.

Lemma sample_problem_prompt : promptOf Problem samplePosts 500 = Ok sampleProblemPrompt.
Proof. vm_compute. reflexivity. Qed.

(** A rejected call, an answer in prose, then a JSON answer. *)
Lemma retry_then_success_witness :
  exists w',
    run (sampleEnv [rejection; prose; trendsJson]) (analyze Trend samplePosts 500) initial
    = (w', Ok [VObj [("trend", VStr "AI note taking");
                     ("growthPercentage", VNum (of_Z 47));
                     ("confidence", VNum (of_Z 85))]])
    /\ observable (trace w')
       = (observable (trace initial)
          ++ flat_map (fun j => [EGenerateContent aiModel sampleTrendPrompt;
                                 ETimeout (2000 * Z.of_nat j)]) (seq 1 2)
          ++ [EGenerateContent aiModel sampleTrendPrompt; ESetOpen false])%list
    /\ calls w' = 2 + 1 + calls initial
    /\ circuitBreakerOpen w' = false
    /\ circuitBreakerResetTime w' = circuitBreakerResetTime initial.
Proof.
  destruct (retry_then_success (sampleEnv [rejection; prose; trendsJson]) Trend samplePosts
              500 initial sampleTrendPrompt 2 trendsValue)
    as (w' & result & Hrun & Hitems & _ & Hrest).
  - unfold maxRetries. lia.
  - reflexivity.
  - exact sample_trend_prompt.
  - intros j Hj. destruct j as [| [| j]]; [eexists; vm_compute; reflexivity .. | lia].
  - vm_compute. reflexivity.
  - rewrite (Hitems _ eq_refl) in Hrun. exists w'. split; [exact Hrun | exact Hrest].
Defined.

Lemma sample_all_prose (prompt : Prompt) (j : nat) :
  j < maxRetries ->
  exists text, gemini (sampleEnv [prose; prose; prose]) (j + calls initial) prompt = Ok text
               /\ JSON_parse (Str.strip_fence text) = None.
Proof.
  intro Hj. destruct j as [| [| [| j]]];
    [eexists; split; [reflexivity | vm_compute; reflexivity] .. | unfold maxRetries in Hj; lia].
Defined.

Lemma sample_all_fail (prompt : Prompt) (j : nat) :
  j < maxRetries ->
  exists e, decoded (gemini (sampleEnv [prose; rejection; prose]) (j + calls initial) prompt)
            = Err e.
Proof.
  intro Hj. destruct j as [| [| [| j]]];
    [eexists; vm_compute; reflexivity .. | unfold maxRetries in Hj; lia].
Defined.

(** Three answers in prose on the problem path. *)
Lemma undecodable_responses_open_breaker_witness :
  exists w',
    run (sampleEnv [prose; prose; prose]) (analyze Problem samplePosts 500) initial
    = (w', Ok (fallbackOf Problem samplePosts))
    /\ circuitBreakerOpen w' = true
    /\ circuitBreakerResetTime w' = 300000%Z.
Proof.
  destruct (undecodable_responses_open_breaker (sampleEnv [prose; prose; prose]) Problem
              samplePosts 500 initial sampleProblemPrompt)
    as [(w' & Hrun & _ & Ho & Ht) _].
  - reflexivity.
  - exact sample_problem_prompt.
  - apply sample_all_prose.
  - exists w'. auto.
Defined.

(** Three failed attempts on the trend path, two invocations one and two
    seconds later, and a third one after the clock has passed the reset
    time. *)
Lemma breaker_cooldown_witness :
  exists w1 w2 w3,
    run (cooldownEnv [prose; rejection; prose; trendsJson])
        (analyze Trend samplePosts 500) initial
    = (w1, Ok (fallbackOf Trend samplePosts))
    /\ circuitBreakerOpen w1 = true
    /\ circuitBreakerResetTime w1 = 300000%Z
    /\ run_seq (cooldownEnv [prose; rejection; prose; trendsJson])
               [(Problem, samplePosts, 500); (Trend, samplePosts, 500)] w1
       = (w2, [Ok (fallbackOf Problem samplePosts); Ok (fallbackOf Trend samplePosts)])
    /\ calls w2 = 3
    /\ run (cooldownEnv [prose; rejection; prose; trendsJson])
           (analyze Problem samplePosts 500) w2
       = (w3, Ok (arrayOrEmpty trendsValue))
    /\ circuitBreakerOpen w3 = false.
Proof.
  set (env := cooldownEnv [prose; rejection; prose; trendsJson]).
  destruct (breaker_cooldown env Trend samplePosts 500 initial sampleTrendPrompt
              [(Problem, samplePosts, 500); (Trend, samplePosts, 500)]
              Problem samplePosts 500 sampleProblemPrompt)
    as (w1 & Hrun & Ho & Ht & Hseq).
  - reflexivity.
  - exact sample_trend_prompt.
  - intros j Hj. destruct j as [| [| [| j]]];
      [eexists; vm_compute; reflexivity .. | unfold maxRetries in Hj; lia].
  - exact sample_problem_prompt.
  - assert (Hk : clockReads w1 = 1).
    { change (clockReads (fst (w1, Ok (fallbackOf Trend samplePosts))) = 1).
      rewrite <- Hrun. vm_compute. reflexivity. }
    assert (Hc : calls w1 = 3).
    { change (calls (fst (w1, Ok (fallbackOf Trend samplePosts))) = 3).
      rewrite <- Hrun. vm_compute. reflexivity. }
    rewrite Hk in Ht. change (clock env (1 - 1)) with 0%Z in Ht.
    destruct Hseq as (w2 & Hrun2 & Hc2 & _ & _ & _ & Hnext).
    + intros n Hn. rewrite Hk in Hn. simpl in Hn. rewrite Ht.
      destruct n as [| [| [| n]]]; try lia; vm_compute; reflexivity.
    + assert (Hk2 : clockReads w2 = 3).
      { change (clockReads (fst (w2, map refusal
                  [(Problem, samplePosts, 500); (Trend, samplePosts, 500)])) = 3).
        rewrite <- Hrun2. clear Hrun Hrun2 Hnext Hc2.
        destruct w1; simpl in *; subst.
        vm_compute. reflexivity. }
      destruct Hnext as (w3 & r & rest & Hrun3 & _ & Hok).
      * rewrite Ht, Hk2. vm_compute. discriminate.
      * destruct (Hok trendsValue) as (Hr & Ho3 & _).
        { rewrite Hc2, Hc. vm_compute. reflexivity. }
        subst r. exists w1, w2, w3. rewrite Hc2.
        repeat split; auto.
Defined.

(** C2 as stated fails: not every invocation made before the reset time
    is refused.  Under [Promise.all] the problem path is already waiting
    for its answer when the trend path opens the breaker with the reset
    time 300000, and its success afterwards clears the flag without
    looking at the reset time; an invocation made a few seconds later,
    well before the reset time, calls the analyzer again (three times,
    every answer being prose). *)
Lemma in_flight_success_clears_flag :
  exists w1 report,
    generateReport raceEnv (of_Z 30) initial = (w1, Ok report)
    /\ In (ESetResetTime 300000) (trace w1)
    /\ circuitBreakerOpen w1 = false
    /\ (clock raceEnv (clockReads w1) < 300000)%Z
    /\ calls (fst (run raceEnv (analyze Trend samplePosts 500) w1)) = 3 + calls w1.
Proof.
  eexists _, _. split; [vm_compute; reflexivity |].
  split; [cbn; tauto |].
  split; [reflexivity |].
  split; vm_compute; reflexivity.
Qed.

(** Three failed attempts on the trend path, then the problem path one
    second later; and a success on the problem path, then the trend path. *)
Lemma breaker_is_shared_witness :
  (exists w1 w2,
     run (sampleEnv [prose; rejection; prose]) (analyze Trend samplePosts 500) initial
     = (w1, Ok (fallbackOf Trend samplePosts))
     /\ run (sampleEnv [prose; rejection; prose]) (analyze Problem samplePosts 500) w1
        = (w2, Ok (fallbackOf Problem samplePosts))
     /\ calls w2 = calls w1)
  /\ (exists w1 w2 r rest,
        run (sampleEnv [trendsJson; prose]) (analyze Problem samplePosts 500) initial
        = (w1, Ok (arrayOrEmpty trendsValue))
        /\ circuitBreakerOpen w1 = false
        /\ run (sampleEnv [trendsJson; prose]) (analyze Trend samplePosts 500) w1 = (w2, r)
        /\ observable (trace w2)
           = (observable (trace w1)
              ++ EGenerateContent aiModel sampleTrendPrompt :: rest)%list).
Proof.
  split.
  - destruct (breaker_is_shared (sampleEnv [prose; rejection; prose]) Trend Problem
                samplePosts samplePosts 500 500 initial sampleTrendPrompt sampleProblemPrompt
                eq_refl sample_trend_prompt sample_problem_prompt)
      as [Hexhaust _].
    destruct (Hexhaust (sample_all_fail sampleTrendPrompt)) as (w1 & Hrun & Ho & Hnext).
    assert (Hk : clockReads w1 = 1).
    { change (clockReads (fst (w1, Ok (fallbackOf Trend samplePosts))) = 1).
      rewrite <- Hrun. vm_compute. reflexivity. }
    assert (Ht : circuitBreakerResetTime w1 = 300000%Z).
    { change (circuitBreakerResetTime (fst (w1, Ok (fallbackOf Trend samplePosts)))
              = 300000%Z).
      rewrite <- Hrun. vm_compute. reflexivity. }
    destruct Hnext as (w2 & Hrun2 & Hc & _).
    + rewrite Hk, Ht. vm_compute. reflexivity.
    + exists w1, w2. auto.
  - destruct (breaker_is_shared (sampleEnv [trendsJson; prose]) Problem Trend
                samplePosts samplePosts 500 500 initial sampleProblemPrompt sampleTrendPrompt
                eq_refl sample_problem_prompt sample_trend_prompt)
      as [_ Hsuccess].
    destruct (Hsuccess trendsValue) as (w1 & Hrun & Ho & w2 & r & rest & Hrun2 & Htr).
    + vm_compute. reflexivity.
    + exists w1, w2, r, rest. auto.
Defined.

(** A decodable answer that is not an array, and an answer in prose. *)
Lemma decoding_outcomes_witness :
  (exists w',
     run (sampleEnv [Ok (dq "{'error':'quota exceeded'}")])
         (analyze Trend samplePosts 500) initial
     = (w', Ok [])
     /\ calls w' = 1
     /\ circuitBreakerOpen w' = false)
  /\ (exists w',
        run (sampleEnv [prose; rejection; prose]) (analyze Trend samplePosts 500) initial
        = (w', Ok (fallbackOf Trend samplePosts))
        /\ circuitBreakerOpen w' = true).
Proof.
  split.
  - destruct (decoding_outcomes (sampleEnv [Ok (dq "{'error':'quota exceeded'}")]) Trend
                samplePosts 500 initial sampleTrendPrompt (dq "{'error':'quota exceeded'}")
                eq_refl sample_trend_prompt eq_refl)
      as (_ & Hdecodable & _).
    destruct (Hdecodable (VObj [("error", VStr "quota exceeded")]))
      as (w' & Hrun & _ & Hc & Ho).
    + vm_compute. reflexivity.
    + exists w'. auto.
  - destruct (decoding_outcomes (sampleEnv [prose; rejection; prose]) Trend
                samplePosts 500 initial sampleTrendPrompt
                "Sorry, I cannot analyze these posts."
                eq_refl sample_trend_prompt eq_refl)
      as (_ & _ & Hundecodable).
    destruct Hundecodable as (w' & l & rest & Hrun & _ & Hfallback).
    + vm_compute. reflexivity.
    + destruct Hfallback as [Hl Ho].
      * intros j Hj. apply sample_all_fail. lia.
      * subst l. exists w'. auto.
Defined.

(** C1 as stated fails: an answer that does not decode is neither turned
    into an empty collection nor left unretried.  With three answers in
    prose the trend path calls the analyzer three times, opens the breaker
    and returns the two fallback insights. *)
Lemma undecodable_is_not_empty :
  ~ (forall (env : Env) (posts : list RedditPost) (limit : nat) (w : World)
            (prompt : Prompt) (text : string),
        unblocked env w = true ->
        promptOf Trend posts limit = Ok prompt ->
        gemini env (calls w) prompt = Ok text ->
        JSON_parse (Str.strip_fence text) = None ->
        exists w',
          run env (analyzeWithGemini posts limit) w = (w', Ok [])
          /\ calls w' = 1 + calls w
          /\ circuitBreakerOpen w' = circuitBreakerOpen w).
Proof.
  intro H.
  destruct (H (sampleEnv [prose; prose; prose]) samplePosts 500 initial sampleTrendPrompt
              "Sorry, I cannot analyze these posts.")
    as (w' & Hrun & Hc & Ho).
  - reflexivity.
  - exact sample_trend_prompt.
  - reflexivity.
  - vm_compute. reflexivity.
  - assert (E : calls (fst (run (sampleEnv [prose; prose; prose])
                                (analyzeWithGemini samplePosts 500) initial)) = 3)
      by (vm_compute; reflexivity).
    rewrite Hrun in E. simpl in E, Hc. congruence.
Qed.

(** * The fallback trend analyzer *)

Section TrendFallback.

Import FallbackTrend.
Local Open Scope string_scope.

Lemma bump_lookup (key : string) (acc : Counts) :
  inherited key = None ->
  forall label,
    lookup label (bump key acc) =
    if String.eqb label key
    then Some (match lookup key acc with Some v => plusOne v | None => CNum 1 end)
    else lookup label acc.
Proof.
  intros Hplain label. induction acc as [| [k v] r IH].
  - cbn [bump]. rewrite Hplain. cbn [lookup]. destruct (String.eqb label key); reflexivity.
  - cbn [bump lookup]. destruct (String.eqb key k) eqn:Ek.
    + apply String.eqb_eq in Ek. subst k. cbn [lookup].
      destruct (String.eqb label key); reflexivity.
    + cbn [lookup]. destruct (String.eqb label k) eqn:El.
      * apply String.eqb_eq in El. subst k.
        rewrite String.eqb_sym in Ek. rewrite Ek. reflexivity.
      * exact IH.
Qed.

Lemma bump_keys (key : string) (acc : Counts) :
  inherited key = None ->
  forall label, In label (map fst (bump key acc)) <-> label = key \/ In label (map fst acc).
Proof.
  intros Hplain label. induction acc as [| [k v] r IH].
  - cbn [bump]. rewrite Hplain. simpl. intuition.
  - cbn [bump]. destruct (String.eqb key k) eqn:Ek.
    + apply String.eqb_eq in Ek. subst k. simpl. intuition.
    + simpl. rewrite IH. intuition.
Qed.

Lemma bump_NoDup (key : string) (acc : Counts) :
  inherited key = None -> NoDup (map fst acc) -> NoDup (map fst (bump key acc)).
Proof.
  intros Hplain. induction acc as [| [k v] r IH]; intro Hnd.
  - cbn [bump]. rewrite Hplain. simpl. constructor; [simpl; tauto | constructor].
  - cbn [bump]. destruct (String.eqb key k) eqn:Ek.
    + exact Hnd.
    + simpl in *. inversion Hnd as [| ? ? Hnotin Hnd']. subst.
      constructor; [| apply IH; exact Hnd'].
      rewrite (bump_keys key r Hplain). intros [-> | Hin]; [| contradiction].
      rewrite String.eqb_refl in Ek. discriminate.
Qed.

Lemma occurrences_snoc (label : string) (posts : list RedditPost) (post : RedditPost) :
  occurrences label (posts ++ [post])
  = occurrences label posts + (if String.eqb (subreddit post) label then 1 else 0).
Proof.
  unfold occurrences. rewrite filter_app, length_app. cbn [filter].
  destruct (String.eqb (subreddit post) label); reflexivity.
Qed.

(** With plain labels [subredditCounts] holds, for every label that
    occurs, the number of its records, and nothing else. *)
Lemma subredditCounts_spec (posts : list RedditPost) :
  Forall (fun post => plainLabel (subreddit post) = true) posts ->
  NoDup (map fst (subredditCounts posts))
  /\ forall label,
       lookup label (subredditCounts posts) =
       match occurrences label posts with
       | 0 => None
       | S n => Some (CNum (S n))
       end.
Proof.
  induction posts as [| post posts IH] using rev_ind; intro Hplain.
  - split; [constructor | reflexivity].
  - apply Forall_app in Hplain. destruct Hplain as [Hposts Hpost].
    inversion Hpost as [| ? ? Hp _]. subst.
    unfold plainLabel in Hp.
    destruct (inherited (subreddit post)) eqn:Einh; [discriminate |].
    destruct (IH Hposts) as [Hnd Hlook].
    unfold subredditCounts in *. rewrite fold_left_app. cbn [fold_left]. split.
    + apply bump_NoDup; assumption.
    + intro label. rewrite (bump_lookup _ _ Einh), occurrences_snoc.
      rewrite (String.eqb_sym label). destruct (String.eqb (subreddit post) label) eqn:E.
      * apply String.eqb_eq in E. subst label. rewrite Hlook.
        destruct (occurrences (subreddit post) posts); simpl.
        -- reflexivity.
        -- rewrite Nat.add_1_r. reflexivity.
      * rewrite Hlook, Nat.add_0_r. reflexivity.
Qed.

Lemma lookup_In (label : string) (v : CountVal) (acc : Counts) :
  lookup label acc = Some v -> In (label, v) acc.
Proof.
  induction acc as [| [k v'] r IH]; cbn [lookup]; [discriminate |].
  destruct (String.eqb label k) eqn:E.
  - apply String.eqb_eq in E. subst k. intro H. inversion H. left. reflexivity.
  - intro H. right. apply IH. exact H.
Qed.

Lemma In_lookup (label : string) (v : CountVal) (acc : Counts) :
  NoDup (map fst acc) -> In (label, v) acc -> lookup label acc = Some v.
Proof.
  induction acc as [| [k v'] r IH]; intros Hnd Hin; [contradiction |].
  simpl in Hnd. inversion Hnd as [| ? ? Hnotin Hnd']. subst.
  cbn [lookup]. destruct Hin as [Heq | Hin].
  - inversion Heq. subst. rewrite String.eqb_refl. reflexivity.
  - destruct (String.eqb label k) eqn:E.
    + apply String.eqb_eq in E. subst k. exfalso. apply Hnotin.
      apply (in_map fst) in Hin. exact Hin.
    + apply IH; assumption.
Qed.

Lemma insert_index_perm (e : Z * (string * CountVal)) (l : list (Z * (string * CountVal))) :
  Permutation (insert_index e l) (e :: l).
Proof.
  induction l as [| y r IH]; cbn [insert_index]; [reflexivity |].
  destruct (fst e <=? fst y)%Z; [reflexivity |].
  rewrite IH. apply perm_swap.
Qed.

(** [Object.entries] lists every own property once. *)
Lemma Object_entries_perm (o : Counts) : Permutation (Object_entries o) o.
Proof.
  unfold Object_entries. induction o as [| [k v] r IH]; [reflexivity |].
  cbn [index_entries filter]. unfold named_key at 1. cbn [fst].
  destruct (array_index k) as [i |].
  - rewrite insert_index_perm. cbn [map snd app]. constructor. exact IH.
  - rewrite <- Permutation_middle. constructor. exact IH.
Qed.

Lemma insert_desc_perm (e : string * CountVal) (l : list (string * CountVal)) :
  Permutation (insert_desc e l) (e :: l).
Proof.
  induction l as [| y r IH]; cbn [insert_desc]; [reflexivity |].
  destruct (sortsAfter e y); [| reflexivity].
  rewrite IH. apply perm_swap.
Qed.

Lemma sort_desc_perm (l : list (string * CountVal)) : Permutation (sort_desc l) l.
Proof.
  unfold sort_desc. induction l as [| e r IH]; [reflexivity |].
  cbn [fold_right]. rewrite insert_desc_perm. constructor. exact IH.
Qed.

Lemma insert_desc_head (e : string * CountVal) (l : list (string * CountVal)) :
  isCount e -> Forall isCount l -> headIsLargest l -> headIsLargest (insert_desc e l).
Proof.
  intros [n Hn] Hall Hhead. destruct l as [| h t]; cbn [insert_desc].
  - intros x [].
  - inversion Hall as [| ? ? [m Hm] _]. subst.
    unfold sortsAfter. rewrite Hn, Hm.
    destruct (Nat.ltb n m) eqn:E.
    + intros x Hx.
      apply (Permutation_in _ (insert_desc_perm e t)) in Hx.
      destruct Hx as [<- | Hx].
      * apply Nat.ltb_lt in E. unfold countOf. rewrite Hn, Hm. lia.
      * apply Hhead. exact Hx.
    + apply Nat.ltb_ge in E. intros x [<- | Hx].
      * unfold countOf. rewrite Hn, Hm. exact E.
      * specialize (Hhead x Hx). unfold countOf in *. rewrite Hn, Hm in *. lia.
Qed.

Lemma sort_desc_head (l : list (string * CountVal)) :
  Forall isCount l -> headIsLargest (sort_desc l).
Proof.
  unfold sort_desc. induction 1 as [| e r He Hr IH]; [exact I |].
  cbn [fold_right]. apply insert_desc_head; [exact He | | exact IH].
  apply Forall_forall. intros x Hx.
  apply (Permutation_in _ (sort_desc_perm r)) in Hx.
  rewrite Forall_forall in Hr. apply Hr. exact Hx.
Qed.

Lemma occurrences_head (post : RedditPost) (posts : list RedditPost) :
  0 < occurrences (subreddit post) (post :: posts).
Proof.
  unfold occurrences. cbn [filter]. rewrite String.eqb_refl. simpl. lia.
Qed.

(** With plain labels the first of [topSubreddits] is a label with the
    largest number of records, together with that number. *)
Lemma top_entry (posts : list RedditPost) :
  posts <> [] ->
  Forall (fun post => plainLabel (subreddit post) = true) posts ->
  exists label count rest,
    topSubreddits posts = (label, CNum count) :: rest
    /\ occurrences label posts = count
    /\ 0 < count
    /\ forall other, occurrences other posts <= count.
Proof.
  intros Hne Hplain.
  destruct (subredditCounts_spec posts Hplain) as [Hnd Hlook].
  set (c := subredditCounts posts) in *.
  assert (Hentry : forall label v, In (label, v) c ->
                     v = CNum (occurrences label posts) /\ 0 < occurrences label posts).
  { intros label v Hin. apply (In_lookup _ _ _ Hnd) in Hin. rewrite Hlook in Hin.
    destruct (occurrences label posts); inversion Hin. split; [reflexivity | lia]. }
  assert (Hperm : Permutation (sort_desc (Object_entries c)) c).
  { rewrite sort_desc_perm. apply Object_entries_perm. }
  assert (Hcounts : Forall isCount (Object_entries c)).
  { apply Forall_forall. intros [label v] Hin.
    apply (Permutation_in _ (Object_entries_perm c)) in Hin.
    destruct (Hentry label v Hin) as [-> _]. eexists. reflexivity. }
  pose proof (sort_desc_head _ Hcounts) as Hhead.
  unfold topSubreddits. fold c.
  destruct (sort_desc (Object_entries c)) as [| [label v] t] eqn:Es.
  - exfalso. destruct posts as [| post posts]; [congruence |].
    pose proof (occurrences_head post posts) as Hocc.
    specialize (Hlook (subreddit post)).
    destruct (occurrences (subreddit post) (post :: posts)) eqn:E; [lia |].
    apply lookup_In in Hlook.
    apply (Permutation_in _ (Permutation_sym Hperm)) in Hlook. contradiction.
  - assert (Hin : In (label, v) c)
      by (apply (Permutation_in _ Hperm); left; reflexivity).
    destruct (Hentry label v Hin) as [-> Hpos].
    exists label, (occurrences label posts), (firstn 2 t).
    split; [reflexivity |]. split; [reflexivity |]. split; [exact Hpos |].
    intro other. specialize (Hlook other).
    destruct (occurrences other posts) as [| n] eqn:E; [lia |].
    apply lookup_In in Hlook.
    apply (Permutation_in _ (Permutation_sym Hperm)) in Hlook.
    destruct Hlook as [Heq | Hin'].
    + inversion Heq. lia.
    + specialize (Hhead _ Hin'). unfold countOf in Hhead. simpl in Hhead. exact Hhead.
Qed.

(** The trend analyzer on records with plain labels: the top insight
    comes first, with the share of the most frequent label as its growth,
    and the engagement insight follows exactly when the mean score
    exceeds 100. *)
Lemma fallback_trend_plain (posts : list RedditPost) :
  posts <> [] ->
  Forall (fun post => plainLabel (subreddit post) = true) posts ->
  exists label count first,
    occurrences label posts = count
    /\ 0 < count
    /\ (forall other, occurrences other posts <= count)
    /\ getFallbackTrendAnalysis posts
       = first :: (if gt (avgScore posts) (of_Z 100) then [engagementInsight posts] else [])
    /\ growthPercentage first
       = Math_round (mul (div (of_nat count) (of_nat (List.length posts))) (of_Z 100))
    /\ confidence first = of_Z 60
    /\ competitionLevel first = "Medium"
    /\ entryCost first = "Low"
    /\ timePeriod first = "30 days"
    /\ growthPercentage (engagementInsight posts)
       = Math_round (mul (div (avgScore posts) (of_Z 100)) (of_Z 10))
    /\ confidence (engagementInsight posts) = of_Z 70.
Proof.
  intros Hne Hplain.
  destruct (top_entry posts Hne Hplain) as (label & count & rest & Htop & Hocc & Hpos & Hmax).
  exists label, count, (topInsight posts (label, CNum count)).
  split; [exact Hocc |]. split; [exact Hpos |]. split; [exact Hmax |].
  split.
  - unfold getFallbackTrendAnalysis. rewrite Htop.
    destruct (gt (avgScore posts) (of_Z 100)); reflexivity.
  - repeat split.
Qed.

Lemma occurrences_cons (label : string) (post : RedditPost) (posts : list RedditPost) :
  occurrences label (post :: posts)
  = (if String.eqb (subreddit post) label then 1 else 0) + occurrences label posts.
Proof.
  unfold occurrences. cbn [filter].
  destruct (String.eqb (subreddit post) label); reflexivity.
Qed.

Lemma occurrences_two (a b : string) (posts : list RedditPost) :
  a <> b -> occurrences a posts + occurrences b posts <= List.length posts.
Proof.
  intro Hab. induction posts as [| post posts IH]; [reflexivity |].
  rewrite !occurrences_cons. cbn [List.length].
  destruct (String.eqb (subreddit post) a) eqn:Ea;
    destruct (String.eqb (subreddit post) b) eqn:Eb; try lia.
  apply String.eqb_eq in Ea, Eb. congruence.
Qed.

Lemma occurrences_cover (a b : string) (posts : list RedditPost) :
  a <> b ->
  occurrences a posts + occurrences b posts = List.length posts ->
  Forall (fun post => subreddit post = a \/ subreddit post = b) posts.
Proof.
  intro Hab. induction posts as [| post posts IH]; intro Hsum; [constructor |].
  rewrite !occurrences_cons in Hsum. cbn [List.length] in Hsum.
  pose proof (occurrences_two a b posts Hab) as Hle.
  destruct (String.eqb (subreddit post) a) eqn:Ea;
    destruct (String.eqb (subreddit post) b) eqn:Eb; try lia.
  - apply String.eqb_eq in Ea, Eb. congruence.
  - constructor; [left; apply String.eqb_eq; exact Ea | apply IH; lia].
  - constructor; [right; apply String.eqb_eq; exact Eb | apply IH; lia].
Qed.

(** The scenario of C7: three records, two in [saas] and one in
    [startups], with a mean score of 150, give the two insights with
    growth 67 and 15, in that order. *)
Lemma fallback_trend_scenario (posts : list RedditPost) :
  List.length posts = 3 ->
  occurrences "saas" posts = 2 ->
  occurrences "startups" posts = 1 ->
  avgScore posts = of_Z 150 ->
  map growthPercentage (getFallbackTrendAnalysis posts) = [of_Z 67; of_Z 15]
  /\ map confidence (getFallbackTrendAnalysis posts) = [of_Z 60; of_Z 70].
Proof.
  intros Hlen Hsaas Hstart Havg.
  assert (Hcover : Forall (fun post => subreddit post = "saas" \/ subreddit post = "startups")
                          posts)
    by (apply occurrences_cover; [discriminate | lia]).
  assert (Hplain : Forall (fun post => plainLabel (subreddit post) = true) posts).
  { apply (Forall_impl _ (P := fun post => subreddit post = "saas"
                                            \/ subreddit post = "startups"));
      [| exact Hcover].
    intros post [-> | ->]; reflexivity. }
  destruct (fallback_trend_plain posts) as
    (label & count & first & Hocc & Hpos & Hmax & Hrun & Hg & Hc & _ & _ & _ & Hg2 & Hc2).
  - intro E. rewrite E in Hlen. discriminate.
  - exact Hplain.
  - assert (Hcount : count = 2).
    { pose proof (Hmax "saas") as H2. rewrite Hsaas in H2.
      destruct (string_dec label "saas") as [-> | Hne]; [lia |].
      pose proof (occurrences_two label "saas" posts Hne). lia. }
    subst count. rewrite Hrun, Havg.
    change (gt (of_Z 150) (of_Z 100)) with true. cbv iota. cbn [map].
    rewrite Hg, Hc, Hg2, Hc2, Hcount, Hlen, Havg. split; vm_compute; reflexivity.
Qed.

(** C7 at a label the code mishandles.  The counts live in a plain
    object literal, so the first read of the key [constructor] finds the
    inherited member of [Object.prototype] and [+ 1] appends to its text:
    for a single record with that label the top insight is emitted with a
    growth of NaN, where the share of the label, 1 of 1, rounds to 100. *)
Theorem inherited_label_growth :
  let posts := [samplePost "constructor" "Site foreman software" 40] in
  exists first,
    getFallbackTrendAnalysis posts = [first]
    /\ growthPercentage first = NaN
    /\ confidence first = of_Z 60
    /\ occurrences "constructor" posts = 1
    /\ List.length posts = 1
    /\ Math_round (mul (div (of_nat 1) (of_nat 1)) (of_Z 100)) = of_Z 100.
Proof.
  cbv zeta. eexists. split; [vm_compute; reflexivity |].
  repeat split.
Qed.

End TrendFallback.

(** * The fallback problem analyzer *)

Section ProblemFallback.

Import FallbackProblem.
Local Open Scope string_scope.

Lemma prefix_app (sub s : string) :
  prefix sub s = true <-> exists suf, s = sub ++ suf.
Proof.
  revert s. induction sub as [| c sub IH]; intro s.
  - split; [intros _; exists s; reflexivity | intros _; destruct s; reflexivity].
  - destruct s as [| d s]; simpl.
    + split; [discriminate | intros [suf H]; discriminate].
    + destruct (ascii_dec c d) as [-> | Hne].
      * rewrite IH. split; intros [suf H]; exists suf.
        -- simpl. rewrite H. reflexivity.
        -- simpl in H. inversion H. reflexivity.
      * split; [discriminate |].
        intros [suf H]. simpl in H. inversion H. congruence.
Qed.

Lemma includes_unfold (s sub : string) :
  Str.includes s sub =
  if prefix sub s then true
  else match s with
       | EmptyString => false
       | String _ r => Str.includes r sub
       end.
Proof. destruct s; reflexivity. Qed.

(** [includes] finds exactly the texts that have [sub] somewhere inside. *)
Lemma includes_spec (s sub : string) :
  Str.includes s sub = true <-> exists pre suf, s = pre ++ sub ++ suf.
Proof.
  induction s as [| c s IH]; rewrite includes_unfold.
  - destruct (prefix sub "") eqn:E.
    + split; [intros _ | reflexivity].
      apply prefix_app in E. destruct E as [suf E]. exists "", suf. exact E.
    + split; [discriminate |].
      intros (pre & suf & H). destruct pre; simpl in H.
      * assert (prefix sub "" = true) by (apply prefix_app; eauto). congruence.
      * discriminate.
  - destruct (prefix sub (String c s)) eqn:E.
    + split; [intros _ | reflexivity].
      apply prefix_app in E. destruct E as [suf E]. exists "", suf. exact E.
    + rewrite IH. split.
      * intros (pre & suf & H). exists (String c pre), suf. simpl. rewrite H. reflexivity.
      * intros (pre & suf & H). destruct pre as [| d pre]; simpl in H.
        -- assert (prefix sub (String c s) = true) by (apply prefix_app; eauto). congruence.
        -- inversion H. eauto.
Qed.







End ProblemFallback.

(** * The report text *)

Section ReportText.

Import Text.
Local Open Scope string_scope.

Lemma append_assoc (a b c : string) : (a ++ b) ++ c = a ++ b ++ c.
Proof.
  induction a as [| x a IH]; [reflexivity |].
  change (String x ((a ++ b) ++ c) = String x (a ++ b ++ c)). rewrite IH. reflexivity.
Qed.

Lemma append_nil_r (a : string) : a ++ "" = a.
Proof.
  induction a as [| x a IH]; [reflexivity |].
  change (String x (a ++ "") = String x a). rewrite IH. reflexivity.
Qed.

Lemma allChars_app (ok : ascii -> bool) (a b : string) :
  allChars ok (a ++ b) = allChars ok a && allChars ok b.
Proof.
  induction a as [| x a IH]; [reflexivity |].
  change (ok x && allChars ok (a ++ b) = ok x && allChars ok a && allChars ok b).
  rewrite IH, Bool.andb_assoc. reflexivity.
Qed.

Lemma allChars_substring (ok : ascii -> bool) (s : string) :
  allChars ok s = true -> forall n m, allChars ok (substring n m s) = true.
Proof.
  induction s as [| c s IH]; intros H n m.
  - destruct n, m; reflexivity.
  - simpl in H. apply Bool.andb_true_iff in H. destruct H as [Hc Hs].
    destruct n as [| n]; simpl.
    + destruct m as [| m]; simpl; [reflexivity |].
      rewrite Hc. apply IH. exact Hs.
    + apply IH. exact Hs.
Qed.

Lemma digit_is_numeric (z : Z) :
  numeric (ascii_of_nat (48 + Z.to_nat (z mod 10))) = true.
Proof.
  assert (H : (0 <= z mod 10 < 10)%Z) by (apply Z.mod_pos_bound; lia).
  assert (Hn : Z.to_nat (z mod 10) < 10) by lia.
  destruct (Z.to_nat (z mod 10)) as [| [| [| [| [| [| [| [| [| [| n]]]]]]]]]];
    try reflexivity; lia.
Qed.

Lemma digits_fuel_numeric (fuel : nat) :
  forall z, allChars numeric (digits_fuel fuel z) = true.
Proof.
  induction fuel as [| fuel IH]; intro z; [reflexivity |].
  cbn [digits_fuel]. cbv zeta.
  destruct (z <? 10)%Z.
  - cbn [allChars]. rewrite digit_is_numeric. reflexivity.
  - rewrite allChars_app, IH. cbn [allChars]. rewrite digit_is_numeric. reflexivity.
Qed.

Lemma digits_numeric (z : Z) : allChars numeric (digits z) = true.
Proof. apply digits_fuel_numeric. Qed.

Lemma zeros_numeric (n : nat) : allChars numeric (zeros n) = true.
Proof. induction n as [| n IH]; [reflexivity | simpl; exact IH]. Qed.

Lemma layout_numeric (s n k : Z) : allChars numeric (layout s n k) = true.
Proof.
  unfold layout. cbv zeta.
  repeat match goal with
         | |- context [if ?b then _ else _] => destruct b
         end;
    repeat rewrite allChars_app;
    repeat rewrite digits_numeric;
    repeat rewrite zeros_numeric;
    repeat rewrite (allChars_substring numeric _ (digits_numeric _));
    reflexivity.
Qed.

Lemma Number_toString_numeric (x : number) :
  allChars numeric (Number_toString x) = true.
Proof.
  unfold Number_toString. destruct x as [s | s | | sg m e].
  - reflexivity.
  - destruct s; reflexivity.
  - reflexivity.
  - cbv zeta.
    destruct (shortest _ _ _ _ _ _) as [[s n'] k].
    destruct (strip_zeros _ _ _) as [s' k'].
    rewrite allChars_app, layout_numeric. destruct sg; reflexivity.
Qed.

Lemma allChars_weaken (p q : ascii -> bool) (s : string) :
  (forall c, p c = true -> q c = true) ->
  allChars p s = true -> allChars q s = true.
Proof.
  intros Hpq. induction s as [| c s IH]; simpl; [reflexivity |].
  intro H. apply Bool.andb_true_iff in H. destruct H as [Hc Hs].
  rewrite (Hpq c Hc), (IH Hs). reflexivity.
Qed.

Lemma numeric_not_newline (c : ascii) :
  numeric c = true -> negb (Ascii.eqb c newline) = true.
Proof.
  intro H. destruct (Ascii.eqb c newline) eqn:E; [| reflexivity].
  apply Ascii.eqb_eq in E. subst c. vm_compute in H. discriminate.
Qed.

(** A number is printed on one line. *)
Lemma Number_toString_onOneLine (x : number) : onOneLine (Number_toString x) = true.
Proof.
  apply (allChars_weaken numeric); [apply numeric_not_newline |].
  apply Number_toString_numeric.
Qed.

Lemma lines_app (a b : string) :
  onOneLine a = true -> lines (a ++ String newline b) = a :: lines b.
Proof.
  induction a as [| c a IH]; intro H.
  - reflexivity.
  - unfold onOneLine in H. cbn [allChars] in H.
    apply Bool.andb_true_iff in H. destruct H as [Hc Ha].
    change (lines (String c (a ++ String newline b)) = String c a :: lines b).
    cbn [lines]. apply Bool.negb_true_iff in Hc. rewrite Hc.
    rewrite (IH Ha). reflexivity.
Qed.

Lemma toLowerCase_app (a b : string) :
  Str.toLowerCase (a ++ b) = Str.toLowerCase a ++ Str.toLowerCase b.
Proof.
  induction a as [| c a IH]; [reflexivity |].
  change (String (Str.lower_char c) (Str.toLowerCase (a ++ b))
          = String (Str.lower_char c) (Str.toLowerCase a ++ Str.toLowerCase b)).
  rewrite IH. reflexivity.
Qed.

Lemma titleLine_onOneLine (days : number) : onOneLine (titleLine days) = true.
Proof.
  unfold titleLine, onOneLine. rewrite !allChars_app.
  fold (onOneLine (Number_toString days)). rewrite Number_toString_onOneLine.
  reflexivity.
Qed.

(** The report for two empty collections, line by line. *)
Lemma empty_report_text (days : number) :
  renderReport days [] [] =
  Ok (String newline
        (titleLine days ++ String newline
           (String newline
              ("No significant trends or problems identified in the current data."
               ++ String newline (String newline ("=== END OF REPORT ===" ++ String newline "")))))).
Proof.
  unfold renderReport, trendsBlock, problemsBlock, rbind. cbn [List.length Nat.ltb Nat.leb Nat.eqb andb].
  f_equal. unfold header, titleLine, nothingFound, footer, nl.
  change (ascii_of_nat 10) with newline.
  rewrite !append_assoc. reflexivity.
Qed.

Lemma trendsBlock_shape (trends : list JsValue) (tb : string) :
  trendsBlock trends = Ok tb ->
  (trends = [] -> tb = "") /\ (trends <> [] -> exists items, tb = trendsHeading ++ items).
Proof.
  unfold trendsBlock. destruct trends as [| t ts].
  - intro H. inversion H. split; [reflexivity | congruence].
  - cbn [List.length Nat.ltb Nat.leb]. unfold rbind.
    destruct (renderEach renderTrend 0 (t :: ts)) as [body | e]; intro H; inversion H.
    split; [discriminate | eauto].
Qed.

Lemma problemsBlock_shape (problems : list JsValue) (pb : string) :
  problemsBlock problems = Ok pb ->
  (problems = [] -> pb = "")
  /\ (problems <> [] -> exists items, pb = problemsHeading ++ items).
Proof.
  unfold problemsBlock. destruct problems as [| t ts].
  - intro H. inversion H. split; [reflexivity | congruence].
  - cbn [List.length Nat.ltb Nat.leb]. unfold rbind.
    destruct (renderEach renderProblem 0 (t :: ts)) as [body | e]; intro H; inversion H.
    split; [discriminate | eauto].
Qed.

(** C10, amended.  For every window length the report built from two
    empty collections contains the sentence "No significant trends or
    problems identified in the current data.", which begins with a
    capital letter (the words of the claim are found once the text is
    lower-cased), and none of its lines opens a numbered item.  In any
    report the trends block is there exactly when there are trends and
    the problems block exactly when there are problems; the sentence is
    there exactly when both are missing. *)
Theorem report_blocks (days : number) :
  (exists text,
     renderReport days [] [] = Ok text
     /\ Str.includes text "No significant trends or problems identified in the current data."
        = true
     /\ Str.includes (Str.toLowerCase text) "no significant trends or problems" = true
     /\ forallb (fun line => negb (numberedItem line)) (lines text) = true)
  /\ (forall (trends problems : list JsValue) (text : string),
        renderReport days trends problems = Ok text ->
        exists tb pb,
          text = header days ++ tb ++ pb
                 ++ (if Nat.eqb (List.length trends) 0 && Nat.eqb (List.length problems) 0
                     then nothingFound else "")
                 ++ footer
          /\ (trends = [] -> tb = "")
          /\ (trends <> [] -> exists items, tb = trendsHeading ++ items)
          /\ (problems = [] -> pb = "")
          /\ (problems <> [] -> exists items, pb = problemsHeading ++ items)).
Proof.
  split.
  - eexists. split; [apply empty_report_text |].
    assert (Hsplit :
      String newline
        (titleLine days ++ String newline
           (String newline
              ("No significant trends or problems identified in the current data."
               ++ String newline
                    (String newline ("=== END OF REPORT ===" ++ String newline "")))))
      = String newline (titleLine days ++ String newline (String newline ""))
        ++ "No significant trends or problems identified in the current data."
        ++ String newline (String newline ("=== END OF REPORT ===" ++ String newline ""))).
    { change (String newline (titleLine days ++ String newline (String newline ""))
              ++ ?x)
        with (String newline ((titleLine days ++ String newline (String newline "")) ++ x)).
      rewrite append_assoc. reflexivity. }
    split; [| split].
    + apply includes_spec. eexists _, _. exact Hsplit.
    + apply includes_spec. rewrite Hsplit, toLowerCase_app.
      exists (Str.toLowerCase
                (String newline (titleLine days ++ String newline (String newline "")))).
      exists (" identified in the current data."
              ++ String newline (String newline ("=== end of report ===" ++ String newline ""))).
      reflexivity.
    + change (String newline (titleLine days ++ ?r))
        with ("" ++ String newline (titleLine days ++ r)).
      rewrite (lines_app "" _ eq_refl).
      rewrite (lines_app (titleLine days) _ (titleLine_onOneLine days)).
      reflexivity.
  - intros trends problems text. unfold renderReport, rbind.
    destruct (trendsBlock trends) as [tb | e] eqn:Et; [| discriminate].
    destruct (problemsBlock problems) as [pb | e] eqn:Ep; [| discriminate].
    intro H. inversion H. exists tb, pb.
    destruct (trendsBlock_shape trends tb Et) as [Ht1 Ht2].
    destruct (problemsBlock_shape problems pb Ep) as [Hp1 Hp2].
    auto.
Qed.

End ReportText.

(** * Errors raised while rendering *)

Section RenderErrors.

Local Open Scope string_scope.

(** Induction on decoded values, through the arrays and objects. *)
Lemma JsValue_induction (P : JsValue -> Prop) :
  P VNull ->
  (forall b, P (VBool b)) ->
  (forall x, P (VNum x)) ->
  (forall t, P (VStr t)) ->
  (forall elems, Forall P elems -> P (VArr elems)) ->
  (forall props, Forall (fun kv => P (snd kv)) props -> P (VObj props)) ->
  forall v, P v.
Proof.
  intros Hnull Hbool Hnum Hstr Harr Hobj.
  fix IH 1. intros [| b | x | t | elems | props].
  - exact Hnull.
  - apply Hbool.
  - apply Hnum.
  - apply Hstr.
  - apply Harr. induction elems as [| y ys IHys]; constructor; [apply IH | exact IHys].
  - apply Hobj. induction props as [| [k y] ps IHps]; constructor; [apply IH | exact IHps].
Qed.

Lemma toStr_VArr (l : list JsValue) :
  toStr (VArr l) =
  match elemStrings l with
  | Ok ts => Ok (Str.join "," ts)
  | Err e => Err e
  end.
Proof. reflexivity. Qed.

Lemma elemStrings_typeError (l : list JsValue) :
  Forall (fun v => forall e, toStr v = Err e -> isTypeError e) l ->
  forall e, elemStrings l = Err e -> isTypeError e.
Proof.
  induction 1 as [| x xs Hx _ IH]; intros e; cbn [elemStrings]; [discriminate |].
  destruct (match x with VNull => Ok EmptyString | _ => toStr x end) as [t | e'] eqn:Ex.
  - destruct (elemStrings xs) as [ts | e'] eqn:E; intro H; inversion H; subst.
    apply IH; reflexivity.
  - intro H; inversion H; subst. apply Hx.
    destruct x; try exact Ex. discriminate.
Qed.

(** [ToString] throws nothing but a [TypeError]. *)
Lemma toStr_typeError (v : JsValue) : forall e, toStr v = Err e -> isTypeError e.
Proof.
  induction v as [| b | x | t | elems IH | props _] using JsValue_induction; intro e;
    try discriminate.
  - rewrite toStr_VArr.
    destruct (elemStrings elems) as [ts | e'] eqn:E; intro H; inversion H; subst.
    exact (elemStrings_typeError elems IH e E).
  - cbn [toStr]. destruct (get "toString" props); intro H; inversion H. reflexivity.
Qed.

Lemma field_typeError (item : JsValue) (name : string) (e : JsError) :
  field item name = Err e -> isTypeError e.
Proof.
  unfold field, prop, interp.
  destruct item; try discriminate.
  - intro H. inversion H. reflexivity.
  - destruct (get name props) as [v |]; [apply toStr_typeError | discriminate].
Qed.

Lemma joinSolutions_typeError (item : JsValue) (e : JsError) :
  joinSolutions item = Err e -> isTypeError e.
Proof.
  unfold joinSolutions, rbind, prop.
  destruct item; try (intro H; inversion H; reflexivity).
  destruct (get "potentialSolutions" props) as [[| | | | l |] |];
    try (intro H; inversion H; reflexivity).
  destruct (elemStrings l) as [ts | e'] eqn:E; intro H; inversion H; subst.
  apply (elemStrings_typeError l); [| exact E].
  apply Forall_forall. intros v _. apply toStr_typeError.
Qed.

(** Peels one [rbind] off a failed computation. *)
Ltac failed_rbind H :=
  match type of H with
  | rbind ?r _ = Err _ =>
      let E := fresh "E" in
      destruct r eqn:E; cbn [rbind] in H;
      [| inversion H; subst;
         first [ eapply field_typeError; eassumption
               | eapply joinSolutions_typeError; eassumption ] ]
  end.

Lemma renderTrend_typeError (index : nat) (item : JsValue) (e : JsError) :
  renderTrend index item = Err e -> isTypeError e.
Proof.
  unfold renderTrend. intro H. repeat failed_rbind H. discriminate.
Qed.

Lemma renderProblem_typeError (index : nat) (item : JsValue) (e : JsError) :
  renderProblem index item = Err e -> isTypeError e.
Proof.
  unfold renderProblem. intro H. repeat failed_rbind H. discriminate.
Qed.

Lemma renderEach_typeError (render : nat -> JsValue -> Result string)
    (items : list JsValue) :
  (forall i item e, render i item = Err e -> isTypeError e) ->
  forall index e, renderEach render index items = Err e -> isTypeError e.
Proof.
  intro Hr. induction items as [| item rest IH]; intros index e; cbn [renderEach].
  - discriminate.
  - unfold rbind. destruct (render index item) as [t | e'] eqn:E1.
    + destruct (renderEach render (S index) rest) as [ts | e'] eqn:E2;
        intro H; inversion H; subst. apply (IH (S index)). exact E2.
    + intro H; inversion H; subst. apply (Hr index item). exact E1.
Qed.

(** Rendering throws nothing but a [TypeError]. *)
Lemma renderReport_typeError (days : number) (trends problems : list JsValue)
    (e : JsError) :
  renderReport days trends problems = Err e -> isTypeError e.
Proof.
  unfold renderReport, rbind, trendsBlock, problemsBlock.
  destruct (Nat.ltb 0 (List.length trends)).
  - unfold rbind. destruct (renderEach renderTrend 0 trends) as [tb | e'] eqn:Et.
    + destruct (Nat.ltb 0 (List.length problems)); [| discriminate].
      unfold rbind. destruct (renderEach renderProblem 0 problems) as [pb | e'] eqn:Ep;
        intro H; inversion H; subst.
      exact (renderEach_typeError _ _ renderProblem_typeError _ _ Ep).
    + intro H; inversion H; subst.
      exact (renderEach_typeError _ _ renderTrend_typeError _ _ Et).
  - destruct (Nat.ltb 0 (List.length problems)); [| discriminate].
    unfold rbind. destruct (renderEach renderProblem 0 problems) as [pb | e'] eqn:Ep;
      intro H; inversion H; subst.
    exact (renderEach_typeError _ _ renderProblem_typeError _ _ Ep).
Qed.

Lemma elemStrings_strings (l : list string) : elemStrings (map VStr l) = Ok l.
Proof.
  induction l as [| t l IH]; [reflexivity |].
  cbn [map elemStrings toStr]. rewrite IH. reflexivity.
Qed.


(** What the fallback analyzers return always renders. *)
Lemma renders_fallback (kind : Kind) (posts : list RedditPost) :
  renders kind (fallbackOf kind posts).
Proof.
  destruct kind; unfold fallbackOf.
  - induction (FallbackTrend.getFallbackTrendAnalysis posts) as [| t ts IH]; intro index.
    + exists "". reflexivity.
    + destruct (IH (S index)) as [text Ht].
      cbn [map renderEach]. unfold rbind. rewrite Ht.
      eexists. reflexivity.
  - induction (FallbackProblem.getFallbackProblemAnalysis posts) as [| t ts IH]; intro index.
    + exists "". reflexivity.
    + destruct (IH (S index)) as [text Ht].
      cbn [map renderEach]. unfold rbind at 1.
      assert (Hr : exists line, renderProblem index (problem_value t) = Ok line).
      { unfold renderProblem, problem_value, joinSolutions, rbind.
        cbn [field prop get String.eqb Ascii.eqb Bool.eqb interp toStr].
        rewrite elemStrings_strings. eexists. reflexivity. }
      destruct Hr as [line Hr]. rewrite Hr. unfold rbind. rewrite Ht.
      eexists. reflexivity.
Qed.

(** Two collections that render give a report. *)
Lemma renderReport_renders (days : number) (trends problems : list JsValue) :
  renders Trend trends -> renders Problem problems ->
  exists report, renderReport days trends problems = Ok report.
Proof.
  intros Ht Hp. destruct (Ht 0) as [tb Etb]. destruct (Hp 0) as [pb Epb].
  unfold renderReport, trendsBlock, problemsBlock.
  destruct (Nat.ltb 0 (List.length trends)), (Nat.ltb 0 (List.length problems));
    unfold rbind; rewrite ?Etb, ?Epb; eexists; reflexivity.
Qed.

End RenderErrors.

(** * The pipeline *)

Section Pipeline.

Variable env : Env.
Local Open Scope string_scope.

Lemma analyzeTrends_shape (days : number) :
  analyzeTrends days =
  Sync (Log LLog ("Starting trend analysis for the last " ++ Number_toString days ++ " days"))
    (fun _ => Sync (CutoffTimestamp days)
       (fun cutoffTimestamp => Await (FindAll 1000 0) (trendsAfterFetch days cutoffTimestamp))).
Proof. reflexivity. Qed.

Lemma analyzeProblems_shape (days : number) :
  analyzeProblems days =
  Sync (Log LLog ("Starting problem analysis for the last " ++ Number_toString days
                  ++ " days"))
    (fun _ => Sync (CutoffTimestamp days)
       (fun cutoffTimestamp =>
          Await (FindAll 1000 0) (problemsAfterFetch days cutoffTimestamp))).
Proof. reflexivity. Qed.

Lemma trendsAfterFetch_empty (days cutoff : number) (posts : list RedditPost) :
  filter (fun post => ge (created_utc post) cutoff) posts = [] ->
  trendsAfterFetch days cutoff (Ok posts)
  = Sync (Log LWarn "No posts found for analysis") (fun _ => Ret []).
Proof. intro H. unfold trendsAfterFetch. cbn [lift bind]. rewrite H. reflexivity. Qed.

Lemma problemsAfterFetch_empty (days cutoff : number) (posts : list RedditPost) :
  filter (fun post => ge (created_utc post) cutoff) posts = [] ->
  problemsAfterFetch days cutoff (Ok posts)
  = Sync (Log LWarn "No posts found for problem analysis") (fun _ => Ret []).
Proof. intro H. unfold problemsAfterFetch. cbn [lift bind]. rewrite H. reflexivity. Qed.

Lemma run_all_sync_l {A B X : Type} (e : SyncEff X) (k : X -> Prog A) (q : Prog B)
    (w : World) :
  run_all env (Sync e k) q w =
  let '(w', x) := sync_step env e w in run_all env (k x) q w'.
Proof. destruct q; reflexivity. Qed.

Lemma run_all_sync_r {A B X Y : Type} (ep : IoEff Y) (kp : Y -> Prog A)
    (e : SyncEff X) (k : X -> Prog B) (w : World) :
  run_all env (Await ep kp) (Sync e k) w =
  let '(w', x) := sync_step env e w in run_all env (Await ep kp) (k x) w'.
Proof. reflexivity. Qed.

Lemma run_all_await_await {A B X Y : Type} (ep : IoEff X) (kp : X -> Prog A)
    (eq : IoEff Y) (kq : Y -> Prog B) (w : World) :
  run_all env (Await ep kp) (Await eq kq) w =
  if scheduler env (turns w)
  then let '(w', x) := io_step env ep (next_turn w) in run_all env (kp x) (Await eq kq) w'
  else let '(w', x) := io_step env eq (next_turn w) in run_all env (Await ep kp) (kq x) w'.
Proof. reflexivity. Qed.

(** With one side finished, [run_all] runs the other alone. *)
Lemma run_all_ret_l {A B : Type} (a : A) (q : Prog B) (w : World) :
  run_all env (Ret a) q w =
  let '(w', r) := run env q w in
  (w', match r with Ok b => Ok (a, b) | Err e => Err e end).
Proof.
  revert w. induction q as [b | e | X e k IH | X e k IH]; intro w.
  - reflexivity.
  - reflexivity.
  - cbn [run_all run]. destruct (sync_step env e w) as [w' x]. apply IH.
  - cbn [run_all run]. destruct (io_step env e w) as [w' x]. apply IH.
Qed.

Lemma run_all_ret_r {A B : Type} (p : Prog A) (b : B) (w : World) :
  run_all env p (Ret b) w =
  let '(w', r) := run env p w in
  (w', match r with Ok a => Ok (a, b) | Err e => Err e end).
Proof.
  revert w. induction p as [a | e | X e k IH | X e k IH]; intro w.
  - reflexivity.
  - reflexivity.
  - cbn [run_all run]. destruct (sync_step env e w) as [w' x]. apply IH.
  - cbn [run_all run]. destruct (io_step env e w) as [w' x]. apply IH.
Qed.

(** C9. When the window is empty [generateReport] returns the empty
    report: the only things that happen besides logging are the two
    repository queries; the analyzer is never called, no wait is started
    and the breaker is not touched. *)
Theorem empty_window_short_circuits (days : number) (w : World) :
  emptyWindow env days ->
  exists w',
    generateReport env days w = (w', Ok (header days ++ nothingFound ++ footer))
    /\ calls w' = calls w
    /\ circuitBreakerOpen w' = circuitBreakerOpen w
    /\ circuitBreakerResetTime w' = circuitBreakerResetTime w
    /\ observable (trace w')
       = (observable (trace w) ++ [EFindAll 1000 0; EFindAll 1000 0])%list.
Proof.
  intro Hempty.
  unfold generateReport. rewrite analyzeTrends_shape, analyzeProblems_shape.
  repeat (rewrite run_all_sync_l; cbn [sync_step]).
  repeat (rewrite run_all_sync_r; cbn [sync_step]).
  rewrite run_all_await_await. cbn [io_step].
  destruct (scheduler env _); cbn [record next_turn fetched cutoffTaken cutoffs fetches].
  - destruct (Hempty (fetches w) (cutoffs w)) as (posts1 & Hr1 & Hf1).
    destruct (Hempty (S (fetches w)) (S (cutoffs w))) as (posts2 & Hr2 & Hf2).
    rewrite Hr1, (trendsAfterFetch_empty _ _ _ Hf1).
    rewrite run_all_sync_l. cbn [sync_step]. rewrite run_all_ret_l.
    cbn [run io_step record fetched fetches next_turn cutoffTaken].
    rewrite Hr2, (problemsAfterFetch_empty _ _ _ Hf2).
    cbn [run sync_step].
    eexists. split; [reflexivity |].
    cbn [calls circuitBreakerOpen circuitBreakerResetTime trace record fetched
         next_turn cutoffTaken].
    repeat split.
    rewrite !observable_app. cbn [observable filter isLog negb].
    rewrite !app_nil_r, <- app_assoc. reflexivity.
  - destruct (Hempty (fetches w) (S (cutoffs w))) as (posts1 & Hr1 & Hf1).
    destruct (Hempty (S (fetches w)) (cutoffs w)) as (posts2 & Hr2 & Hf2).
    rewrite Hr1, (problemsAfterFetch_empty _ _ _ Hf1).
    rewrite run_all_sync_r. cbn [sync_step]. rewrite run_all_ret_r.
    cbn [run io_step record fetched fetches next_turn cutoffTaken].
    rewrite Hr2, (trendsAfterFetch_empty _ _ _ Hf2).
    cbn [run sync_step].
    eexists. split; [reflexivity |].
    cbn [calls circuitBreakerOpen circuitBreakerResetTime trace record fetched
         next_turn cutoffTaken].
    repeat split.
    rewrite !observable_app. cbn [observable filter isLog negb].
    rewrite !app_nil_r, <- app_assoc. reflexivity.
Qed.

Lemma Leaves_any {A : Type} (p : Prog A) : Leaves env (fun _ => True) (fun _ => True) p.
Proof.
  induction p as [a | e | X e k IH | X e k IH]; constructor; auto.
Qed.

Lemma Leaves_weaken {A : Type} (P P' : A -> Prop) (E E' : JsError -> Prop) (p : Prog A) :
  (forall a, P a -> P' a) -> (forall e, E e -> E' e) ->
  Leaves env P E p -> Leaves env P' E' p.
Proof.
  intros HP HE H. induction H; constructor; auto.
Qed.

Lemma Leaves_bind {A B : Type} (P : A -> Prop) (Q : B -> Prop) (E : JsError -> Prop)
    (p : Prog A) (f : A -> Prog B) :
  Leaves env P E p -> (forall a, P a -> Leaves env Q E (f a)) -> Leaves env Q E (bind p f).
Proof.
  intros H Hf. induction H; cbn [bind]; try (constructor; auto); auto.
Qed.

Lemma Leaves_try_catch {A : Type} (P : A -> Prop) (E1 E : JsError -> Prop)
    (p : Prog A) (h : JsError -> Prog A) :
  Leaves env P E1 p -> (forall e, E1 e -> Leaves env P E (h e)) -> Leaves env P E (try_catch p h).
Proof.
  intros H Hh. induction H; cbn [try_catch]; try (constructor; auto); auto.
Qed.

Lemma Leaves_run {A : Type} (P : A -> Prop) (E : JsError -> Prop) (p : Prog A) :
  Leaves env P E p ->
  forall w, match run env p w with
            | (_, Ok a) => P a
            | (_, Err e) => E e
            end.
Proof.
  intro H. induction H as [a Ha | e He | X e k _ IH | X e k _ IH]; intro w; cbn [run].
  - exact Ha.
  - exact He.
  - destruct (sync_step env e w) as [w' x]. apply IH.
  - destruct (io_step env e w) as [w' x] eqn:Es. apply IH.
    exists w. rewrite Es. reflexivity.
Qed.

(** Two methods run by [Promise.all], under every interleaving. *)
Lemma Leaves_run_all {A B : Type} (P : A -> Prop) (Q : B -> Prop) (E : JsError -> Prop)
    (p : Prog A) (q : Prog B) :
  Leaves env P E p -> Leaves env Q E q ->
  forall w, match run_all env p q w with
            | (_, Ok (a, b)) => P a /\ Q b
            | (_, Err e) => E e
            end.
Proof.
  intros Hp. revert q.
  induction Hp as [a Ha | e He | X e k _ IHp | X ep kp Hkp IHp]; intros q Hq.
  - intro w. rewrite run_all_ret_l.
    pose proof (Leaves_run Q E q Hq w) as H.
    destruct (run env q w) as [w' [b | e]]; auto.
  - intro w. destruct q; exact He.
  - intro w. rewrite run_all_sync_l.
    destruct (sync_step env e w) as [w' x]. apply IHp. exact Hq.
  - induction Hq as [b Hb | e He | Y e k _ IHq | Y eq kq Hkq IHq]; intro w.
    + rewrite run_all_ret_r.
      pose proof (Leaves_run P E (Await ep kp) (LAwait env P E ep kp Hkp) w) as H.
      destruct (run env (Await ep kp) w) as [w' [a | e]]; auto.
    + exact He.
    + rewrite run_all_sync_r. destruct (sync_step env e w) as [w' x]. apply IHq.
    + rewrite run_all_await_await. destruct (scheduler env (turns w)).
      * destruct (io_step env ep (next_turn w)) as [w' x] eqn:Es.
        apply IHp.
        -- exists (next_turn w). rewrite Es. reflexivity.
        -- constructor. exact Hkq.
      * destruct (io_step env eq (next_turn w)) as [w' x] eqn:Es.
        apply IHq. exists (next_turn w). rewrite Es. reflexivity.
Qed.

Section Outcomes.

(** A property of collections that holds of the empty collection, of the
    fallback results and of every decoded answer. *)
Variable Good : Kind -> list JsValue -> Prop.
Hypothesis Good_nil : forall kind, Good kind [].
Hypothesis Good_fallback : forall kind posts, Good kind (fallbackOf kind posts).
Hypothesis Good_decoded :
  forall kind n p v, decoded (gemini env n p) = Ok v -> Good kind (arrayOrEmpty v).

Lemma call_leaves (kind : Kind) (prompt : Prompt) :
  Leaves env (Good kind) (fun _ => True)
    (bind (await_result (GenerateContent aiModel prompt))
       (fun text => bind (decode text)
          (fun v => bind (sync (SetOpen false)) (fun _ => Ret (arrayOrEmpty v))))).
Proof.
  cbn [await_result bind]. constructor. intros x [w Hx]. cbn [io_step snd] in Hx.
  destruct x as [text | e]; cbn [bind]; [| constructor; exact I].
  unfold decode.
  destruct (JSON_parse (Str.strip_fence text)) as [v |] eqn:Ev; cbn [bind sync].
  - constructor. intros _. constructor.
    apply (Good_decoded kind (calls w) prompt). rewrite Hx. unfold decoded. rewrite Ev.
    reflexivity.
  - constructor. exact I.
Qed.

Lemma attempt_leaves (kind : Kind) (posts : list RedditPost) (limit : nat) :
  Leaves env (Good kind) (fun _ => True) (attempt kind posts limit).
Proof.
  destruct kind; unfold attempt.
  - unfold trendAttempt.
    destruct (trendData (firstn limit posts)) as [data | e]; cbn [lift bind sync].
    + constructor. intros _. apply (call_leaves Trend).
    + constructor. exact I.
  - unfold problemAttempt. cbn zeta. cbn [bind sync].
    constructor. intros _. apply (call_leaves Problem).
Qed.

Lemma fallback_leaves (kind : Kind) (posts : list RedditPost) :
  Leaves env (Good kind) (fun _ => False)
    (match kind with
     | Trend => getFallbackTrendAnalysis posts
     | Problem => getFallbackProblemAnalysis posts
     end).
Proof.
  destruct kind; constructor; intros _; constructor.
  - apply (Good_fallback Trend).
  - apply (Good_fallback Problem).
Qed.

(** The retry loop never throws. *)
Lemma loop_leaves (kind : Kind) (posts : list RedditPost) (limit : nat) (r : nat) :
  forall a, Leaves env (Good kind) (fun _ => False) (loop kind r a posts limit).
Proof.
  induction r as [| r IH]; intro a.
  - destruct kind; constructor; apply Good_nil.
  - destruct kind; unfold loop in *; cbn [trendLoop problemLoop].
    + apply (Leaves_try_catch _ (fun _ => True)); [apply (attempt_leaves Trend) |].
      intros e _. cbn [bind sync]. constructor. intros _.
      destruct (Nat.eqb a maxRetries).
      * cbn [bind sync openBreaker]. repeat (constructor; intros).
        apply (Good_fallback Trend).
      * cbn [bind await]. constructor. intros _ _. apply IH.
    + apply (Leaves_try_catch _ (fun _ => True)); [apply (attempt_leaves Problem) |].
      intros e _. cbn [bind sync]. constructor. intros _.
      destruct (Nat.eqb a maxRetries).
      * cbn [bind sync openBreaker]. repeat (constructor; intros).
        apply (Good_fallback Problem).
      * cbn [bind await]. constructor. intros _ _. apply IH.
Qed.

Lemma analyze_leaves (kind : Kind) (posts : list RedditPost) (limit : nat) :
  Leaves env (Good kind) (fun _ => False) (analyze kind posts limit).
Proof.
  destruct kind; unfold analyze.
  - unfold analyzeWithGemini, breakerBlocks. cbn [bind sync]. constructor. intros [|].
    + cbn [bind]. repeat (constructor; intros).
      destruct (_ <? _)%Z.
      * cbn [bind sync]. constructor. intros _. apply (fallback_leaves Trend).
      * apply (loop_leaves Trend).
    + apply (loop_leaves Trend).
  - unfold analyzeProblemsWithGemini, breakerBlocks. cbn [bind sync]. constructor.
    intros [|].
    + cbn [bind]. repeat (constructor; intros).
      destruct (_ <? _)%Z.
      * cbn [bind sync]. constructor. intros _. apply (fallback_leaves Problem).
      * apply (loop_leaves Problem).
    + apply (loop_leaves Problem).
Qed.

(** [analyzeTrends] and [analyzeProblems] throw nothing but the error of
    a rejected repository query. *)
Lemma analysis_leaves (kind : Kind) (days : number) :
  Leaves env (Good kind) (fetchFailure env) (analysis kind days).
Proof.
  destruct kind; unfold analysis.
  - rewrite analyzeTrends_shape. constructor. intros _. constructor. intro cutoff.
    constructor. intros r [w Hr]. cbn [io_step snd] in Hr.
    unfold trendsAfterFetch.
    apply (Leaves_try_catch _ (fetchFailure env)).
    + destruct r as [posts | e]; cbn [lift bind].
      * destruct (Nat.eqb _ 0).
        -- cbn [bind sync]. constructor. intros _. constructor. apply Good_nil.
        -- apply (Leaves_bind (Good Trend)).
           ++ apply (Leaves_weaken (Good Trend) _ (fun _ => False));
                [auto | intros e [] | apply (analyze_leaves Trend)].
           ++ intros l Hl. cbn [bind sync]. constructor. intros _. constructor. exact Hl.
      * constructor. exists (fetches w). exact Hr.
    + intros e He. cbn [bind sync]. constructor. intros _. constructor. exact He.
  - rewrite analyzeProblems_shape. constructor. intros _. constructor. intro cutoff.
    constructor. intros r [w Hr]. cbn [io_step snd] in Hr.
    unfold problemsAfterFetch.
    apply (Leaves_try_catch _ (fetchFailure env)).
    + destruct r as [posts | e]; cbn [lift bind].
      * destruct (Nat.eqb _ 0).
        -- cbn [bind sync]. constructor. intros _. constructor. apply Good_nil.
        -- apply (Leaves_bind (Good Problem)).
           ++ apply (Leaves_weaken (Good Problem) _ (fun _ => False));
                [auto | intros e [] | apply (analyze_leaves Problem)].
           ++ intros l Hl. cbn [bind sync]. constructor. intros _. constructor. exact Hl.
      * constructor. exists (fetches w). exact Hr.
    + intros e He. cbn [bind sync]. constructor. intros _. constructor. exact He.
Qed.

End Outcomes.


End Pipeline.



(** Every record is older than the cutoff. *)
Lemma empty_window_short_circuits_witness :
  exists w',
    generateReport staleEnv (of_Z 30) initial
    = (w', Ok (header (of_Z 30) ++ nothingFound ++ footer)%string)
    /\ calls w' = calls initial
    /\ circuitBreakerOpen w' = circuitBreakerOpen initial
    /\ circuitBreakerResetTime w' = circuitBreakerResetTime initial
    /\ observable (trace w')
       = (observable (trace initial) ++ [EFindAll 1000 0; EFindAll 1000 0])%list.
Proof.
  apply (empty_window_short_circuits staleEnv (of_Z 30) initial).
  intros i j. exists samplePosts. split; [reflexivity | vm_compute; reflexivity].
Defined.


(** The report for a window of thirty days. *)
Lemma report_blocks_witness :
  exists text,
    renderReport (of_Z 30) [] [] = Ok text
    /\ Str.includes text "No significant trends or problems identified in the current data."
       = true
    /\ forallb (fun line => negb (Text.numberedItem line)) (Text.lines text) = true.
Proof.
  destruct (report_blocks (of_Z 30)) as [(text & Hr & Hi & _ & Hl) _].
  exists text. auto.
Defined.

(** C10 as stated fails: the sentence of the report begins with a capital
    letter, so the report for two empty collections and a window of
    thirty days does not contain the literal of the claim. *)
Lemma lowercase_sentence_is_absent :
  exists text,
    renderReport (of_Z 30) [] [] = Ok text
    /\ Str.includes text "no significant trends or problems" = false.
Proof. eexists. split; [vm_compute; reflexivity | vm_compute; reflexivity]. Qed.

(** * Further properties of the service

    What the methods do beyond the cases above: how every invocation
    ends, what the prompt building, the decoding, the fallback analyzers
    and the renderer do at their edges, and what the callers of
    [generateReport] see. *)

Import Conduct.
Import Grammar.
Import Threshold.

Ltac bits c := destruct c as [[] [] [] [] [] [] [] []].

Lemma timeouts_app (a b : list Event) : timeouts (a ++ b) = (timeouts a ++ timeouts b)%list.
Proof. apply flat_map_app. Qed.

Lemma prompts_app (a b : list Event) : prompts (a ++ b) = (prompts a ++ prompts b)%list.
Proof. apply flat_map_app. Qed.

(** ** How an invocation ends *)

Section Invocations.

Variable env : Env.

(** X1. Every invocation of [analyzeWithGemini] or
    [analyzeProblemsWithGemini] returns a collection and ends in one of
    three ways.  It succeeds at attempt [k + 1] after [k <= 2] failed
    ones: the result is the decoded array, the flag is cleared and the
    reset time is left alone.  Or all attempts fail: the result is the
    fallback, the flag is set and the reset time is five minutes after
    the clock reading taken then.  Or the breaker refuses: the result is
    the fallback and neither a call nor a wait is made.  In every case at
    most three calls are made, all with the same prompt, and the waits
    are a prefix of 2000 ms, 4000 ms; the [return []] after the loop is
    never reached. *)
Theorem invocation_endings (kind : Kind) (posts : list RedditPost) (limit : nat) (w : World) :
  exists w' l k,
    run env (analyze kind posts limit) w = (w', Ok l)
    /\ k <= 2
    /\ timeouts (trace w') = (timeouts (trace w) ++ firstn k [2000; 4000]%Z)%list
    /\ calls w' <= calls w + maxRetries
    /\ (forall prompt, promptOf kind posts limit = Ok prompt ->
          prompts (trace w') = (prompts (trace w) ++ repeat prompt (calls w' - calls w))%list)
    /\ ((exists prompt v,
           promptOf kind posts limit = Ok prompt
           /\ decoded (gemini env (calls w + k) prompt) = Ok v
           /\ l = arrayOrEmpty v
           /\ calls w' = calls w + k + 1
           /\ circuitBreakerOpen w' = false
           /\ circuitBreakerResetTime w' = circuitBreakerResetTime w)
        \/ (unblocked env w = true
            /\ k = 2
            /\ l = fallbackOf kind posts
            /\ circuitBreakerOpen w' = true
            /\ circuitBreakerResetTime w'
               = (clock env (clockReads (entered w)) + circuitBreakerTimeout)%Z)
        \/ (unblocked env w = false
            /\ k = 0
            /\ l = fallbackOf kind posts
            /\ calls w' = calls w
            /\ circuitBreakerOpen w' = true
            /\ circuitBreakerResetTime w' = circuitBreakerResetTime w)).
Proof.
  rewrite run_analyze.
  destruct (unblocked env w) eqn:Hun.
  - change maxRetries with 3 at 1.
    rewrite run_loop_S, run_attempt.
    destruct (promptOf kind posts limit) as [prompt | e0] eqn:Hp.
    + cbn zeta. rewrite entered_calls.
      destruct (decoded (gemini env (calls w) prompt)) as [v | e1] eqn:E1.
      * eexists _, _, 0. split; [reflexivity |].
        cbn [trace calls circuitBreakerOpen circuitBreakerResetTime setOpen called record].
        rewrite entered_trace, entered_calls, entered_resetTime.
        rewrite !timeouts_app, !prompts_app.
        split; [lia |]. split; [destruct prompt; simpl; rewrite !app_nil_r; reflexivity |].
        split; [unfold maxRetries; lia |].
        split.
        -- intros p Hp'. inversion Hp'; subst p.
           replace (S (calls w) - calls w) with 1 by lia.
           destruct prompt; simpl; rewrite !app_nil_r; reflexivity.
        -- left. exists prompt, v. rewrite Nat.add_0_r. repeat split; auto. lia.
      * cbn zeta. change (Nat.eqb 1 maxRetries) with false. cbv iota.
        rewrite run_loop_S, run_attempt, Hp. cbn zeta.
        cbn [calls record called].
        rewrite entered_calls.
        destruct (decoded (gemini env (S (calls w)) prompt)) as [v | e2] eqn:E2.
        -- eexists _, _, 1. split; [reflexivity |].
           cbn [trace calls circuitBreakerOpen circuitBreakerResetTime setOpen called record].
           rewrite entered_trace, entered_calls, entered_resetTime.
           rewrite !timeouts_app, !prompts_app.
           split; [lia |].
           split; [destruct prompt, kind; simpl; rewrite ?app_nil_r, <- ?app_assoc; reflexivity |].
           split; [unfold maxRetries; lia |].
           split.
           ++ intros p Hp'. inversion Hp'; subst p.
              replace (S (S (calls w)) - calls w) with 2 by lia.
              destruct prompt, kind; simpl; rewrite ?app_nil_r, <- ?app_assoc; reflexivity.
           ++ left. exists prompt, v. rewrite Nat.add_1_r. repeat split; auto. lia.
        -- cbn zeta. change (Nat.eqb 2 maxRetries) with false. cbv iota.
           rewrite run_loop_S, run_attempt, Hp. cbn zeta.
           cbn [calls record called].
           rewrite entered_calls.
           destruct (decoded (gemini env (S (S (calls w))) prompt)) as [v | e3] eqn:E3.
           ++ eexists _, _, 2. split; [reflexivity |].
              cbn [trace calls circuitBreakerOpen circuitBreakerResetTime setOpen called record].
              rewrite entered_trace, entered_calls, entered_resetTime.
              rewrite !timeouts_app, !prompts_app.
              split; [lia |].
              split; [destruct prompt, kind; simpl; rewrite ?app_nil_r, <- ?app_assoc; reflexivity |].
              split; [unfold maxRetries; lia |].
              split.
              ** intros p Hp'. inversion Hp'; subst p.
                 replace (S (S (S (calls w))) - calls w) with 3 by lia.
                 destruct prompt, kind; simpl; rewrite ?app_nil_r, <- ?app_assoc; reflexivity.
              ** left. exists prompt, v.
                 replace (calls w + 2) with (S (S (calls w))) by lia.
                 repeat split; auto. lia.
           ++ cbn zeta. change (Nat.eqb 3 maxRetries) with true. cbv iota.
              eexists _, _, 2. split; [reflexivity |].
              unfold exhausted, opened.
              cbn [trace calls clockReads circuitBreakerOpen circuitBreakerResetTime
                   setOpen setResetTime tick called record].
              rewrite entered_trace, entered_calls.
              rewrite !timeouts_app, !prompts_app.
              split; [lia |].
              split; [destruct prompt, kind; simpl; rewrite ?app_nil_r, <- ?app_assoc; reflexivity |].
              split; [unfold maxRetries; lia |].
              split.
              ** intros p Hp'. inversion Hp'; subst p.
                 replace (S (S (S (calls w))) - calls w) with 3 by lia.
                 destruct prompt, kind; simpl; rewrite ?app_nil_r, <- ?app_assoc; reflexivity.
              ** right. left. repeat split.
    + cbn zeta. change (Nat.eqb 1 maxRetries) with false. cbv iota.
      rewrite run_loop_S, run_attempt, Hp.
      cbn zeta. change (Nat.eqb 2 maxRetries) with false. cbv iota.
      rewrite run_loop_S, run_attempt, Hp.
      cbn zeta. change (Nat.eqb 3 maxRetries) with true. cbv iota.
      eexists _, _, 2. split; [reflexivity |].
      unfold exhausted, opened.
      cbn [trace calls clockReads circuitBreakerOpen circuitBreakerResetTime
           setOpen setResetTime tick called record].
      rewrite entered_trace, entered_calls.
      rewrite !timeouts_app.
      split; [lia |].
      split; [destruct kind; simpl; rewrite ?app_nil_r, <- ?app_assoc; reflexivity |].
      split; [lia |].
      split; [intros p Hp'; discriminate |].
      right. left. repeat split.
  - eexists _, _, 0. split; [reflexivity |].
    unfold refused.
    cbn [trace calls clockReads circuitBreakerOpen circuitBreakerResetTime tick record].
    rewrite !timeouts_app, !prompts_app.
    split; [lia |].
    split; [destruct kind; simpl; rewrite ?app_nil_r; reflexivity |].
    split; [lia |].
    split.
    + intros p _. rewrite Nat.sub_diag. destruct kind; simpl; rewrite ?app_nil_r; reflexivity.
    + right. right. repeat split.
      unfold unblocked in Hun. apply Bool.negb_false_iff in Hun.
      apply Bool.andb_true_iff in Hun. tauto.
Qed.

End Invocations.

(** ** Records whose date cannot be printed *)

Lemma trendData_cons (post : RedditPost) (rest : list RedditPost) :
  trendData (post :: rest) =
  let t := mul (created_utc post) (of_Z 1000) in
  if validTime t then
    match trendData rest with
    | Ok ds =>
        Ok (mkTrendDatum (title post) (subreddit post) (score post)
              (num_comments post) t (body_prefix 200 post) :: ds)
    | Err e => Err e
    end
  else Err (mkError "RangeError" "Invalid time value").
Proof. reflexivity. Qed.

(** [postsData] is built exactly when every record has a printable date. *)
Lemma trendData_undatable (posts : list RedditPost) :
  match trendData posts with
  | Ok data => existsb undatable posts = false /\ List.length data = List.length posts
  | Err e => existsb undatable posts = true /\ e = mkError "RangeError" "Invalid time value"
  end.
Proof.
  induction posts as [| post posts IH].
  - split; reflexivity.
  - rewrite trendData_cons. cbn [existsb]. cbv zeta.
    assert (Hu : undatable post = negb (validTime (mul (created_utc post) (of_Z 1000))))
      by reflexivity.
    rewrite Hu. clear Hu.
    destruct (validTime (mul (created_utc post) (of_Z 1000))); cbn [negb orb].
    + destruct (trendData posts) as [data | e].
      * destruct IH as [IH1 IH2]. cbv iota beta.
        split; [exact IH1 | simpl; rewrite IH2; reflexivity].
      * exact IH.
    + cbv iota beta. split; reflexivity.
Qed.

Section Dates.

Variable env : Env.

(** X2. A record among the first [limit] whose [created_utc * 1000] is
    not a time value [toISOString] can print (NaN, an infinity, or beyond
    8.64e15 in magnitude) makes every attempt of the trend path throw
    while the prompt is built: no call is made, the loop still waits
    2000 ms and 4000 ms, then opens the breaker and returns the fallback
    insights.  The problem path, which sends no dates, builds its prompt
    from the same records. *)
Theorem undatable_record_exhausts_trend_path (posts : list RedditPost) (limit : nat) (w : World) :
  unblocked env w = true ->
  existsb undatable (firstn limit posts) = true ->
  exists w',
    run env (analyzeWithGemini posts limit) w = (w', Ok (fallbackOf Trend posts))
    /\ calls w' = calls w
    /\ observable (trace w')
       = (observable (trace w)
          ++ [ETimeout 2000; ETimeout 4000; ESetOpen true;
              ESetResetTime (clock env (clockReads (entered w)) + 300000)])%list
    /\ circuitBreakerOpen w' = true
    /\ circuitBreakerResetTime w' = (clock env (clockReads (entered w)) + 300000)%Z
    /\ exists prompt, promptOf Problem posts limit = Ok prompt.
Proof.
  intros Hun Hbad.
  assert (Hp : promptOf Trend posts limit = Err (mkError "RangeError" "Invalid time value")).
  { unfold promptOf. pose proof (trendData_undatable (firstn limit posts)) as H.
    destruct (trendData (firstn limit posts)) as [data | e].
    - destruct H as [H _]. congruence.
    - destruct H as [_ ->]. reflexivity. }
  change (analyzeWithGemini posts limit) with (analyze Trend posts limit).
  rewrite run_analyze, Hun.
  change maxRetries with 3 at 1.
  rewrite run_loop_S, run_attempt, Hp.
  cbn zeta. change (Nat.eqb 1 maxRetries) with false. cbv iota.
  rewrite run_loop_S, run_attempt, Hp.
  cbn zeta. change (Nat.eqb 2 maxRetries) with false. cbv iota.
  rewrite run_loop_S, run_attempt, Hp.
  cbn zeta. change (Nat.eqb 3 maxRetries) with true. cbv iota.
  eexists. split; [reflexivity |].
  unfold exhausted, opened.
  cbn [trace calls clockReads circuitBreakerOpen circuitBreakerResetTime
       setOpen setResetTime tick called record].
  rewrite entered_trace, entered_calls, !observable_app.
  split; [reflexivity |].
  split; [simpl; rewrite ?app_nil_r, <- ?app_assoc; reflexivity |].
  split; [reflexivity |]. split; [reflexivity |].
  eexists. reflexivity.
Qed.

End Dates.

(** ** What a decodable text ends in *)

Section Parser.

Lemma append_cons (c : ascii) (a b : string) : String c a ++ b = String c (a ++ b).
Proof. reflexivity. Qed.

Lemma app_String (a : string) (c : ascii) (b : string) :
  a ++ String c b = (a ++ String c "") ++ b.
Proof. rewrite append_assoc. reflexivity. Qed.

Lemma endsBefore_app (p s r : string) : endsBefore s r -> endsBefore (p ++ s) r.
Proof.
  intros (pre & c & -> & Hc). exists (p ++ pre), c. rewrite append_assoc. auto.
Qed.

Lemma endsBefore_cons (x : ascii) (s r : string) : endsBefore s r -> endsBefore (String x s) r.
Proof. apply (endsBefore_app (String x "")). Qed.

Lemma skip_ws_suffix (s : string) : exists ws, s = ws ++ skip_ws s.
Proof.
  induction s as [| c s [ws IH]]; [exists ""; reflexivity |].
  cbn [skip_ws]. destruct (is_ws c).
  - exists (String c ws). rewrite append_cons, <- IH. reflexivity.
  - exists "". reflexivity.
Qed.

Lemma endsBefore_skip_ws (s r : string) : endsBefore (skip_ws s) r -> endsBefore s r.
Proof.
  intro H. destruct (skip_ws_suffix s) as [ws Hs]. rewrite Hs. apply endsBefore_app. exact H.
Qed.

Lemma take_digits_spec (s : string) :
  forall acc cnt v cnt' r,
    take_digits acc cnt s = (v, cnt', r) ->
    (cnt' = cnt /\ r = s) \/ (cnt < cnt' /\ exists pre c, s = pre ++ String c r /\ is_digit c = true).
Proof.
  induction s as [| c s IH]; intros acc cnt v cnt' r; cbn [take_digits].
  - intro H. inversion H. left. auto.
  - destruct (is_digit c) eqn:Ec.
    + intro H. right. destruct (IH _ _ _ _ _ H) as [[Hc Hr] | [Hc (pre & d & Hs & Hd)]].
      * subst. split; [lia |]. exists "", c. auto.
      * split; [lia |]. exists (String c pre), d. rewrite Hs, append_cons. auto.
    + intro H. inversion H. left. auto.
Qed.

Lemma digit_valueEnd (c : ascii) : is_digit c = true -> valueEnd c = true.
Proof. intro H. unfold valueEnd. rewrite H. reflexivity. Qed.

Lemma parse_chars_spec (fuel : nat) :
  forall s t r, parse_chars fuel s = Some (t, r) -> exists pre, s = pre ++ String dquote r.
Proof.
  induction fuel as [| fuel IH]; intros s t r; cbn [parse_chars]; [discriminate |].
  destruct s as [| c s]; [discriminate |].
  destruct (Ascii.eqb c dquote) eqn:Eq.
  - apply Ascii.eqb_eq in Eq. subst c. intro H. inversion H. exists "". reflexivity.
  - assert (Hrest : forall s1 t0, match parse_chars fuel s1 with
                                   | Some (t1, r') => Some (t0 t1, r')
                                   | None => None
                                   end = Some (t, r) ->
                                   exists pre, s1 = pre ++ String dquote r).
    { intros s1 t0. destruct (parse_chars fuel s1) as [[t1 r'] |] eqn:E; [| discriminate].
      intro H. inversion H. subst. exact (IH _ _ _ E). }
    destruct (Ascii.eqb c backslash).
    + destruct s as [| e s1]; [discriminate |].
      assert (Hesc : match escape_char e with
                     | Some x =>
                         match parse_chars fuel s1 with
                         | Some (t0, r') => Some (String x t0, r')
                         | None => None
                         end
                     | None => None
                     end = Some (t, r) -> exists pre, String c (String e s1) = pre ++ String dquote r).
      { destruct (escape_char e) as [x |]; [| discriminate].
        intro H. destruct (Hrest s1 (String x) H) as [pre Hpre].
        exists (String c (String e pre)). rewrite Hpre. reflexivity. }
      bits e; try exact Hesc.
      destruct s1 as [| a [| b [| c0 [| d r1]]]]; try exact Hesc.
      destruct (hex_val a), (hex_val b), (hex_val c0), (hex_val d); try discriminate.
      intro H. destruct (Hrest r1 _ H) as [pre Hpre].
      exists (String c (String "u" (String a (String b (String c0 (String d pre)))))).
      rewrite Hpre. reflexivity.
    + destruct (Nat.ltb (nat_of_ascii c) 32); [discriminate |].
      intro H. destruct (Hrest s _ H) as [pre Hpre].
      exists (String c pre). rewrite Hpre. reflexivity.
Qed.

Lemma parse_number_stages (s : string) :
  parse_number s =
  let '(neg, s1) := number_sign s in
  match number_int s1 with
  | None => None
  | Some (iv, s2) =>
      match number_frac iv s2 with
      | None => None
      | Some (m, fcnt, s3) =>
          match number_exp s3 with
          | None => None
          | Some (e, s4) =>
              Some (if (m =? 0)%Z then S754_zero neg
                    else let v := of_decimal m (e - Z.of_nat fcnt) in
                         if neg then SFopp v else v,
                    s4)
          end
      end
  end.
Proof. reflexivity. Qed.

Lemma digitBefore_trans (s s2 s3 : string) :
  digitBefore s s2 -> s3 = s2 \/ digitBefore s2 s3 -> digitBefore s s3.
Proof.
  intros (pre & d & -> & Hd) [-> | (pre' & d' & -> & Hd')].
  - exists pre, d. auto.
  - exists (pre ++ String d pre'), d'. rewrite append_assoc, append_cons. auto.
Qed.

Lemma digitBefore_cons (c : ascii) (s r : string) : digitBefore s r -> digitBefore (String c s) r.
Proof. intros (pre & d & -> & Hd). exists (String c pre), d. auto. Qed.

Lemma take_digits_digitBefore (acc : Z) (s : string) (v : Z) (cnt : nat) (r : string) :
  take_digits acc 0 s = (v, cnt, r) -> Nat.eqb cnt 0 = false -> digitBefore s r.
Proof.
  intros H Hc. destruct (take_digits_spec _ _ _ _ _ _ H) as [[-> _] | [_ Hd]].
  - discriminate.
  - exact Hd.
Qed.

Lemma number_int_spec (s1 : string) (iv : Z) (s2 : string) :
  number_int s1 = Some (iv, s2) -> digitBefore s1 s2.
Proof.
  destruct s1 as [| c r]; [discriminate |].
  assert (Hgen : (if is_digit c then
                    let '(v, _, r0) := take_digits 0 0 (String c r) in Some (v, r0)
                  else None) = Some (iv, s2) -> digitBefore (String c r) s2).
  { destruct (is_digit c) eqn:Ec; [| discriminate].
    destruct (take_digits 0 0 (String c r)) as [[v cnt] r0] eqn:Et.
    intro H. inversion H. subst.
    cbn [take_digits] in Et. rewrite Ec in Et.
    destruct (take_digits_spec _ _ _ _ _ _ Et) as [[_ Hr] | [_ (pre & d & Hs & Hd)]].
    - subst. exists "", c. auto.
    - exists (String c pre), d. rewrite Hs. auto. }
  bits c; try exact Hgen.
  intro H. inversion H. subst. exists "", "0"%char. auto.
Qed.

Lemma number_frac_spec (iv : Z) (s2 : string) (m : Z) (fcnt : nat) (s3 : string) :
  number_frac iv s2 = Some (m, fcnt, s3) -> s3 = s2 \/ digitBefore s2 s3.
Proof.
  destruct s2 as [| c r]; [intro H; inversion H; auto |].
  bits c; try (intro H; inversion H; left; reflexivity).
  cbn [number_frac].
  destruct (take_digits iv 0 r) as [[v cnt] r'] eqn:Et.
  destruct (Nat.eqb cnt 0) eqn:Ec; [discriminate |].
  intro H. inversion H. subst. right.
  apply digitBefore_cons. exact (take_digits_digitBefore _ _ _ _ _ Et Ec).
Qed.

Lemma number_exp_spec (s3 : string) (e : Z) (s4 : string) :
  number_exp s3 = Some (e, s4) -> s4 = s3 \/ digitBefore s3 s4.
Proof.
  destruct s3 as [| c r]; [intro H; inversion H; auto |].
  cbn [number_exp].
  destruct (Ascii.eqb c "e" || Ascii.eqb c "E"); [| intro H; inversion H; auto].
  assert (Hgen : forall eneg r1,
             (exists p, r = p ++ r1) ->
             (let '(ev, cnt, r2) := take_digits 0 0 r1 in
              if Nat.eqb cnt 0 then None else Some ((if eneg : bool then - ev else ev)%Z, r2))
             = Some (e, s4) ->
             String c r = s4 \/ digitBefore (String c r) s4).
  { intros eneg r1 [p Hp].
    destruct (take_digits 0 0 r1) as [[ev cnt] r2] eqn:Et.
    destruct (Nat.eqb cnt 0) eqn:Ec; [discriminate |].
    intro H. inversion H. subst. right.
    destruct (take_digits_digitBefore _ _ _ _ _ Et Ec) as (pre & d & Hs & Hd).
    exists (String c (p ++ pre)), d. rewrite Hs, append_cons, append_assoc. auto. }
  intro H.
  assert (Hor : String c r = s4 \/ digitBefore (String c r) s4).
  { destruct r as [| c1 r'].
    - apply (Hgen false ""); [exists ""; reflexivity | exact H].
    - revert H. bits c1;
        try (apply (Hgen false (String _ r')); exists ""; reflexivity).
      + apply (Hgen false r'). exists "+". reflexivity.
      + apply (Hgen true r'). exists "-". reflexivity. }
  destruct Hor as [Heq | Hd]; [left; symmetry; exact Heq | right; exact Hd].
Qed.

Lemma parse_number_spec (s : string) (x : number) (r : string) :
  parse_number s = Some (x, r) -> endsBefore s r.
Proof.
  rewrite parse_number_stages.
  assert (Hsign : exists p, s = p ++ snd (number_sign s)).
  { destruct s as [| c s']; [exists ""; reflexivity |].
    bits c; try (exists ""; reflexivity). exists "-". reflexivity. }
  destruct (number_sign s) as [neg s1]. cbn [snd] in Hsign. destruct Hsign as [p Hp].
  destruct (number_int s1) as [[iv s2] |] eqn:Ei; [| discriminate].
  destruct (number_frac iv s2) as [[[m fcnt] s3] |] eqn:Ef; [| discriminate].
  destruct (number_exp s3) as [[e s4] |] eqn:Ee; [| discriminate].
  intro H. inversion H. subst s4.
  assert (Hd : digitBefore s1 r).
  { apply (digitBefore_trans s1 s3 r).
    - apply (digitBefore_trans s1 s2 s3); [exact (number_int_spec _ _ _ Ei) |].
      exact (number_frac_spec _ _ _ _ _ Ef).
    - exact (number_exp_spec _ _ _ Ee). }
  destruct Hd as (pre & d & Hs & Hdig).
  exists (p ++ pre), d. rewrite Hp, Hs, append_assoc.
  split; [reflexivity | apply digit_valueEnd; exact Hdig].
Qed.

Lemma skip_ws_eq (s : string) (c : ascii) (r : string) :
  skip_ws s = String c r -> exists ws, s = ws ++ String c r.
Proof. intro H. destruct (skip_ws_suffix s) as [ws Hs]. rewrite H in Hs. eauto. Qed.

Lemma endsBefore_then (s r : string) (p : string) (c : ascii) (r' : string) :
  endsBefore s r -> r = p ++ String c r' -> valueEnd c = true -> endsBefore s r'.
Proof.
  intros (pre & d & -> & _) -> Hc.
  exists (pre ++ String d p), c. rewrite append_assoc, append_cons. auto.
Qed.

Lemma endsBefore_past (s r : string) (p r' r'' : string) :
  endsBefore s r -> r = p ++ r' -> endsBefore r' r'' -> endsBefore s r''.
Proof.
  intros (pre & d & -> & _) -> H.
  rewrite app_String, <- append_assoc. apply endsBefore_app. exact H.
Qed.

Lemma prefix_endsBefore (lit : string) (c : ascii) (s : string) :
  prefix (lit ++ String c "") s = true -> valueEnd c = true ->
  endsBefore s (Str.drop (String.length (lit ++ String c "")) s).
Proof.
  intros Hp Hc. apply prefix_app in Hp. destruct Hp as [suf ->].
  exists lit, c. split; [| exact Hc].
  rewrite append_assoc. f_equal. 
  assert (Hd : forall a b, Str.drop (String.length a) (a ++ b) = b).
  { induction a as [| x a IH]; intro b; [destruct b; reflexivity |].
    rewrite append_cons. cbn [String.length Str.drop]. apply IH. }
  rewrite <- append_assoc. rewrite Hd. reflexivity.
Qed.

(** What the parser leaves unread comes right after a character a JSON
    text can end in. *)
Lemma parse_value_spec (fuel : nat) :
  (forall s v r, parse_value fuel s = Some (v, r) -> endsBefore s r)
  /\ (forall s vs r, parse_elems fuel s = Some (vs, r) -> endsBefore s r)
  /\ (forall acc s ps r, parse_members fuel acc s = Some (ps, r) -> endsBefore s r).
Proof.
  induction fuel as [| fuel (IHv & IHe & IHm)];
    [repeat split; intros; discriminate |].
  split; [| split].
  - intros s v r. cbn [parse_value]. intro H. apply endsBefore_skip_ws. revert H.
    generalize (skip_ws s). clear s. intro s.
    destruct (prefix "null" s) eqn:En.
    { intro H. inversion H. subst. exact (prefix_endsBefore "nul" "l" s En eq_refl). }
    destruct (prefix "true" s) eqn:Et.
    { intro H. inversion H. subst. exact (prefix_endsBefore "tru" "e" s Et eq_refl). }
    destruct (prefix "false" s) eqn:Ef.
    { intro H. inversion H. subst. exact (prefix_endsBefore "fals" "e" s Ef eq_refl). }
    destruct s as [| c r0]; [discriminate |].
    assert (Hgen : (if Ascii.eqb c dquote
                    then match parse_chars (S (String.length r0)) r0 with
                         | Some (t, r') => Some (VStr t, r')
                         | None => None
                         end
                    else match parse_number (String c r0) with
                         | Some (x, r1) => Some (VNum x, r1)
                         | None => None
                         end) = Some (v, r) -> endsBefore (String c r0) r).
    { destruct (Ascii.eqb c dquote).
      - destruct (parse_chars _ r0) as [[t r'] |] eqn:Ec; [| discriminate].
        intro H. inversion H. subst.
        destruct (parse_chars_spec _ _ _ _ Ec) as [pre ->].
        exists (String c pre), dquote. auto.
      - destruct (parse_number (String c r0)) as [[x r1] |] eqn:Ec; [| discriminate].
        intro H. inversion H. subst. exact (parse_number_spec _ _ _ Ec). }
    assert (Helems : match parse_elems fuel r0 with
                     | Some (vs, r') => Some (VArr vs, r')
                     | None => None
                     end = Some (v, r) -> endsBefore (String "[" r0) r).
    { destruct (parse_elems fuel r0) as [[vs r'] |] eqn:Ee; [| discriminate].
      intro H. inversion H. subst. apply endsBefore_cons. exact (IHe _ _ _ Ee). }
    assert (Hmembers : match parse_members fuel [] r0 with
                       | Some (ps, r') => Some (VObj ps, r')
                       | None => None
                       end = Some (v, r) -> endsBefore (String "{" r0) r).
    { destruct (parse_members fuel [] r0) as [[ps r'] |] eqn:Ee; [| discriminate].
      intro H. inversion H. subst. apply endsBefore_cons. exact (IHm _ _ _ _ Ee). }
    bits c; try exact Hgen;
      (destruct (skip_ws r0) as [| c1 r1] eqn:Es; [first [exact Helems | exact Hmembers] |]);
      (bits c1; try exact Helems; try exact Hmembers);
      intro H; inversion H; subst;
      destruct (skip_ws_eq _ _ _ Es) as [ws ->];
      first [ exists (String "[" ws), "]"%char; split; reflexivity
            | exists (String "{" ws), "}"%char; split; reflexivity ].
  - intros s vs r. cbn [parse_elems].
    destruct (parse_value fuel s) as [[v r0] |] eqn:Ev; [| discriminate].
    pose proof (IHv _ _ _ Ev) as Hv.
    destruct (skip_ws r0) as [| c1 r1] eqn:Es; [discriminate |].
    destruct (skip_ws_eq _ _ _ Es) as [ws Hws].
    assert (Hcomma : match parse_elems fuel r1 with
                     | Some (vs0, r'') => Some (v :: vs0, r'')
                     | None => None
                     end = Some (vs, r) -> endsBefore r1 r).
    { destruct (parse_elems fuel r1) as [[vs' r''] |] eqn:Ee; [| discriminate].
      intro H. inversion H. subst r''. exact (IHe _ _ _ Ee). }
    bits c1; try discriminate; intro H;
      first [ apply Hcomma in H;
              apply (endsBefore_past s r0 (ws ++ ",") r1 r Hv); [| exact H];
              rewrite Hws, append_assoc; reflexivity
            | inversion H; subst r1;
              exact (endsBefore_then s r0 ws "]" r Hv Hws eq_refl) ].
  - intros acc s ps r. cbn [parse_members].
    destruct (skip_ws s) as [| c r0] eqn:Es0; [discriminate |].
    destruct (skip_ws_eq _ _ _ Es0) as [ws0 Hs0].
    destruct (negb (Ascii.eqb c dquote)); [discriminate |].
    destruct (parse_chars (S (String.length r0)) r0) as [[k r1] |] eqn:Ek; [| discriminate].
    destruct (parse_chars_spec _ _ _ _ Ek) as [pk Hk].
    destruct (skip_ws r1) as [| c1 r2] eqn:Es1; [discriminate |].
    destruct (skip_ws_eq _ _ _ Es1) as [ws1 Hs1].
    assert (Hcolon : forall r2',
               match parse_value fuel r2' with
               | Some (v, r3) =>
                   match skip_ws r3 with
                   | String "}" r4 => Some (set k v acc, r4)
                   | String "," r4 => parse_members fuel (set k v acc) r4
                   | _ => None
                   end
               | None => None
               end = Some (ps, r) -> endsBefore r2' r).
    { intro r2'.
      destruct (parse_value fuel r2') as [[v r3] |] eqn:Ev; [| discriminate].
      pose proof (IHv _ _ _ Ev) as Hv.
      destruct (skip_ws r3) as [| c3 r4] eqn:Es3; [discriminate |].
      destruct (skip_ws_eq _ _ _ Es3) as [ws3 Hs3].
      bits c3; try discriminate; intro H;
        first [ apply (endsBefore_past r2' r3 (ws3 ++ ",") r4 r Hv);
                [rewrite Hs3, append_assoc; reflexivity | exact (IHm _ _ _ _ H)]
              | inversion H; subst r4;
                exact (endsBefore_then r2' r3 ws3 "}" r Hv Hs3 eq_refl) ]. }
    bits c1; try discriminate.
    intro H. apply Hcolon in H.
    rewrite Hs0, Hk, Hs1.
    apply endsBefore_app. apply endsBefore_cons. apply endsBefore_app.
    apply endsBefore_cons. apply endsBefore_app. apply endsBefore_cons. exact H.
Qed.

End Parser.

(** ** The fences around a response *)

Section Fences.

Lemma lastThat_app (p : ascii -> bool) (a b : string) :
  lastThat p (a ++ b) =
  match lastThat p b with
  | Some d => Some d
  | None => lastThat p a
  end.
Proof.
  induction a as [| c a IH];
    [change ("" ++ b) with b; destruct (lastThat p b); reflexivity |].
  rewrite append_cons. cbn [lastThat]. rewrite IH.
  destruct (lastThat p b); reflexivity.
Qed.

Lemma lastThat_none (p : ascii -> bool) (s : string) :
  Text.allChars (fun c => negb (p c)) s = true -> lastThat p s = None.
Proof.
  induction s as [| c s IH]; [reflexivity |].
  cbn [Text.allChars lastThat]. intro H. apply Bool.andb_true_iff in H.
  destruct H as [Hc Hs]. rewrite (IH Hs). apply Bool.negb_true_iff in Hc. rewrite Hc.
  reflexivity.
Qed.

Lemma lastThat_passes (p : ascii -> bool) (s : string) (d : ascii) :
  lastThat p s = Some d -> p d = true.
Proof.
  induction s as [| c s IH]; [discriminate |].
  cbn [lastThat]. destruct (lastThat p s) as [d' |].
  - intro H. inversion H. subst. apply IH. reflexivity.
  - destruct (p c) eqn:E; intro H; inversion H. subst. exact E.
Qed.

Lemma lastThat_allChars (p ok : ascii -> bool) (s : string) (d : ascii) :
  Text.allChars ok s = true -> lastThat p s = Some d -> ok d = true.
Proof.
  induction s as [| c s IH]; [discriminate |].
  cbn [Text.allChars lastThat]. intro H. apply Bool.andb_true_iff in H. destruct H as [Hc Hs].
  destruct (lastThat p s) as [d' |].
  - intro H. inversion H. subst. apply IH; auto.
  - destruct (p c); intro H; inversion H. subst. exact Hc.
Qed.

Lemma lastChar_solid (s : string) (d : ascii) :
  lastChar s = Some d -> is_ws d = false -> lastSolid s = Some d.
Proof.
  unfold lastChar, lastSolid. induction s as [| c s IH]; [discriminate |].
  cbn [lastThat]. destruct (lastThat (fun _ => true) s) as [d' |] eqn:E.
  - intros H Hd. inversion H. subst. rewrite (IH eq_refl Hd). reflexivity.
  - intros H Hd. inversion H. subst.
    assert (Hs : s = "") by (destruct s; [reflexivity | simpl in E; destruct (lastThat _ s); discriminate]).
    subst s. cbn [lastThat]. rewrite Hd. reflexivity.
Qed.

Lemma lastChar_drop (n : nat) :
  forall s d, lastChar (Str.drop n s) = Some d -> lastChar s = Some d.
Proof.
  unfold lastChar. induction n as [| n IH]; intros s d; [destruct s; auto |].
  destruct s as [| c s]; [auto |].
  cbn [Str.drop lastThat]. intro H. rewrite (IH _ _ H). reflexivity.
Qed.

Lemma skip_ws_none (s : string) : skip_ws s = "" -> lastSolid s = None.
Proof.
  unfold lastSolid. induction s as [| c s IH]; [reflexivity |].
  cbn [skip_ws lastThat]. destruct (is_ws c); [| discriminate].
  intro H. rewrite (IH H). reflexivity.
Qed.

Lemma valueEnd_solid (c : ascii) : valueEnd c = true -> is_ws c = false.
Proof. bits c; try discriminate; reflexivity. Qed.

(** A text [JSON.parse] accepts ends, white space aside, in a character a
    value can end in. *)
Lemma JSON_parse_lastSolid (text : string) (v : JsValue) :
  JSON_parse text = Some v -> exists c, lastSolid text = Some c /\ valueEnd c = true.
Proof.
  unfold JSON_parse.
  destruct (parse_value _ text) as [[v' r] |] eqn:Ev; [| discriminate].
  destruct (skip_ws r) eqn:Er; [| discriminate]. intros _.
  destruct (parse_value_spec (2 * String.length text + 2)) as [Hv _].
  destruct (Hv _ _ _ Ev) as (pre & c & -> & Hc).
  exists c. split; [| exact Hc].
  unfold lastSolid. rewrite lastThat_app. cbn [lastThat].
  fold (lastSolid r). rewrite (skip_ws_none r Er), (valueEnd_solid c Hc). reflexivity.
Qed.

Lemma length_append (a b : string) :
  String.length (a ++ b) = String.length a + String.length b.
Proof.
  induction a as [| c a IH]; [reflexivity |].
  rewrite append_cons. cbn [String.length]. rewrite IH. reflexivity.
Qed.

Lemma drop_append (a b : string) : Str.drop (String.length a) (a ++ b) = b.
Proof.
  induction a as [| x a IH]; [destruct b; reflexivity |].
  rewrite append_cons. cbn [String.length Str.drop]. apply IH.
Qed.

Lemma substring_append (a b : string) : substring 0 (String.length a) (a ++ b) = a.
Proof.
  induction a as [| x a IH]; [destruct b; reflexivity |].
  rewrite append_cons. cbn [String.length substring]. rewrite IH. reflexivity.
Qed.

Lemma prefix_append (a b : string) : prefix a (a ++ b) = true.
Proof. apply prefix_app. exists b. reflexivity. Qed.

Lemma endsWith_append (a suf : string) : Str.endsWith (a ++ suf) suf = true.
Proof.
  unfold Str.endsWith. rewrite length_append.
  replace (String.length a + String.length suf - String.length suf) with (String.length a)
    by lia.
  rewrite drop_append, String.eqb_refl.
  rewrite Bool.andb_true_r. apply Nat.leb_le. lia.
Qed.

Lemma endsWith_lastChar (s suf : string) (d : ascii) :
  Str.endsWith s suf = true -> lastChar suf = Some d -> lastChar s = Some d.
Proof.
  unfold Str.endsWith. intros H Hd. apply Bool.andb_true_iff in H. destruct H as [_ H].
  apply String.eqb_eq in H. apply (lastChar_drop (String.length s - String.length suf)).
  rewrite H. exact Hd.
Qed.

Lemma skip_spaces_append (ws b : string) :
  Text.allChars Str.is_space ws = true -> Str.skip_spaces (ws ++ b) = Str.skip_spaces b.
Proof.
  induction ws as [| c ws IH]; [reflexivity |].
  cbn [Text.allChars]. intro H. apply Bool.andb_true_iff in H. destruct H as [Hc Hs].
  rewrite append_cons. cbn [Str.skip_spaces]. rewrite Hc. apply IH. exact Hs.
Qed.

Lemma skip_spaces_solid (b x : string) :
  b <> "" -> beginsWithSpace b = false -> Str.skip_spaces (b ++ x) = b ++ x.
Proof.
  destruct b as [| c b]; [congruence |]. intros _ H. cbn [beginsWithSpace] in H.
  rewrite append_cons. cbn [Str.skip_spaces]. rewrite H. reflexivity.
Qed.

(** Removing the opening fence leaves whatever ends the text in place. *)
Lemma skip_spaces_keeps (z : string) (c : ascii) (t : string) :
  Str.is_space c = false ->
  exists y, Str.skip_spaces (z ++ String c t) = y ++ String c t.
Proof.
  intro Hc. induction z as [| x z [y IH]].
  - exists "". change ("" ++ String c t) with (String c t).
    cbn [Str.skip_spaces]. rewrite Hc. reflexivity.
  - rewrite append_cons. cbn [Str.skip_spaces]. destruct (Str.is_space x).
    + exists y. exact IH.
    + exists (String x z). reflexivity.
Qed.

Lemma is_ws_is_space (c : ascii) : is_ws c = true -> Str.is_space c = true.
Proof. bits c; try discriminate; reflexivity. Qed.

(** The text that follows the opening fence, when the whole ends in a
    back-tick and white space. *)
Lemma after_opening_fence (u body tail : string) :
  Str.fence_open ++ u = body ++ String "`" tail ->
  Text.allChars is_ws tail = true ->
  exists z, u = z ++ String "`" tail.
Proof.
  intros H Ht. unfold Str.fence_open in H.
  do 7 (destruct body as [| ? body];
        [ change ("" ++ String "`" tail) with (String "`" tail) in H;
          inversion H; subst; cbn in Ht; discriminate
        | rewrite append_cons in H; inversion H; subst; clear H;
          match goal with H' : _ = body ++ _ |- _ => rename H' into H end ]).
  exists body. exact H.
Qed.

Lemma closing_fence_stays (text body tail : string) (c : ascii) :
  text = body ++ String "`" (String c tail) ->
  Text.allChars is_ws (String c tail) = true ->
  exists y, Str.strip_fence text = y ++ String "`" (String c tail).
Proof.
  intros Htext Hws.
  assert (Hrest : exists y,
             (if prefix Str.fence_open text
              then Str.skip_spaces (Str.drop (String.length Str.fence_open) text)
              else text) = y ++ String "`" (String c tail)).
  { destruct (prefix Str.fence_open text) eqn:Ep.
    - apply prefix_app in Ep. destruct Ep as [u Hu].
      rewrite Hu, drop_append.
      rewrite Hu in Htext.
      destruct (after_opening_fence u body (String c tail) Htext Hws) as [z ->].
      apply skip_spaces_keeps. reflexivity.
    - exists body. exact Htext. }
  destruct Hrest as [y Hy]. exists y.
  unfold Str.strip_fence. rewrite Hy.
  destruct (Str.endsWith (y ++ String "`" (String c tail)) Str.fence_close) eqn:Ee;
    [| reflexivity].
  exfalso.
  pose proof (endsWith_lastChar _ _ "`"%char Ee eq_refl) as Hl.
  unfold lastChar in Hl. rewrite lastThat_app in Hl.
  change (lastThat (fun _ => true) (String "`" (String c tail)))
    with (match lastThat (fun _ => true) (String c tail) with
          | Some d => Some d
          | None => Some "`"%char
          end) in Hl.
  destruct (lastThat (fun _ => true) (String c tail)) as [d |] eqn:Ed.
  - inversion Hl. subst d.
    pose proof (lastThat_allChars _ _ _ _ Hws Ed) as Hd. discriminate.
  - cbn [lastThat] in Ed. destruct (lastThat (fun _ => true) tail); discriminate.
Qed.

(** X4. A response in which anything follows the closing fence, be it
    a single line break, is never decoded: [$] matches at the very end of
    the text only, so the fence stays, and no JSON text ends in a
    back-tick.  The attempt fails with a [SyntaxError] whatever stands
    before the fence. *)
Theorem text_after_closing_fence (body tail : string) (c : ascii) :
  Text.allChars is_ws (String c tail) = true ->
  JSON_parse (Str.strip_fence (body ++ "```" ++ String c tail)) = None
  /\ decoded (Ok (body ++ "```" ++ String c tail)) = Err syntaxError.
Proof.
  intro Hws. set (text := body ++ "```" ++ String c tail).
  assert (Hnone : JSON_parse (Str.strip_fence text) = None).
  { destruct (closing_fence_stays text (body ++ "``") tail c) as [y Hy].
    - unfold text. rewrite append_assoc. reflexivity.
    - exact Hws.
    - destruct (JSON_parse (Str.strip_fence text)) as [v |] eqn:Ev; [| reflexivity].
      exfalso. destruct (JSON_parse_lastSolid _ _ Ev) as (d & Hd & Hend).
      rewrite Hy in Hd. unfold lastSolid in Hd. rewrite lastThat_app in Hd.
      assert (Hs : lastThat (fun c0 => negb (is_ws c0)) (String "`" (String c tail))
                   = Some "`"%char).
      { change (lastThat (fun c0 => negb (is_ws c0)) (String "`" (String c tail)))
          with (match lastThat (fun c0 => negb (is_ws c0)) (String c tail) with
                | Some d => Some d
                | None => Some "`"%char
                end).
        rewrite lastThat_none; [reflexivity |].
        apply (allChars_weaken is_ws); [| exact Hws].
        intros x Hx. rewrite Hx. reflexivity. }
      rewrite Hs in Hd. inversion Hd. subst d. discriminate. }
  split; [exact Hnone |]. unfold decoded. rewrite Hnone. reflexivity.
Qed.

Lemma JSON_parse_nonempty (v : JsValue) : JSON_parse "" <> Some v.
Proof. vm_compute. discriminate. Qed.

Lemma bare_text_is_kept (body : string) (v : JsValue) :
  JSON_parse body = Some v -> beginsWithSpace body = false ->
  prefix Str.fence_open body = false /\ Str.endsWith body Str.fence_close = false.
Proof.
  intros Hv Hb. split.
  - destruct (prefix Str.fence_open body) eqn:Ep; [| reflexivity].
    exfalso. apply prefix_app in Ep. destruct Ep as [u ->].
    unfold JSON_parse in Hv.
    change (parse_value (2 * String.length (Str.fence_open ++ u) + 2) (Str.fence_open ++ u))
      with (parse_value (S (2 * String.length (Str.fence_open ++ u) + 1))
                        (Str.fence_open ++ u)) in Hv.
    revert Hv. generalize (2 * String.length (Str.fence_open ++ u) + 1). intro n.
    cbn. discriminate.
  - destruct (Str.endsWith body Str.fence_close) eqn:Ee; [| reflexivity].
    exfalso. pose proof (endsWith_lastChar _ _ "`"%char Ee eq_refl) as Hl.
    apply lastChar_solid in Hl; [| reflexivity].
    destruct (JSON_parse_lastSolid _ _ Hv) as (d & Hd & Hend).
    rewrite Hl in Hd. inversion Hd. subst d. discriminate.
Qed.

Lemma asciiWhiteSpace_is_space (c : ascii) :
  asciiWhiteSpace c = true -> Str.is_space c = true.
Proof.
  unfold asciiWhiteSpace. cbn [existsb]. intro H.
  repeat (apply orb_true_iff in H;
          destruct H as [H | H]; [apply Ascii.eqb_eq in H; subst c; reflexivity |]).
  discriminate.
Qed.

(** X3. Either fence may be there or not.  A text that [JSON.parse]
    accepts and that does not begin with white space decodes to the same
    value bare, wrapped in an opening fence followed by any run of ASCII
    white space (tabs, line feeds, vertical tabs, form feeds, carriage
    returns, spaces) and a closing fence, with the opening fence alone,
    or with the closing fence alone. *)
Theorem fences_are_optional (body ws : string) (v : JsValue) :
  JSON_parse body = Some v ->
  beginsWithSpace body = false ->
  Text.allChars asciiWhiteSpace ws = true ->
  decoded (Ok body) = Ok v
  /\ decoded (Ok (Str.fence_open ++ ws ++ body ++ Str.fence_close)) = Ok v
  /\ decoded (Ok (Str.fence_open ++ ws ++ body)) = Ok v
  /\ decoded (Ok (body ++ Str.fence_close)) = Ok v.
Proof.
  intros Hv Hb Hws.
  apply (allChars_weaken _ _ ws asciiWhiteSpace_is_space) in Hws.
  destruct (bare_text_is_kept body v Hv Hb) as [Hp He].
  assert (Hne : body <> "") by (intros ->; exact (JSON_parse_nonempty v Hv)).
  assert (Hstrip : forall text, Str.strip_fence text = body -> decoded (Ok text) = Ok v).
  { intros text Ht. unfold decoded. rewrite Ht, Hv. reflexivity. }
  split; [| split; [| split]]; apply Hstrip; unfold Str.strip_fence.
  - rewrite Hp, He. reflexivity.
  - rewrite prefix_append, drop_append, skip_spaces_append by exact Hws.
    rewrite (skip_spaces_solid body _ Hne Hb), endsWith_append, length_append.
    replace (String.length body + String.length Str.fence_close
             - String.length Str.fence_close) with (String.length body) by lia.
    apply substring_append.
  - rewrite prefix_append, drop_append, skip_spaces_append by exact Hws.
    assert (H0 : Str.skip_spaces body = body).
    { pose proof (skip_spaces_solid body "" Hne Hb) as H.
      rewrite append_nil_r in H. exact H. }
    rewrite H0, He. reflexivity.
  - assert (Hp' : prefix Str.fence_open (body ++ Str.fence_close) = false).
    { destruct (prefix Str.fence_open (body ++ Str.fence_close)) eqn:Ep; [| reflexivity].
      exfalso. destruct body as [| c body]; [congruence |].
      destruct (prefix Str.fence_open (String c body)) eqn:Ep0; [discriminate |].
      rewrite append_cons in Ep. cbn [prefix Str.fence_open] in Ep, Ep0.
      destruct (ascii_dec "`" c); [| discriminate].
      subst c. unfold JSON_parse in Hv.
      change (parse_value (2 * String.length (String "`" body) + 2) (String "`" body))
        with (parse_value (S (2 * String.length (String "`" body) + 1)) (String "`" body))
        in Hv.
      revert Hv. generalize (2 * String.length (String "`" body) + 1). intro n.
      cbn. discriminate. }
    rewrite Hp', endsWith_append, length_append.
    replace (String.length body + String.length Str.fence_close
             - String.length Str.fence_close) with (String.length body) by lia.
    apply substring_append.
Qed.

End Fences.

(** ** The fallback problem analyzer in whole numbers *)

Section Thresholds.

Import FallbackProblem.

Lemma thresholdAgrees_holds : thresholdAgrees thresholdTable = true.
Proof. vm_compute. reflexivity. Qed.

Lemma thresholdAgrees_spec (table : list (Z * number)) :
  thresholdAgrees table = true ->
  forall n k : nat,
    In (Z.of_nat n, of_nat n) table -> In (Z.of_nat k, of_nat k) table ->
    gt (of_nat k) (mul (of_nat n) lit_0_3) = Nat.ltb (3 * n) (10 * k).
Proof.
  unfold thresholdAgrees. intros H n k Hn Hk.
  rewrite forallb_forall in H. specialize (H _ Hn). cbv zeta in H.
  rewrite forallb_forall in H. specialize (H _ Hk).
  cbn [fst snd] in H. apply Bool.eqb_prop in H. rewrite H.
  destruct (Nat.ltb (3 * n) (10 * k)) eqn:E.
  - apply Nat.ltb_lt in E. apply Z.ltb_lt. lia.
  - apply Nat.ltb_ge in E. apply Z.ltb_ge. lia.
Qed.

Lemma thresholdTable_In (m : nat) : m <= 1000 -> In (Z.of_nat m, of_nat m) thresholdTable.
Proof.
  intro Hm. unfold thresholdTable.
  apply (in_map (fun n => (Z.of_nat n, of_nat n))). apply in_seq. lia.
Qed.

Lemma threshold_in_integers (n k : nat) :
  n <= 1000 -> k <= 1000 ->
  gt (of_nat k) (mul (of_nat n) lit_0_3) = Nat.ltb (3 * n) (10 * k).
Proof.
  intros Hn Hk.
  exact (thresholdAgrees_spec thresholdTable thresholdAgrees_holds n k
           (thresholdTable_In n Hn) (thresholdTable_In k Hk)).
Qed.

(** X5. For a window of at most 1000 records, the most the repository
    query can return, the comparison [lowEngagementPosts.length >
    posts.length * 0.3] on doubles is the comparison [3 * posts <
    10 * low] on whole numbers.  So the analyzer returns the keyword
    insight when some record mentions a keyword, followed by the
    low-engagement insight exactly when more than three tenths of the
    records have a score below 5 and fewer than 3 comments; it never
    returns more than these two. *)
Theorem fallback_problem_in_integers (posts : list RedditPost) :
  List.length posts <= 1000 ->
  let keyword := filter mentionsProblem posts in
  let low := filter lowEngagement posts in
  getFallbackProblemAnalysis posts
  = ((if Nat.ltb 0 (List.length keyword) then [keywordInsight keyword] else [])
     ++ (if Nat.ltb (3 * List.length posts) (10 * List.length low)
         then [engagementInsight low] else []))%list.
Proof.
  intros Hlen keyword low. unfold getFallbackProblemAnalysis. fold keyword. fold low.
  rewrite threshold_in_integers.
  - destruct (Nat.ltb (3 * List.length posts) (10 * List.length low));
      [reflexivity | rewrite app_nil_r; reflexivity].
  - exact Hlen.
  - unfold low. pose proof (filter_length_le lowEngagement posts). lia.
Qed.

End Thresholds.

(** ** Ties between labels *)

Section Ties.

Import FallbackTrend.
Local Open Scope string_scope.

(** The stable sort puts first the first of the entries with the largest
    count. *)
Lemma sort_desc_first_largest (l : list (string * CountVal)) :
  Forall isCount l ->
  match sort_desc l with
  | [] => l = []
  | h :: _ =>
      exists before after,
        l = (before ++ h :: after)%list
        /\ (forall e, In e before -> countOf e < countOf h)
        /\ (forall e, In e after -> countOf e <= countOf h)
  end.
Proof.
  induction 1 as [| e r He Hr IH]; [reflexivity |].
  unfold sort_desc in *. cbn [fold_right].
  destruct (fold_right insert_desc [] r) as [| h t] eqn:Es.
  - subst r. exists [], []. split; [reflexivity |]. split; intros x [].
  - destruct IH as (before & after & Hl & Hb & Ha).
    cbn [insert_desc]. unfold sortsAfter.
    assert (Hh : isCount h).
    { rewrite Forall_forall in Hr. apply Hr. rewrite Hl. apply in_elt. }
    destruct He as [n Hn]. destruct Hh as [m Hm]. rewrite Hn, Hm.
    destruct (Nat.ltb n m) eqn:E.
    + apply Nat.ltb_lt in E. exists (e :: before), after.
      split; [rewrite Hl; reflexivity |]. split; [| exact Ha].
      intros x [<- | Hx]; [unfold countOf; rewrite Hn, Hm; exact E | apply Hb; exact Hx].
    + apply Nat.ltb_ge in E. exists [], r. split; [reflexivity |].
      split; [intros x [] |].
      intros x Hx. rewrite Hl in Hx. apply in_app_or in Hx.
      assert (Hhe : countOf h <= countOf e) by (unfold countOf; rewrite Hn, Hm; exact E).
      destruct Hx as [Hx | [<- | Hx]].
      * specialize (Hb x Hx). lia.
      * exact Hhe.
      * specialize (Ha x Hx). lia.
Qed.

(** Without array-index keys [Object.entries] lists the properties in
    insertion order. *)
Lemma Object_entries_named (o : Counts) :
  Forall (fun e => array_index (fst e) = None) o -> Object_entries o = o.
Proof.
  intro H. unfold Object_entries.
  assert (Hi : index_entries o = [] /\ filter named_key o = o).
  { induction H as [| [k v] r Hk _ [IH1 IH2]]; [split; reflexivity |].
    cbn [fst] in Hk. cbn [index_entries filter]. unfold named_key at 1. cbn [fst].
    rewrite Hk, IH1, IH2. split; reflexivity. }
  destruct Hi as [-> ->]. reflexivity.
Qed.

(** A new key goes to the end of [subredditCounts]; a key already there
    stays where it is. *)
Lemma bump_keys_order (key : string) (acc : Counts) :
  inherited key = None ->
  map fst (bump key acc)
  = if existsb (String.eqb key) (map fst acc) then map fst acc
    else (map fst acc ++ [key])%list.
Proof.
  intro Hplain. induction acc as [| [k v] r IH].
  - cbn [bump]. rewrite Hplain. reflexivity.
  - cbn [bump map fst existsb]. destruct (String.eqb key k) eqn:Ek.
    + reflexivity.
    + cbn [map fst orb]. rewrite IH.
      destruct (existsb (String.eqb key) (map fst r)); reflexivity.
Qed.

(** What [subredditCounts] holds for records with plain labels. *)
Lemma counts_entries (posts : list RedditPost) :
  Forall (fun post => plainLabel (subreddit post) = true) posts ->
  (forall label v, In (label, v) (subredditCounts posts) ->
     v = CNum (occurrences label posts) /\ 0 < occurrences label posts)
  /\ (forall post, In post posts -> In (subreddit post) (map fst (subredditCounts posts))).
Proof.
  intro Hplain. destruct (subredditCounts_spec posts Hplain) as [Hnd Hlook]. split.
  - intros label v Hin. apply (In_lookup _ _ _ Hnd) in Hin. rewrite Hlook in Hin.
    destruct (occurrences label posts); inversion Hin. split; [reflexivity | lia].
  - intros post Hin. specialize (Hlook (subreddit post)).
    assert (Hpos : 0 < occurrences (subreddit post) posts).
    { unfold occurrences.
      assert (Hf : In post (filter (fun p => String.eqb (subreddit p) (subreddit post)) posts))
        by (apply filter_In; split; [exact Hin | apply String.eqb_refl]).
      destruct (filter _ posts); [contradiction | simpl; lia]. }
    destruct (occurrences (subreddit post) posts); [lia |].
    apply lookup_In in Hlook. apply (in_map fst) in Hlook. exact Hlook.
Qed.

(** The keys of [subredditCounts] stand in the order in which their
    labels first occur. *)
Lemma first_records (posts : list RedditPost) :
  Forall (fun post => plainLabel (subreddit post) = true) posts ->
  forall K1 label K2,
    map fst (subredditCounts posts) = (K1 ++ label :: K2)%list ->
    exists earlier post later,
      posts = (earlier ++ post :: later)%list
      /\ subreddit post = label
      /\ forall p, In p earlier -> In (subreddit p) K1.
Proof.
  induction posts as [| x posts IH] using rev_ind; intros Hplain K1 label K2 Hkeys.
  - destruct K1; discriminate.
  - apply Forall_app in Hplain. destruct Hplain as [Hposts Hx].
    inversion Hx as [| ? ? Hpx _]. subst. unfold plainLabel in Hpx.
    destruct (inherited (subreddit x)) eqn:Einh; [discriminate |].
    unfold subredditCounts in Hkeys. rewrite fold_left_app in Hkeys. cbn [fold_left] in Hkeys.
    fold (subredditCounts posts) in Hkeys. rewrite (bump_keys_order _ _ Einh) in Hkeys.
    destruct (existsb (String.eqb (subreddit x)) (map fst (subredditCounts posts))).
    + destruct (IH Hposts K1 label K2 Hkeys) as (earlier & post & later & Hp & Hl & He).
      exists earlier, post, (later ++ [x])%list. rewrite Hp, <- app_assoc. auto.
    + destruct K2 as [| y K2 _] using rev_ind.
      * apply app_inj_tail in Hkeys. destruct Hkeys as [Hk Hl].
        exists posts, x, []. split; [reflexivity |]. split; [exact Hl |].
        intros p Hp. rewrite <- Hk. apply (counts_entries posts Hposts). exact Hp.
      * change (K1 ++ label :: K2 ++ [y])%list with (K1 ++ (label :: K2) ++ [y])%list in Hkeys.
        rewrite app_assoc in Hkeys. apply app_inj_tail in Hkeys. destruct Hkeys as [Hk _].
        destruct (IH Hposts K1 label K2 Hk) as (earlier & post & later & Hp & Hl & He).
        exists earlier, post, (later ++ [x])%list. rewrite Hp, <- app_assoc. auto.
Qed.

(** X6. Which label the top insight names.  For records whose labels are
    neither members of [Object.prototype] nor array indices, the insight
    names a most frequent label, and among several the one whose first
    record comes first: every record before the first record of that
    label belongs to a label with strictly fewer records. *)
Theorem top_label_among_ties (posts : list RedditPost) :
  posts <> [] ->
  Forall (fun post => plainLabel (subreddit post) = true
                      /\ array_index (subreddit post) = None) posts ->
  exists label earlier post later,
    getFallbackTrendAnalysis posts
    = topInsight posts (label, CNum (occurrences label posts))
      :: (if gt (avgScore posts) (of_Z 100) then [engagementInsight posts] else [])
    /\ posts = (earlier ++ post :: later)%list
    /\ subreddit post = label
    /\ (forall p, In p earlier -> occurrences (subreddit p) posts < occurrences label posts)
    /\ (forall other, occurrences other posts <= occurrences label posts).
Proof.
  intros Hne Hboth.
  assert (Hplain : Forall (fun post => plainLabel (subreddit post) = true) posts).
  { apply (Forall_impl _ (P := fun post => plainLabel (subreddit post) = true
                                           /\ array_index (subreddit post) = None));
      [intros p [H _]; exact H | exact Hboth]. }
  destruct (subredditCounts_spec posts Hplain) as [Hnd Hlook].
  destruct (counts_entries posts Hplain) as [Hentry Hcover].
  set (c := subredditCounts posts) in *.
  assert (Hnamed : Forall (fun e => array_index (fst e) = None) c).
  { apply Forall_forall. intros [label v] Hin. cbn [fst].
    destruct (Hentry label v Hin) as [_ Hpos].
    unfold occurrences in Hpos.
    destruct (filter (fun p => String.eqb (subreddit p) label) posts) as [| p ps] eqn:Ef;
      [simpl in Hpos; lia |].
    assert (Hp : In p (filter (fun p => String.eqb (subreddit p) label) posts))
      by (rewrite Ef; left; reflexivity).
    apply filter_In in Hp. destruct Hp as [Hp Heq]. apply String.eqb_eq in Heq.
    rewrite Forall_forall in Hboth. rewrite <- Heq. apply (Hboth p Hp). }
  assert (Hcounts : Forall isCount c).
  { apply Forall_forall. intros [label v] Hin.
    destruct (Hentry label v Hin) as [-> _]. eexists. reflexivity. }
  pose proof (sort_desc_first_largest c Hcounts) as Hfirst.
  unfold getFallbackTrendAnalysis, topSubreddits. fold c.
  rewrite (Object_entries_named c Hnamed).
  destruct (sort_desc c) as [| [label v] t] eqn:Es.
  - exfalso. destruct posts as [| p ps]; [congruence |].
    specialize (Hcover p (or_introl eq_refl)). rewrite Hfirst in Hcover. contradiction.
  - destruct Hfirst as (before & after & Hc & Hb & Ha).
    assert (Hin : In (label, v) c) by (rewrite Hc; apply in_elt).
    destruct (Hentry label v Hin) as [-> Hpos].
    destruct (first_records posts Hplain (map fst before) label (map fst after))
      as (earlier & post & later & Hp & Hl & He).
    { fold c. rewrite Hc, map_app. reflexivity. }
    exists label, earlier, post, later.
    cbn [firstn].
    split; [destruct (gt (avgScore posts) (of_Z 100)); reflexivity |].
    split; [exact Hp |]. split; [exact Hl |]. split.
    + intros p Hpin. specialize (He p Hpin). apply in_map_iff in He.
      destruct He as ([k w] & Hk & Hkin). cbn [fst] in Hk. subst k.
      specialize (Hb _ Hkin).
      assert (Hkc : In (subreddit p, w) c) by (rewrite Hc; apply in_or_app; left; exact Hkin).
      destruct (Hentry _ _ Hkc) as [-> _]. exact Hb.
    + intro other. specialize (Hlook other).
      destruct (occurrences other posts) as [| n] eqn:E; [lia |].
      apply lookup_In in Hlook. fold c in Hlook. rewrite Hc in Hlook.
      apply in_app_or in Hlook. destruct Hlook as [Hx | [Hx | Hx]].
      * specialize (Hb _ Hx). unfold countOf in Hb. cbn [snd] in Hb. lia.
      * inversion Hx. lia.
      * specialize (Ha _ Hx). unfold countOf in Ha. cbn [snd] in Ha. exact Ha.
Qed.

End Ties.


(** ** Which collections render *)

Section Tolerance.

Local Open Scope string_scope.

Lemma isOk_rbind {A B : Type} (r : Result A) (f : A -> Result B) (b : bool) :
  (forall a, isOk (f a) = b) -> isOk (rbind r f) = isOk r && b.
Proof.
  intro H. destruct r as [a | e]; cbn [rbind isOk andb]; [apply H | reflexivity].
Qed.

Lemma elemStrings_printable (l : list JsValue) :
  Forall (fun v => isOk (toStr v) = printable v) l ->
  isOk (elemStrings l) = forallb printable l.
Proof.
  induction 1 as [| x xs Hx _ IH]; [reflexivity |].
  cbn [elemStrings forallb].
  assert (Hx' : isOk (match x with VNull => Ok EmptyString | _ => toStr x end) = printable x)
    by (destruct x; try exact Hx; reflexivity).
  destruct (match x with VNull => Ok EmptyString | _ => toStr x end) as [t | e];
    cbn [isOk] in Hx'; rewrite <- Hx'; cbn [andb]; [| reflexivity].
  rewrite <- IH. destruct (elemStrings xs); reflexivity.
Qed.

Lemma toStr_printable (v : JsValue) : isOk (toStr v) = printable v.
Proof.
  induction v as [| b | x | t | elems IH | props _] using JsValue_induction;
    try reflexivity.
  - rewrite toStr_VArr. cbn [printable]. rewrite <- (elemStrings_printable elems IH).
    destruct (elemStrings elems); reflexivity.
  - cbn [toStr printable]. destruct (get "toString" props); reflexivity.
Qed.

Lemma field_printable (item : JsValue) (name : string) :
  isOk (field item name)
  = match item with VNull => false | _ => printableField item name end.
Proof.
  unfold field, prop, interp, printableField.
  destruct item; try reflexivity.
  destruct (get name props) as [v |]; [apply toStr_printable | reflexivity].
Qed.

Lemma joinSolutions_printable (item : JsValue) :
  isOk (joinSolutions item)
  = match item with
    | VObj props =>
        match get "potentialSolutions" props with
        | Some (VArr l) => forallb printable l
        | _ => false
        end
    | _ => false
    end.
Proof.
  unfold joinSolutions, rbind, prop.
  destruct item; try reflexivity.
  destruct (get "potentialSolutions" props) as [[| | | | l |] |]; try reflexivity.
  rewrite <- elemStrings_printable.
  - destruct (elemStrings l); reflexivity.
  - apply Forall_forall. intros v _. apply toStr_printable.
Qed.

Lemma renderTrend_renders (index : nat) (item : JsValue) :
  isOk (renderTrend index item) = trendRenders item.
Proof.
  transitivity (forallb (fun name => isOk (field item name)) trendFields).
  - unfold renderTrend, trendFields. cbn [forallb].
    repeat match goal with
           | |- context [rbind (field item ?n) _] =>
               destruct (field item n); cbn [rbind isOk andb]; [| reflexivity]
           end.
    reflexivity.
  - unfold trendRenders, trendFields. cbn [forallb]. rewrite !field_printable.
    destruct item; reflexivity.
Qed.

Lemma renderProblem_renders (index : nat) (item : JsValue) :
  isOk (renderProblem index item) = problemRenders item.
Proof.
  transitivity (forallb (fun name => isOk (field item name)) problemFields
                && isOk (joinSolutions item)).
  - unfold renderProblem, problemFields. cbn [forallb].
    repeat match goal with
           | |- context [rbind (field item ?n) _] =>
               destruct (field item n); cbn [rbind isOk andb]; [| reflexivity]
           end.
    destruct (joinSolutions item); reflexivity.
  - unfold problemRenders, problemFields. cbn [forallb].
    rewrite !field_printable, joinSolutions_printable.
    destruct item; reflexivity.
Qed.

Lemma renderEach_renders (render : nat -> JsValue -> Result string) (ok : JsValue -> bool) :
  (forall index item, isOk (render index item) = ok item) ->
  forall items index, isOk (renderEach render index items) = forallb ok items.
Proof.
  intros Hr items. induction items as [| item rest IH]; intro index; [reflexivity |].
  cbn [renderEach forallb]. rewrite <- (Hr index item), <- (IH (S index)).
  destruct (render index item); cbn [rbind isOk andb]; [| reflexivity].
  destruct (renderEach render (S index) rest); reflexivity.
Qed.

(** X7. Rendering is loose about the shape of an insight.  The report
    is rendered exactly when every trend item is something other than
    [null] whose eight fields can be printed, and every problem item is
    an object whose five fields can be printed and whose
    [potentialSolutions] is an array of values that can be printed; a
    value can be printed unless it is, or holds in an array, an object
    with a [toString] property of its own.  A field that is missing is
    printed as [undefined]. *)
Theorem report_renders_exactly_when (days : number) (trends problems : list JsValue) :
  isOk (renderReport days trends problems)
  = forallb trendRenders trends && forallb problemRenders problems
  /\ (forall (index : nat) (props : list (string * JsValue)),
        (forall name, In name trendFields -> get name props = None) ->
        renderTrend index (VObj props)
        = Ok (nat_toString (index + 1) ++ ". undefined (+undefined% over undefined)" ++ nl
              ++ "   Market: undefined" ++ nl
              ++ "   Competition: undefined | Entry Cost: undefined" ++ nl
              ++ "   Recommendation: undefined" ++ nl
              ++ "   Confidence: undefined%" ++ nl ++ nl)).
Proof.
  split.
  - unfold renderReport, trendsBlock, problemsBlock.
    rewrite <- (renderEach_renders renderTrend trendRenders renderTrend_renders trends 0).
    rewrite <- (renderEach_renders renderProblem problemRenders renderProblem_renders
                  problems 0).
    destruct trends as [| t ts], problems as [| p ps];
      cbn [List.length Nat.ltb Nat.leb rbind isOk andb renderEach];
      try reflexivity.
    + destruct (rbind (renderProblem 0 p) _); reflexivity.
    + destruct (rbind (renderTrend 0 t) _); reflexivity.
    + destruct (rbind (renderTrend 0 t) _); cbn [rbind isOk andb]; [| reflexivity].
      destruct (rbind (renderProblem 0 p) _); reflexivity.
  - intros index props Hmissing. unfold renderTrend, field, prop, interp.
    rewrite !Hmissing by (unfold trendFields; cbn [In]; tauto).
    cbn [rbind]. reflexivity.
Qed.

End Tolerance.

(** ** What happens within one turn *)

Section Turns.
Variable env : Env.

Lemma settle_bind {A B : Type} (p : Prog A) (f : A -> Prog B) (w : World) :
  settle env (bind p f) w =
  let '(w', p') := settle env p w in
  match p' with
  | Ret a => settle env (f a) w'
  | _ => (w', bind p' f)
  end.
Proof.
  revert w. induction p as [a | e | X e k IH | X e k IH]; intro w; cbn [bind settle].
  - reflexivity.
  - reflexivity.
  - destruct (sync_step env e w) as [w' x]. apply IH.
  - reflexivity.
Qed.

Lemma settle_try_catch {A : Type} (p : Prog A) (h : JsError -> Prog A) (w : World) :
  settle env (try_catch p h) w =
  let '(w', p') := settle env p w in
  match p' with
  | Throw e => settle env (h e) w'
  | _ => (w', try_catch p' h)
  end.
Proof.
  revert w. induction p as [a | e | X e k IH | X e k IH]; intro w; cbn [try_catch settle].
  - reflexivity.
  - reflexivity.
  - destruct (sync_step env e w) as [w' x]. apply IH.
  - reflexivity.
Qed.

Lemma run_settle {A : Type} (p : Prog A) (w : World) :
  run env p w = let '(w', p') := settle env p w in run env p' w'.
Proof.
  revert w. induction p as [a | e | X e k IH | X e k IH]; intro w; cbn [run settle].
  - reflexivity.
  - reflexivity.
  - destruct (sync_step env e w) as [w' x]. apply IH.
  - reflexivity.
Qed.

Lemma run_all_settle_l {A B : Type} (p : Prog A) (q : Prog B) (w : World) :
  run_all env p q w = let '(w', p') := settle env p w in run_all env p' q w'.
Proof.
  revert w. induction p as [a | e | X e k IH | X e k IH]; intro w; cbn [settle].
  - reflexivity.
  - reflexivity.
  - rewrite run_all_sync_l. destruct (sync_step env e w) as [w' x]. apply IH.
  - reflexivity.
Qed.

Lemma run_all_settle_r {A B X : Type} (ep : IoEff X) (kp : X -> Prog A) (q : Prog B)
    (w : World) :
  run_all env (Await ep kp) q w =
  let '(w', q') := settle env q w in run_all env (Await ep kp) q' w'.
Proof.
  revert w. induction q as [a | e | Y e k IH | Y e k IH]; intro w; cbn [settle].
  - reflexivity.
  - reflexivity.
  - rewrite run_all_sync_r. destruct (sync_step env e w) as [w' x]. apply IH.
  - reflexivity.
Qed.

(** A refused invocation ends within the turn in which it starts. *)
Lemma settle_refused (kind : Kind) (posts : list RedditPost) (limit : nat) (w : World) :
  circuitBreakerOpen w = true ->
  (clock env (clockReads w) < circuitBreakerResetTime w)%Z ->
  settle env (analyze kind posts limit) w = (refused kind w, Ret (fallbackOf kind posts)).
Proof.
  intros Ho Hlt. apply Z.ltb_lt in Hlt.
  destruct kind; unfold analyze, analyzeWithGemini, analyzeProblemsWithGemini, breakerBlocks;
    cbn [bind sync settle sync_step]; rewrite Ho; cbn [bind sync settle sync_step];
    cbn [circuitBreakerResetTime clockReads tick]; rewrite Hlt; reflexivity.
Qed.

End Turns.

(** ** Reports while the breaker refuses *)

Section Cooldown.

Variable env : Env.

Lemma fallbackOf_nil (kind : Kind) : fallbackOf kind [] = [].
Proof. destruct kind; vm_compute; reflexivity. Qed.

Lemma afterFetch_refused (kind : Kind) (days cutoff : number) (posts : list RedditPost)
    (w : World) :
  circuitBreakerOpen w = true ->
  (clock env (clockReads w) < circuitBreakerResetTime w)%Z ->
  exists w',
    settle env (afterFetch kind days cutoff (Ok posts)) w
    = (w', Ret (fallbackOf kind (window cutoff posts)))
    /\ calls w' = calls w
    /\ circuitBreakerOpen w' = true
    /\ circuitBreakerResetTime w' = circuitBreakerResetTime w
    /\ observable (trace w') = observable (trace w)
    /\ fetches w' = fetches w
    /\ turns w' = turns w
    /\ clockReads w <= clockReads w' <= S (clockReads w).
Proof.
  intros Ho Hlt.
  destruct kind; unfold afterFetch, trendsAfterFetch, problemsAfterFetch; cbn [lift bind];
    fold (window cutoff posts);
    destruct (Nat.eqb (List.length (window cutoff posts)) 0) eqn:El.
  - apply Nat.eqb_eq in El. apply length_zero_iff_nil in El. rewrite El, fallbackOf_nil.
    cbn [bind sync try_catch settle sync_step]. eexists. split; [reflexivity |].
    cbn [calls circuitBreakerOpen circuitBreakerResetTime trace fetches turns clockReads record].
    rewrite observable_app. cbn [observable filter isLog negb]. rewrite app_nil_r.
    repeat split; auto.
  - change (analyzeWithGemini (window cutoff posts) defaultLimit)
      with (analyze Trend (window cutoff posts) defaultLimit).
    rewrite settle_try_catch, settle_bind, (settle_refused env Trend _ _ w Ho Hlt).
    cbn [bind sync try_catch settle sync_step]. eexists. split; [reflexivity |].
    unfold refused.
    cbn [calls circuitBreakerOpen circuitBreakerResetTime trace fetches turns clockReads
         record tick].
    rewrite !observable_app. cbn [observable filter isLog negb refusedLine fallbackLine].
    rewrite !app_nil_r.
    repeat split; auto.
  - apply Nat.eqb_eq in El. apply length_zero_iff_nil in El. rewrite El, fallbackOf_nil.
    cbn [bind sync try_catch settle sync_step]. eexists. split; [reflexivity |].
    cbn [calls circuitBreakerOpen circuitBreakerResetTime trace fetches turns clockReads record].
    rewrite observable_app. cbn [observable filter isLog negb]. rewrite app_nil_r.
    repeat split; auto.
  - change (analyzeProblemsWithGemini (window cutoff posts) defaultLimit)
      with (analyze Problem (window cutoff posts) defaultLimit).
    rewrite settle_try_catch, settle_bind, (settle_refused env Problem _ _ w Ho Hlt).
    cbn [bind sync try_catch settle sync_step]. eexists. split; [reflexivity |].
    unfold refused.
    cbn [calls circuitBreakerOpen circuitBreakerResetTime trace fetches turns clockReads
         record tick].
    rewrite !observable_app. cbn [observable filter isLog negb refusedLine fallbackLine].
    rewrite !app_nil_r.
    repeat split; auto.
Qed.

(** X8. While the flag is set and the clock reads before the reset
    time, and the repository answers, [generateReport] calls the analyzer
    not once under either interleaving of its two analyses: each reads
    the clock at most once, both return their fallback insights for the
    records of their own window, the report rendered from them is
    returned, and the breaker is left as it was. *)
Theorem report_during_cooldown (days : number) (w : World) :
  circuitBreakerOpen w = true ->
  (forall n, clockReads w <= n <= S (clockReads w) ->
             (clock env n < circuitBreakerResetTime w)%Z) ->
  (forall i, exists posts, repository env i = Ok posts) ->
  exists w' report trendPosts problemPosts,
    generateReport env days w = (w', Ok report)
    /\ repository env (if scheduler env (turns w) then fetches w else S (fetches w))
       = Ok trendPosts
    /\ repository env (if scheduler env (turns w) then S (fetches w) else fetches w)
       = Ok problemPosts
    /\ renderReport days
         (fallbackOf Trend (window (calendar env (cutoffs w) days) trendPosts))
         (fallbackOf Problem (window (calendar env (S (cutoffs w)) days) problemPosts))
       = Ok report
    /\ calls w' = calls w
    /\ circuitBreakerOpen w' = true
    /\ circuitBreakerResetTime w' = circuitBreakerResetTime w
    /\ observable (trace w')
       = (observable (trace w) ++ [EFindAll 1000 0; EFindAll 1000 0])%list.
Proof.
  intros Ho Hclock Hrepo.
  destruct (Hrepo (fetches w)) as [posts1 Hr1].
  destruct (Hrepo (S (fetches w))) as [posts2 Hr2].
  unfold generateReport. rewrite analyzeTrends_shape, analyzeProblems_shape.
  repeat (rewrite run_all_sync_l; cbn [sync_step]).
  repeat (rewrite run_all_sync_r; cbn [sync_step]).
  rewrite run_all_await_await. cbn [io_step].
  cbn [turns record cutoffTaken].
  destruct (scheduler env (turns w)); cbn [record next_turn fetched cutoffTaken cutoffs fetches].
  - rewrite Hr1.
    change (trendsAfterFetch days ?c ?r) with (afterFetch Trend days c r).
    rewrite run_all_settle_l.
    match goal with
    | |- context [settle env (afterFetch Trend days ?c (Ok posts1)) ?w0] =>
        destruct (afterFetch_refused Trend days c posts1 w0)
          as (w3 & Hs & Hc3 & Ho3 & Ht3 & Htr3 & Hf3 & _ & Hk3);
          [exact Ho | cbn; apply Hclock; lia |]
    end.
    rewrite Hs, run_all_ret_l. cbn [run io_step].
    cbn in Hf3. rewrite Hf3, Hr2.
    change (problemsAfterFetch days ?c ?r) with (afterFetch Problem days c r).
    rewrite run_settle.
    match goal with
    | |- context [settle env (afterFetch Problem days ?c (Ok posts2)) ?w0] =>
        destruct (afterFetch_refused Problem days c posts2 w0)
          as (w5 & Hs5 & Hc5 & Ho5 & Ht5 & Htr5 & _ & _ & _);
          [cbn; exact Ho3 | cbn; rewrite Ht3; cbn; apply Hclock; cbn in Hk3; lia |]
    end.
    rewrite Hs5. cbn [run].
    destruct (renderReport_renders days _ _
                (renders_fallback Trend (window (calendar env (cutoffs w) days) posts1))
                (renders_fallback Problem (window (calendar env (S (cutoffs w)) days) posts2)))
      as [report Hrep].
    rewrite Hrep. exists w5, report, posts1, posts2.
    split; [reflexivity |]. split; [first [reflexivity | assumption] |].
    split; [first [reflexivity | assumption] |].
    split; [exact Hrep |].
    cbn in Hc5, Ht5, Htr5, Hc3, Ht3, Htr3.
    split; [congruence |]. split; [exact Ho5 |]. split; [congruence |].
    rewrite Htr5, !observable_app, Htr3, !observable_app.
    cbn [observable filter isLog negb]. rewrite !app_nil_r, <- !app_assoc. reflexivity.
  - rewrite Hr1.
    change (problemsAfterFetch days ?c ?r) with (afterFetch Problem days c r).
    rewrite run_all_settle_r.
    match goal with
    | |- context [settle env (afterFetch Problem days ?c (Ok posts1)) ?w0] =>
        destruct (afterFetch_refused Problem days c posts1 w0)
          as (w3 & Hs & Hc3 & Ho3 & Ht3 & Htr3 & Hf3 & _ & Hk3);
          [exact Ho | cbn; apply Hclock; lia |]
    end.
    rewrite Hs, run_all_ret_r. cbn [run io_step].
    cbn in Hf3. rewrite Hf3, Hr2.
    change (trendsAfterFetch days ?c ?r) with (afterFetch Trend days c r).
    rewrite run_settle.
    match goal with
    | |- context [settle env (afterFetch Trend days ?c (Ok posts2)) ?w0] =>
        destruct (afterFetch_refused Trend days c posts2 w0)
          as (w5 & Hs5 & Hc5 & Ho5 & Ht5 & Htr5 & _ & _ & _);
          [cbn; exact Ho3 | cbn; rewrite Ht3; cbn; apply Hclock; cbn in Hk3; lia |]
    end.
    rewrite Hs5. cbn [run].
    destruct (renderReport_renders days _ _
                (renders_fallback Trend (window (calendar env (cutoffs w) days) posts2))
                (renders_fallback Problem (window (calendar env (S (cutoffs w)) days) posts1)))
      as [report Hrep].
    rewrite Hrep. exists w5, report, posts2, posts1.
    split; [reflexivity |]. split; [first [reflexivity | assumption] |].
    split; [first [reflexivity | assumption] |].
    split; [exact Hrep |].
    cbn in Hc5, Ht5, Htr5, Hc3, Ht3, Htr3.
    split; [congruence |]. split; [exact Ho5 |]. split; [congruence |].
    rewrite Htr5, !observable_app, Htr3, !observable_app.
    cbn [observable filter isLog negb]. rewrite !app_nil_r, <- !app_assoc. reflexivity.
Qed.
End Cooldown.

(** ** A repository that rejects *)

Section FetchFailure.

Variable env : Env.

(** X9. When the repository rejects a query, [analyzeTrends] and
    [analyzeProblems] log the error and rethrow it unchanged, having made
    no call and left the breaker alone; [generateReport] rejects with the
    error of the first query that is answered, after logging it once for
    the analysis and once for the report. *)
Theorem repository_failure_is_rethrown (days : number) (w : World) (e : JsError) :
  repository env (fetches w) = Err e ->
  (forall kind, exists w' line,
     run env (analysis kind days) w = (w', Err e)
     /\ trace w' = (trace w ++ [ELog LLog line; EFindAll 1000 0; analysisErrorLine kind e])%list
     /\ calls w' = calls w
     /\ circuitBreakerOpen w' = circuitBreakerOpen w
     /\ circuitBreakerResetTime w' = circuitBreakerResetTime w)
  /\ exists w' pre,
       generateReport env days w = (w', Err e)
       /\ trace w'
          = (trace w ++ pre
             ++ [EFindAll 1000 0;
                 analysisErrorLine (if scheduler env (turns w) then Trend else Problem) e;
                 ELog LError ("Error generating report: " ++ err_message e)])%list
       /\ observable pre = [].
Proof.
  intro Hr. split.
  - intro kind. destruct kind; unfold analysis.
    + rewrite analyzeTrends_shape. cbn [run sync_step io_step fetches record cutoffTaken].
      rewrite Hr. unfold trendsAfterFetch. cbn [lift bind try_catch sync run sync_step].
      eexists _, _. split; [reflexivity |].
      cbn [trace calls circuitBreakerOpen circuitBreakerResetTime record fetched cutoffTaken].
      rewrite <- !app_assoc. repeat split.
    + rewrite analyzeProblems_shape. cbn [run sync_step io_step fetches record cutoffTaken].
      rewrite Hr. unfold problemsAfterFetch. cbn [lift bind try_catch sync run sync_step].
      eexists _, _. split; [reflexivity |].
      cbn [trace calls circuitBreakerOpen circuitBreakerResetTime record fetched cutoffTaken].
      rewrite <- !app_assoc. repeat split.
  - unfold generateReport. rewrite analyzeTrends_shape, analyzeProblems_shape.
    repeat (rewrite run_all_sync_l; cbn [sync_step]).
    repeat (rewrite run_all_sync_r; cbn [sync_step]).
    rewrite run_all_await_await. cbn [io_step].
    cbn [turns record cutoffTaken].
    destruct (scheduler env (turns w));
      cbn [record next_turn fetched cutoffTaken cutoffs fetches]; rewrite Hr.
    + unfold trendsAfterFetch. cbn [lift bind try_catch sync].
      rewrite run_all_sync_l. cbn [sync_step run_all].
      eexists _, [_; _; _]. split; [reflexivity |].
      cbn [trace record fetched next_turn cutoffTaken].
      rewrite <- !app_assoc. split; reflexivity.
    + unfold problemsAfterFetch. cbn [lift bind try_catch sync].
      rewrite run_all_sync_r. cbn [sync_step run_all].
      eexists _, [_; _; _]. split; [reflexivity |].
      cbn [trace record fetched next_turn cutoffTaken].
      rewrite <- !app_assoc. split; reflexivity.
Qed.
End FetchFailure.

(** ** The scheduled jobs *)

Section Jobs.

Import Scheduler.
Variable env : Env.
Local Open Scope string_scope.

(** The errors [generateReport] can reject with. *)
Lemma generateReport_errors (days : number) (w w' : World) (e : JsError) :
  generateReport env days w = (w', Err e) -> fetchFailure env e \/ isTypeError e.
Proof.
  unfold generateReport.
  pose proof (Leaves_run_all env (fun _ => True) (fun _ => True) (fetchFailure env)
                (analyzeTrends days) (analyzeProblems days)
                (analysis_leaves env (fun _ _ => True) (fun _ => I) (fun _ _ => I)
                                 (fun _ _ _ _ _ => I) Trend days)
                (analysis_leaves env (fun _ _ => True) (fun _ => I) (fun _ _ => I)
                                 (fun _ _ _ _ _ => I) Problem days)) as Hall.
  match goal with
  | |- context [run_all env ?p ?q ?w0] =>
      specialize (Hall w0); destruct (run_all env p q w0) as [w1 [[trends problems] | e1]]
  end.
  - destruct (renderReport days trends problems) as [report | e1] eqn:Er;
      intro H; inversion H; subst.
    right. exact (renderReport_typeError _ _ _ _ Er).
  - intro H; inversion H; subst. left. exact Hall.
Qed.

(** A report opens with its title. *)
Lemma generateReport_header (days : number) (w w' : World) (report : string) :
  generateReport env days w = (w', Ok report) ->
  exists rest, report = header days ++ rest.
Proof.
  unfold generateReport.
  destruct (run_all env _ _ _) as [w1 [[trends problems] | e1]]; [| discriminate].
  destruct (renderReport days trends problems) as [text | e1] eqn:Er; [| discriminate].
  intro H. inversion H. subst.
  unfold renderReport, rbind in Er.
  destruct (trendsBlock trends) as [tb | e]; [| discriminate].
  destruct (problemsBlock problems) as [pb | e]; [| discriminate].
  inversion Er. eexists. reflexivity.
Qed.

(** X10. The three jobs of the scheduler never reject.  Each awaits
    [generateReport] for its window (180 days for the daily job, 30 for
    the weekly one) and either prints the report, which opens with the
    title of that window, and logs its completion, or logs the failure:
    the error of a rejected repository query or a [TypeError] raised
    while rendering, which goes no further. *)
Theorem jobs_never_reject (job : Job) (w : World) :
  exists w',
    runJob job env w = (w', Ok tt)
    /\ ((exists w1 report rest,
           generateReport env (jobDays job) (record (startLine job) w) = (w1, Ok report)
           /\ report = header (jobDays job) ++ rest
           /\ trace w' = (trace w1 ++ [ELog LConsole report; doneLine job])%list)
        \/ (exists w1 e,
              generateReport env (jobDays job) (record (startLine job) w) = (w1, Err e)
              /\ (fetchFailure env e \/ isTypeError e)
              /\ trace w' = (trace w1 ++ [failedLine job e])%list))
    /\ header (jobDays Daily) = nl ++ "=== TREND ANALYSIS REPORT (180 days) ===" ++ nl ++ nl
    /\ header (jobDays Weekly) = nl ++ "=== TREND ANALYSIS REPORT (30 days) ===" ++ nl ++ nl.
Proof.
  assert (Hrun : runJob job env w =
                 match generateReport env (jobDays job) (record (startLine job) w) with
                 | (w1, Ok report) =>
                     (record (doneLine job) (record (ELog LConsole report) w1), Ok tt)
                 | (w1, Err e) => (record (failedLine job e) w1, Ok tt)
                 end)
    by (destruct job; reflexivity).
  rewrite Hrun.
  destruct (generateReport env (jobDays job) (record (startLine job) w)) as [w1 [report | e]]
    eqn:Eg.
  - eexists. split; [reflexivity |]. split; [| split; vm_compute; reflexivity].
    left. destruct (generateReport_header _ _ _ _ Eg) as [rest Hrest].
    exists w1, report, rest. split; [reflexivity |]. split; [exact Hrest |].
    cbn [trace record]. rewrite <- app_assoc. reflexivity.
  - eexists. split; [reflexivity |]. split; [| split; vm_compute; reflexivity].
    right. exists w1, e. split; [reflexivity |].
    split; [exact (generateReport_errors _ _ _ _ Eg) | reflexivity].
Qed.
End Jobs.

(** ** The properties above at concrete inputs *)

(** A record dated in microseconds after the three sample records. *)
Lemma undatable_record_exhausts_trend_path_witness :
  exists w',
    run (sampleEnv []) (analyzeWithGemini (samplePosts ++ [microsecondPost]) 500) initial
    = (w', Ok (fallbackOf Trend (samplePosts ++ [microsecondPost])))
    /\ calls w' = 0
    /\ circuitBreakerOpen w' = true.
Proof.
  destruct (undatable_record_exhausts_trend_path (sampleEnv [])
              (samplePosts ++ [microsecondPost]) 500 initial)
    as (w' & Hrun & Hc & _ & Ho & _).
  - reflexivity.
  - vm_compute. reflexivity.
  - exists w'. auto.
Defined.

(** An empty array, bare, fenced on both sides and fenced at the end. *)
Lemma fences_are_optional_witness :
  decoded (Ok "[]") = Ok (VArr [])
  /\ decoded (Ok (Str.fence_open ++ nl ++ "[]" ++ Str.fence_close)) = Ok (VArr [])
  /\ decoded (Ok ("[]" ++ Str.fence_close)) = Ok (VArr []).
Proof.
  destruct (fences_are_optional "[]" nl (VArr [])) as (H0 & H1 & _ & H2).
  - vm_compute. reflexivity.
  - reflexivity.
  - reflexivity.
  - auto.
Defined.

(** A fenced empty array followed by a line break. *)
Lemma text_after_closing_fence_witness :
  decoded (Ok (("```json" ++ nl ++ "[]" ++ nl) ++ "```" ++ nl)) = Err syntaxError.
Proof.
  destruct (text_after_closing_fence ("```json" ++ nl ++ "[]" ++ nl) ""
              (ascii_of_nat 10)) as [_ H].
  - reflexivity.
  - exact H.
Defined.

(** The twenty sample records: fifteen mention a keyword, none has a low
    engagement. *)
Lemma fallback_problem_in_integers_witness :
  FallbackProblem.getFallbackProblemAnalysis twentyPosts
  = [FallbackProblem.keywordInsight (filter FallbackProblem.mentionsProblem twentyPosts)].
Proof.
  rewrite (fallback_problem_in_integers twentyPosts).
  - vm_compute. reflexivity.
  - vm_compute. repeat constructor.
Defined.

(** The three sample records: [saas] has two of them and comes first. *)
Lemma top_label_among_ties_witness :
  exists label earlier post later,
    FallbackTrend.getFallbackTrendAnalysis samplePosts
    = FallbackTrend.topInsight samplePosts
        (label, FallbackTrend.CNum (FallbackTrend.occurrences label samplePosts))
      :: (if gt (FallbackTrend.avgScore samplePosts) (of_Z 100)
          then [FallbackTrend.engagementInsight samplePosts] else [])
    /\ samplePosts = (earlier ++ post :: later)%list
    /\ subreddit post = label
    /\ (forall p, In p earlier ->
          FallbackTrend.occurrences (subreddit p) samplePosts
          < FallbackTrend.occurrences label samplePosts)
    /\ (forall other,
          FallbackTrend.occurrences other samplePosts
          <= FallbackTrend.occurrences label samplePosts).
Proof.
  apply (top_label_among_ties samplePosts).
  - discriminate.
  - repeat constructor.
Defined.

(** A report asked for one second after the breaker was opened. *)
Lemma report_during_cooldown_witness :
  exists w' report,
    generateReport (sampleEnv []) (of_Z 30) coolingWorld = (w', Ok report)
    /\ calls w' = 3
    /\ circuitBreakerOpen w' = true
    /\ circuitBreakerResetTime w' = 300000%Z.
Proof.
  destruct (report_during_cooldown (sampleEnv []) (of_Z 30) coolingWorld)
    as (w' & report & _ & _ & Hrun & _ & _ & _ & Hc & Ho & Ht & _).
  - reflexivity.
  - intros n Hn. cbn in Hn.
    assert (Hcases : n = 1 \/ n = 2) by lia.
    destruct Hcases as [-> | ->]; reflexivity.
  - intro i. exists samplePosts. reflexivity.
  - exists w', report. auto.
Defined.

(** A repository that cannot be reached. *)
Lemma repository_failure_is_rethrown_witness :
  exists w',
    generateReport downEnv (of_Z 30) initial
    = (w', Err (mkError "MongoNetworkError" "connection refused"))
    /\ exists w1,
         run downEnv (analyzeProblems (of_Z 30)) initial
         = (w1, Err (mkError "MongoNetworkError" "connection refused"))
         /\ calls w1 = 0.
Proof.
  destruct (repository_failure_is_rethrown downEnv (of_Z 30) initial
              (mkError "MongoNetworkError" "connection refused"))
    as [Hone (w' & pre & Hrun & _)].
  - reflexivity.
  - exists w'. split; [exact Hrun |].
    destruct (Hone Problem) as (w1 & line & H1 & _ & Hc & _).
    exists w1. auto.
Defined.

(** * Collecting posts

    The Reddit client, the endpoints in front of it and the writes behind
    it: how the requests are paced, how many are sent, what a collection
    returns, how the bound [max] is read, and what becomes of the posts
    handed to the repository. *)

Import Reddit Collecting.
Local Open Scope Z_scope.

(** ** Whole numbers as doubles *)

Lemma digits2_pos_bounds (p : positive) :
  2 ^ (Z.pos (digits2_pos p) - 1) <= Z.pos p < 2 ^ Z.pos (digits2_pos p).
Proof.
  induction p as [p IH | p IH |]; cbn [digits2_pos].
  - rewrite Pos2Z.inj_succ.
    replace (Z.succ (Z.pos (digits2_pos p)) - 1) with (Z.succ (Z.pos (digits2_pos p) - 1)) by lia.
    rewrite !Z.pow_succ_r by lia. lia.
  - rewrite Pos2Z.inj_succ.
    replace (Z.succ (Z.pos (digits2_pos p)) - 1) with (Z.succ (Z.pos (digits2_pos p) - 1)) by lia.
    rewrite !Z.pow_succ_r by lia. lia.
  - simpl. lia.
Qed.

Lemma iter_xO_spec (p d : positive) :
  Z.pos (Pos.iter xO p d) = Z.pos p * 2 ^ Z.pos d
  /\ digits2_pos (Pos.iter xO p d) = (digits2_pos p + d)%positive.
Proof.
  induction d as [| d IH] using Pos.peano_ind.
  - cbn [Pos.iter]. split; [rewrite Z.pow_1_r; lia | cbn [digits2_pos]; lia].
  - rewrite Pos.iter_succ. destruct IH as [IH1 IH2]. split.
    + rewrite Pos2Z.inj_xO, IH1, Pos2Z.inj_succ, Z.pow_succ_r by lia. lia.
    + cbn [digits2_pos]. rewrite IH2. lia.
Qed.

(** An integer below 2^53 is a double as it stands: the mantissa is the
    integer shifted to 53 bits. *)
Lemma round_exact (sx : bool) (p : positive) :
  Z.pos p < 2 ^ 53 ->
  exists m e,
    binary_round Num.prec Num.emax sx p 0 = S754_finite sx m e
    /\ e <= 0
    /\ Z.pos m = Z.pos p * 2 ^ (- e)
    /\ Z.pos (digits2_pos m) = 53.
Proof.
  intro Hp.
  pose proof (digits2_pos_bounds p) as Hd.
  assert (Hk : Z.pos (digits2_pos p) <= 53).
  { destruct (Z.le_gt_cases (Z.pos (digits2_pos p)) 53) as [H | H]; [exact H |].
    exfalso. assert (2 ^ 53 <= 2 ^ (Z.pos (digits2_pos p) - 1))
      by (apply Z.pow_le_mono_r; lia). lia. }
  unfold binary_round, Num.prec, Num.emax.
  unfold shl_align, fexp, emin.
  replace (Z.max (Z.pos (digits2_pos p) + 0 - 53) (3 - 1024 - 53))
    with (Z.pos (digits2_pos p) - 53) by lia.
  destruct (Z.pos (digits2_pos p) - 53 - 0) as [| q | q] eqn:Eq; [| lia |].
  - (* already 53 bits *)
    exists p, 0. split.
    + unfold binary_round_aux, shr_fexp, fexp, emin, Zdigits2, shr, shr_record_of_loc.
      replace (Z.max (Z.pos (digits2_pos p) + 0 - 53) (3 - 1024 - 53) - 0) with 0 by lia.
      cbn [shr_m loc_of_shr_record round_nearest_even].
      replace (Z.max (Z.pos (digits2_pos p) + 0 - 53) (3 - 1024 - 53) - 0) with 0 by lia.
      cbn [shr_m]. reflexivity.
    + split; [lia |]. split; [simpl; lia | lia].
  - destruct (iter_xO_spec p q) as [Hv Hdig].
    exists (Pos.iter xO p q), (Z.pos (digits2_pos p) - 53). split.
    + unfold binary_round_aux, shr_fexp, fexp, emin, Zdigits2, shr, shr_record_of_loc.
      rewrite Hdig.
      replace (Z.max (Z.pos (digits2_pos p + q) + (Z.pos (digits2_pos p) - 53) - 53)
                     (3 - 1024 - 53) - (Z.pos (digits2_pos p) - 53)) with 0 by lia.
      cbn [shr_m loc_of_shr_record round_nearest_even].
      rewrite Hdig.
      replace (Z.max (Z.pos (digits2_pos p + q) + (Z.pos (digits2_pos p) - 53) - 53)
                     (3 - 1024 - 53) - (Z.pos (digits2_pos p) - 53)) with 0 by lia.
      cbn [shr_m].
      replace (Z.pos (digits2_pos p) - 53 <=? 1024 - 53) with true
        by (symmetry; apply Z.leb_le; lia).
      reflexivity.
    + split; [lia |]. split.
      * rewrite Hv. f_equal. f_equal. lia.
      * rewrite Hdig. lia.
Qed.

Lemma of_Z_exact (p : positive) :
  Z.pos p < 2 ^ 53 ->
  exists m e,
    of_Z (Z.pos p) = S754_finite false m e
    /\ e <= 0
    /\ Z.pos m = Z.pos p * 2 ^ (- e)
    /\ Z.pos (digits2_pos m) = 53.
Proof. intro Hp. exact (round_exact false p Hp). Qed.

Lemma of_Z_negative (p : positive) :
  Z.pos p < 2 ^ 53 -> exists m e, of_Z (Z.neg p) = S754_finite true m e.
Proof.
  intro Hp. destruct (round_exact true p Hp) as (m & e & H & _). exists m, e. exact H.
Qed.

Lemma of_Z_compare (a b : Z) :
  0 <= a < 2 ^ 53 -> 0 <= b < 2 ^ 53 ->
  SFcompare (of_Z a) (of_Z b) = Some (a ?= b).
Proof.
  intros Ha Hb.
  destruct a as [| p | p]; [| | lia]; destruct b as [| q | q]; try lia.
  - reflexivity.
  - destruct (of_Z_exact q) as (m & e & -> & _); [lia |]. reflexivity.
  - destruct (of_Z_exact p) as (m & e & -> & _); [lia |]. reflexivity.
  - destruct (of_Z_exact p) as (m1 & e1 & -> & He1 & Hm1 & Hd1); [lia |].
    destruct (of_Z_exact q) as (m2 & e2 & -> & He2 & Hm2 & Hd2); [lia |].
    pose proof (digits2_pos_bounds m1) as B1. pose proof (digits2_pos_bounds m2) as B2.
    rewrite Hd1 in B1. rewrite Hd2 in B2.
    change (2 ^ (53 - 1)) with 4503599627370496 in B1, B2.
    change (2 ^ 53) with 9007199254740992 in B1, B2.
    cbn [SFcompare]. rewrite Pos.compare_cont_spec. cbn [Pos.switch_Eq].
    fold (Pos.compare m1 m2). change (Pos.compare m1 m2) with (Z.pos m1 ?= Z.pos m2).
    f_equal.
    assert (Hpow : forall x y, x <= y <= 0 -> 2 ^ (- x) = 2 ^ (- y) * 2 ^ (y - x)).
    { intros x y H. rewrite <- Z.pow_add_r by lia. f_equal. lia. }
    assert (Hpos : forall x, x <= 0 -> 0 < 2 ^ (- x)) by (intros; apply Z.pow_pos_nonneg; lia).
    destruct (Z.compare_spec e1 e2) as [Heq | Hlt | Hgt].
    + subst e2. pose proof (Hpos e1 He1).
      destruct (Z.compare_spec (Z.pos m1) (Z.pos m2)) as [H1 | H1 | H1];
        symmetry; [apply Z.compare_eq_iff | apply Z.compare_lt_iff | apply Z.compare_gt_iff]; nia.
    + symmetry. apply Z.compare_lt_iff.
      rewrite (Hpow e1 e2) in Hm1 by lia.
      assert (2 <= 2 ^ (e2 - e1)).
      { change 2 with (2 ^ 1) at 1. apply Z.pow_le_mono_r; lia. }
      pose proof (Hpos e2 He2) as HA.
      set (A := 2 ^ (- e2)) in *. set (K := 2 ^ (e2 - e1)) in *.
      assert (Z.pos p * A * 2 <= Z.pos p * A * K) by (apply Z.mul_le_mono_nonneg_l; nia).
      apply Z.mul_lt_mono_pos_r with (p := A); [exact HA |]. lia.
    + symmetry. apply Z.compare_gt_iff.
      rewrite (Hpow e2 e1) in Hm2 by lia.
      assert (2 <= 2 ^ (e1 - e2)).
      { change 2 with (2 ^ 1) at 1. apply Z.pow_le_mono_r; lia. }
      pose proof (Hpos e1 He1) as HA.
      set (A := 2 ^ (- e1)) in *. set (K := 2 ^ (e1 - e2)) in *.
      assert (Z.pos q * A * 2 <= Z.pos q * A * K) by (apply Z.mul_le_mono_nonneg_l; nia).
      apply Z.mul_lt_mono_pos_r with (p := A); [exact HA |]. lia.
Qed.

Lemma of_Z_lt (a b : Z) :
  0 <= a < 2 ^ 53 -> 0 <= b < 2 ^ 53 -> lt (of_Z a) (of_Z b) = (a <? b).
Proof.
  intros Ha Hb. unfold lt, SFltb. rewrite (of_Z_compare a b Ha Hb).
  unfold Z.ltb. destruct (a ?= b); reflexivity.
Qed.

Lemma of_Z_gt (a b : Z) :
  0 <= a < 2 ^ 53 -> 0 <= b < 2 ^ 53 -> gt (of_Z a) (of_Z b) = (b <? a).
Proof. intros Ha Hb. apply (of_Z_lt b a Hb Ha). Qed.

Lemma of_Z_ge (a b : Z) :
  0 <= a < 2 ^ 53 -> 0 <= b < 2 ^ 53 -> ge (of_Z a) (of_Z b) = (b <=? a).
Proof.
  intros Ha Hb. unfold ge, SFleb. rewrite (of_Z_compare b a Hb Ha).
  unfold Z.leb. destruct (b ?= a); reflexivity.
Qed.

Section WholeNumbers.

Lemma same_eq (x y : number) : same x y = true -> x = y.
Proof.
  destruct x as [s | s | | s m e], y as [s' | s' | | s' m' e']; cbn [same];
    try discriminate; try reflexivity.
  - intro H. apply Bool.eqb_prop in H. congruence.
  - intro H. apply Bool.eqb_prop in H. congruence.
  - intro H. apply andb_true_iff in H. destruct H as [H He].
    apply andb_true_iff in H. destruct H as [Hs Hm].
    apply Bool.eqb_prop in Hs. apply Pos.eqb_eq in Hm. apply Z.eqb_eq in He. congruence.
Qed.

Lemma ceilAgrees_holds : ceilAgrees ceilTable = true.
Proof. vm_compute. reflexivity. Qed.

Lemma ceilAgrees_spec (table : list Z) :
  ceilAgrees table = true ->
  forall m, In m table -> Math_ceil (div (of_Z m) (of_Z 100)) = of_Z ((m + 99) / 100).
Proof.
  unfold ceilAgrees. intros H m Hm. rewrite forallb_forall in H.
  apply same_eq. exact (H m Hm).
Qed.

Lemma ceil_in_integers (m : Z) :
  1 <= m <= 10000 -> Math_ceil (div (of_Z m) (of_Z 100)) = of_Z ((m + 99) / 100).
Proof.
  intro Hm. apply (ceilAgrees_spec ceilTable ceilAgrees_holds).
  unfold ceilTable. replace m with (Z.of_nat (Z.to_nat m)) by lia.
  apply in_map. apply in_seq. lia.
Qed.

Lemma of_nat_lt (n : nat) (k : Z) :
  Z.of_nat n < 2 ^ 53 -> 0 <= k < 2 ^ 53 ->
  Num.lt (of_nat n) (of_Z k) = (Z.of_nat n <? k).
Proof. intros Hn Hk. unfold of_nat. apply of_Z_lt; lia. Qed.

Lemma of_nat_ge (n : nat) (k : Z) :
  Z.of_nat n < 2 ^ 53 -> 0 <= k < 2 ^ 53 ->
  Num.ge (of_nat n) (of_Z k) = (k <=? Z.of_nat n).
Proof. intros Hn Hk. unfold of_nat. apply of_Z_ge; lia. Qed.

Lemma truncate_of_Z (a : Z) : 0 <= a < 2 ^ 53 -> truncate (of_Z a) = a.
Proof.
  intro Ha. destruct a as [| p | p]; [reflexivity | | lia].
  destruct (of_Z_exact p) as (m & e & -> & He & Hm & _); [lia |].
  unfold truncate. destruct (0 <=? e) eqn:E.
  - apply Z.leb_le in E. assert (e = 0) by lia. subst e. simpl in Hm. lia.
  - rewrite Hm. apply Z.div_mul.
    assert (0 < 2 ^ (- e)) by (apply Z.pow_pos_nonneg; lia). lia.
Qed.

Lemma splice_of_Z {A : Type} (a : Z) (l : list A) :
  0 <= a < 2 ^ 53 -> splice (of_Z a) l = firstn (Z.to_nat a) l.
Proof.
  intro Ha. unfold splice.
  assert (Hc : (let relativeStart := truncate (of_Z a) in
                if relativeStart <? 0 then Z.max (Z.of_nat (List.length l) + relativeStart) 0
                else Z.min relativeStart (Z.of_nat (List.length l)))
               = Z.min a (Z.of_nat (List.length l))).
  { cbv zeta. rewrite truncate_of_Z by exact Ha.
    destruct (a <? 0) eqn:E; [apply Z.ltb_lt in E; lia | reflexivity]. }
  cbv zeta in Hc.
  destruct a as [| p | p]; [| | lia].
  { change (of_Z 0) with (S754_zero false) in *. cbv iota. rewrite Hc.
    rewrite Z.min_l by lia. reflexivity. }
  destruct (of_Z_exact p) as (m & e & Hx & _); [lia |].
  rewrite Hx in *. rewrite Hc.
  destruct (Z.le_ge_cases (Z.pos p) (Z.of_nat (List.length l))) as [H | H].
  - rewrite Z.min_l by exact H. reflexivity.
  - rewrite Z.min_r by exact H. rewrite Nat2Z.id.
    rewrite firstn_all. symmetry. apply firstn_all2. lia.
Qed.

(** Comparing an integer of either sign with a bound that is not
    negative. *)
Lemma of_Z_lt_bound (a b : Z) :
  - 2 ^ 53 < a < 2 ^ 53 -> 0 <= b < 2 ^ 53 -> Num.lt (of_Z a) (of_Z b) = (a <? b).
Proof.
  intros Ha Hb. destruct a as [| p | p].
  - apply of_Z_lt; lia.
  - apply of_Z_lt; lia.
  - destruct (of_Z_negative p) as (m & e & ->); [lia |].
    replace (Z.neg p <? b) with true by (symmetry; apply Z.ltb_lt; lia).
    destruct b as [| q | q]; [reflexivity | | lia].
    destruct (of_Z_exact q) as (m' & e' & -> & _); [lia |]. reflexivity.
Qed.

Lemma of_Z_gt_bound (a b : Z) :
  - 2 ^ 53 < a < 2 ^ 53 -> 0 <= b < 2 ^ 53 -> Num.gt (of_Z a) (of_Z b) = (b <? a).
Proof.
  intros Ha Hb. destruct a as [| p | p].
  - apply of_Z_gt; lia.
  - apply of_Z_gt; lia.
  - destruct (of_Z_negative p) as (m & e & ->); [lia |].
    replace (b <? Z.neg p) with false by (symmetry; apply Z.ltb_ge; lia).
    destruct b as [| q | q]; [reflexivity | | lia].
    destruct (of_Z_exact q) as (m' & e' & -> & _); [lia |]. reflexivity.
Qed.

End WholeNumbers.

(** ** The pace of the requests *)

Section Pacing.

Import RedditService.

Lemma stamps_app (a b : list Reddit.Event) : stamps (a ++ b) = (stamps a ++ stamps b)%list.
Proof. induction a as [| [] a IH]; cbn; rewrite ?IH; reflexivity. Qed.

Lemma requests_app (a b : list Reddit.Event) :
  requests (a ++ b) = (requests a ++ requests b)%list.
Proof. induction a as [| [] a IH]; cbn; rewrite ?IH; reflexivity. Qed.

Lemma savings_app (a b : list Reddit.Event) :
  savings (a ++ b) = (savings a ++ savings b)%list.
Proof. induction a as [| [] a IH]; cbn; rewrite ?IH; reflexivity. Qed.

Lemma spaced_snoc (l : list Z) (t : Z) :
  spaced l = true -> (l = [] \/ last l 0 + requestDelay <= t) -> spaced (l ++ [t]) = true.
Proof.
  induction l as [| a l IH]; intros Hs Hl; [reflexivity |].
  destruct l as [| b l].
  - cbn. destruct Hl as [Hl | Hl]; [discriminate |]. cbn in Hl.
    rewrite andb_true_r. apply Z.leb_le. exact Hl.
  - change ((a :: b :: l) ++ [t])%list with (a :: ((b :: l) ++ [t]))%list.
    change (spaced (a :: b :: l)) with ((a + requestDelay <=? b) && spaced (b :: l))%bool in Hs.
    apply andb_true_iff in Hs. destruct Hs as [Hab Hs].
    change (spaced (a :: (b :: l) ++ [t]))
      with ((a + requestDelay <=? b) && spaced ((b :: l) ++ [t]))%bool.
    rewrite Hab. cbn [andb]. apply IH; [exact Hs |].
    right. destruct Hl as [Hl | Hl]; [discriminate | exact Hl].
Qed.

(** What [ensureRateLimit] leaves behind. *)
Lemma ensureRateLimit_spec (env : Reddit.Env) (w : Reddit.World) :
  honest env ->
  let w' := ensureRateLimit env w in
  lastRequestTime w' = now w'
  /\ lastRequestTime w + requestDelay <= lastRequestTime w'
  /\ gets w' = gets w
  /\ saves w' = saves w
  /\ exists extra,
       history w' = (history w ++ extra ++ [Stamped (lastRequestTime w')])%list
       /\ stamps extra = [] /\ requests extra = [] /\ savings extra = [].
Proof.
  intros [Hp Ht]. destruct w as [lrt nw h a wt g s].
  unfold ensureRateLimit, Date_now, elapse, sleep, Reddit.record, setLastRequestTime.
  cbn [lastRequestTime now history answers waits gets saves].
  destruct (nw + passes env a - lrt <? requestDelay) eqn:E;
    cbn [lastRequestTime now history answers waits gets saves].
  - apply Z.ltb_lt in E.
    split; [reflexivity |]. split.
    + pose proof (Hp a). pose proof (Hp (S a)).
      pose proof (Ht wt (requestDelay - (nw + passes env a - lrt))). lia.
    + split; [reflexivity |]. split; [reflexivity |].
      match goal with
      | |- exists extra, (((_ ++ [?a]) ++ [?b]) ++ _)%list = _ /\ _ => exists [a; b]
      end.
      split; [rewrite <- !app_assoc; reflexivity |]. repeat split.
  - apply Z.ltb_ge in E.
    split; [reflexivity |]. split.
    + pose proof (Hp a). pose proof (Hp (S a)). lia.
    + split; [reflexivity |]. split; [reflexivity |].
      exists []. repeat split.
Qed.

Lemma record_paced (ev : Reddit.Event) (w : Reddit.World) :
  stamps [ev] = [] -> paced w -> paced (Reddit.record ev w).
Proof.
  intros Hev (H1 & H2 & H3 & H4). unfold paced, Reddit.record.
  cbn [lastRequestTime now history gets].
  rewrite stamps_app, Hev, app_nil_r. repeat split; assumption.
Qed.

(** One stored time and one request keep the pace. *)
Lemma request_paced (env : Reddit.Env) (ev : Reddit.Event) (req : Request)
    (w : Reddit.World) :
  honest env -> stamps [ev] = [] -> paced w ->
  paced (fst (get env req (Reddit.record ev (ensureRateLimit env w)))).
Proof.
  intros Hh Hev (H1 & H2 & H3 & H4).
  destruct (ensureRateLimit_spec env w Hh) as (E1 & E2 & E3 & E4 & extra & E5 & E6 & _).
  destruct Hh as [Hp _].
  set (w1 := ensureRateLimit env w) in *.
  assert (Hst : stamps ((history w1 ++ [ev]) ++ [Requested req])
                = (stamps (history w) ++ [lastRequestTime w1])%list).
  { rewrite E5, !stamps_app, E6, Hev. cbn [stamps app]. rewrite !app_nil_r. reflexivity. }
  unfold paced, get, elapse, Reddit.record.
  cbn [fst lastRequestTime now history answers waits gets saves].
  rewrite Hst.
  split; [| split; [| split]].
  - apply spaced_snoc; [exact H1 |].
    destruct (stamps (history w)) as [| a l] eqn:El; [left; reflexivity | right].
    rewrite H2. exact E2.
  - apply last_last.
  - pose proof (Hp (answers w1)). lia.
  - rewrite length_app, H4, E3. cbn. lia.
Qed.

Lemma batches_paced (env : Reddit.Env) (request : option string -> Request)
    (origin : string) (maxResults maxRequests : number) (fuel : nat) :
  honest env ->
  forall allPosts after totalRequests w w' r,
    paced w ->
    batches fuel env request origin maxResults maxRequests allPosts after totalRequests w
    = Some (w', r) ->
    paced w'.
Proof.
  intro Hh. induction fuel as [| fuel IH]; intros allPosts after totalRequests w w' r Hw H;
    cbn [batches] in H;
    destruct (Num.lt (of_nat (List.length allPosts)) maxResults
              && Num.lt (of_nat totalRequests) maxRequests)%bool;
    try discriminate; try (injection H as <- <-; exact Hw).
  match type of H with
  | context [get env ?req (Reddit.record ?ev (ensureRateLimit env w))] =>
      pose proof (request_paced env ev req w Hh eq_refl Hw) as Hp;
      destruct (get env req (Reddit.record ev (ensureRateLimit env w))) as [w3 [page | error]]
  end; cbn [fst] in Hp.
  - match type of H with
    | context [if ?c then _ else _] => destruct c
    end.
    + injection H as <- <-. apply record_paced; [reflexivity |].
      apply record_paced; [reflexivity | exact Hp].
    + match type of H with
      | context [if ?c then _ else _] => destruct c
      end.
      * injection H as <- <-. apply record_paced; [reflexivity |].
        apply record_paced; [reflexivity | exact Hp].
      * eapply IH; [| exact H]. apply record_paced; [reflexivity | exact Hp].
  - injection H as <- <-. apply record_paced; [reflexivity | exact Hp].
Qed.

End Pacing.

(** ** Writing the posts *)

Section Writes.

Import RedditPostRepository.

Lemma duplicate_message (i : string) :
  Str.includes ("Post with id " ++ i ++ " already exists") "already exists" = true.
Proof.
  apply includes_spec. exists ("Post with id " ++ i ++ " ")%string, ""%string.
  rewrite append_nil_r, !append_assoc. reflexivity.
Qed.

Lemma save_spec (env : Reddit.Env) (p : RedditPost) (w : Reddit.World) :
  let w1 := fst (save env p w) in
  snd (save env p w) = store env (saves w) p
  /\ history w1 = (history w ++ [Saving p])%list
  /\ saves w1 = S (saves w)
  /\ gets w1 = gets w
  /\ lastRequestTime w1 = lastRequestTime w
  /\ now w1 = now w + passes env (answers w).
Proof. repeat split. Qed.

(** [create] saves once; it fails where the save does, with the save's
    own error unless that is a duplicate key. *)
Lemma create_spec (env : Reddit.Env) (p : RedditPost) (w : Reddit.World) :
  fst (create env p w) = fst (save env p w)
  /\ match snd (create env p w) with
     | Ok _ => stored (store env (saves w) p) = true
     | Err e =>
         stored (store env (saves w) p) = false
         /\ Str.includes (err_message e) "already exists"
            = negb (fatal (store env (saves w) p))
         /\ (fatal (store env (saves w) p) = true ->
             exists code, store env (saves w) p = Rejected code e)
     end.
Proof.
  unfold create, save. cbn [fst snd].
  destruct (store env (saves w) p) as [doc | code error]; cbn [fst snd stored fatal].
  - split; reflexivity.
  - destruct (duplicateKey code) eqn:Ed; cbn [fst snd negb andb].
    + split; [reflexivity |]. split; [reflexivity |]. split.
      * cbn [err_message]. apply duplicate_message.
      * discriminate.
    + split; [reflexivity |]. split; [reflexivity |]. split.
      * rewrite Bool.negb_involutive. reflexivity.
      * intros _. exists code. reflexivity.
Qed.

Lemma save_paced (env : Reddit.Env) (p : RedditPost) (w : Reddit.World) :
  honest env -> paced w -> paced (fst (save env p w)).
Proof.
  intros [Hp _] (H1 & H2 & H3 & H4). unfold paced, save, elapse.
  cbn [fst lastRequestTime now history gets].
  rewrite stamps_app. cbn [stamps]. rewrite app_nil_r.
  repeat split; try assumption. pose proof (Hp (answers w)). lia.
Qed.

Lemma createMany_from_paced (env : Reddit.Env) (postsData : list RedditPost) :
  honest env ->
  forall created skipped w,
    paced w -> paced (fst (createMany_from env postsData created skipped w)).
Proof.
  intro Hh. induction postsData as [| p rest IH]; intros c s w Hw; [exact Hw |].
  cbn [createMany_from].
  pose proof (create_spec env p w) as [Hc _].
  pose proof (save_paced env p w Hh Hw) as Hs. rewrite <- Hc in Hs.
  destruct (create env p w) as [w1 [doc | e]]; cbn [fst] in Hs.
  - apply IH. exact Hs.
  - destruct (Str.includes (err_message e) "already exists"); [apply IH |]; exact Hs.
Qed.

(** The requests and the stored times are untouched by the writes. *)
Lemma createMany_from_requests (env : Reddit.Env) (postsData : list RedditPost) :
  forall created skipped w,
    let w' := fst (createMany_from env postsData created skipped w) in
    gets w' = gets w /\ requests (history w') = requests (history w).
Proof.
  induction postsData as [| p rest IH]; intros c s w; [split; reflexivity |].
  cbn [createMany_from].
  pose proof (create_spec env p w) as [Hc _].
  assert (Hs : gets (fst (create env p w)) = gets w
               /\ requests (history (fst (create env p w))) = requests (history w)).
  { rewrite Hc. unfold save, elapse. cbn [fst gets history].
    rewrite requests_app. cbn [requests]. rewrite app_nil_r. split; reflexivity. }
  destruct (create env p w) as [w1 [doc | e]]; cbn [fst] in Hs.
  - destruct (IH (S c) s w1) as [I1 I2]. cbv zeta. rewrite I1, I2. exact Hs.
  - destruct (Str.includes (err_message e) "already exists").
    + destruct (IH c (S s) w1) as [I1 I2]. cbv zeta. rewrite I1, I2. exact Hs.
    + exact Hs.
Qed.

(** Without a fatal outcome every post is handed to [save], once and in
    order, and counted. *)
Lemma createMany_from_clean (env : Reddit.Env) (postsData : list RedditPost) :
  forall created skipped w,
    existsb fatal (outcomes env (saves w) postsData) = false ->
    exists w',
      createMany_from env postsData created skipped w
      = (w', Ok ((created + List.length (filter stored (outcomes env (saves w) postsData)))%nat,
                 (skipped + List.length
                              (filter (fun o => negb (stored o))
                                      (outcomes env (saves w) postsData)))%nat))
      /\ savings (history w') = (savings (history w) ++ postsData)%list
      /\ saves w' = (saves w + List.length postsData)%nat.
Proof.
  induction postsData as [| p rest IH]; intros c s w Hf.
  - exists w. cbn. rewrite !Nat.add_0_r, app_nil_r. repeat split.
  - cbn [outcomes existsb] in Hf. apply orb_false_iff in Hf. destruct Hf as [Hf1 Hf2].
    cbn [createMany_from outcomes filter].
    pose proof (create_spec env p w) as [Hc Hr].
    pose proof (save_spec env p w) as (_ & S1 & S2 & _).
    rewrite <- Hc in S1, S2.
    destruct (create env p w) as [w1 [doc | e]]; cbn [fst snd] in *.
    + rewrite Hr. cbn [negb].
      rewrite <- S2 in Hf2. destruct (IH (S c) s w1 Hf2) as (w' & E1 & E2 & E3).
      exists w'. rewrite E1, E2, E3, S1, S2, savings_app. cbn [savings List.length].
      rewrite <- app_assoc. cbn [app].
      repeat split; try lia. do 3 f_equal; lia.
    + destruct Hr as (R1 & R2 & _). rewrite R1, R2, Hf1. cbn [negb].
      rewrite <- S2 in Hf2. destruct (IH c (S s) w1 Hf2) as (w' & E1 & E2 & E3).
      exists w'. rewrite E1, E2, E3, S1, S2, savings_app. cbn [savings List.length].
      rewrite <- app_assoc. cbn [app].
      repeat split; try lia. do 3 f_equal; lia.
Qed.

(** The first fatal outcome ends the loop with its error; the posts after
    it are never handed to [save]. *)
Lemma createMany_from_fatal (env : Reddit.Env) (postsData : list RedditPost) :
  forall created skipped w before o rest,
    outcomes env (saves w) postsData = (before ++ o :: rest)%list ->
    existsb fatal before = false ->
    fatal o = true ->
    exists w' code e,
      o = Rejected code e
      /\ createMany_from env postsData created skipped w = (w', Err e)
      /\ savings (history w')
         = (savings (history w) ++ firstn (S (List.length before)) postsData)%list
      /\ saves w' = (saves w + S (List.length before))%nat.
Proof.
  induction postsData as [| p ps IH]; intros c s w before o rest Ho Hb Hf.
  - destruct before; discriminate.
  - cbn [outcomes] in Ho. cbn [createMany_from].
    pose proof (create_spec env p w) as [Hc Hr].
    pose proof (save_spec env p w) as (_ & S1 & S2 & _).
    rewrite <- Hc in S1, S2.
    destruct before as [| b before].
    + cbn [app] in Ho. injection Ho as Ho1 Ho2. rewrite Ho1 in Hr.
      destruct (create env p w) as [w1 [doc | e]]; cbn [fst snd] in *.
      * destruct o; cbn in Hr, Hf; congruence.
      * destruct Hr as (_ & R2 & R3). rewrite R2, Hf. cbn [negb].
        destruct (R3 Hf) as [code Hcode].
        exists w1, code, e. split; [exact Hcode |]. split; [reflexivity |].
        rewrite S1, S2, savings_app. cbn. split; [reflexivity | lia].
    + cbn [app] in Ho. injection Ho as Ho1 Ho2. rewrite Ho1 in Hr.
      cbn [existsb] in Hb. apply orb_false_iff in Hb. destruct Hb as [Hb1 Hb2].
      destruct (create env p w) as [w1 [doc | e]]; cbn [fst snd] in *.
      * rewrite <- S2 in Ho2.
        destruct (IH (S c) s w1 before o rest Ho2 Hb2 Hf) as (w' & code & e & E0 & E1 & E2 & E3).
        exists w', code, e. split; [exact E0 |]. split; [exact E1 |].
        rewrite E2, E3, S1, S2, savings_app. cbn [savings List.length firstn].
        rewrite <- app_assoc. cbn [app]. split; [reflexivity | lia].
      * destruct Hr as (_ & R2 & _). rewrite R2, Hb1. cbn [negb].
        rewrite <- S2 in Ho2.
        destruct (IH c (S s) w1 before o rest Ho2 Hb2 Hf) as (w' & code & e' & E0 & E1 & E2 & E3).
        exists w', code, e'. split; [exact E0 |]. split; [exact E1 |].
        rewrite E2, E3, S1, S2, savings_app. cbn [savings List.length firstn].
        rewrite <- app_assoc. cbn [app]. split; [reflexivity | lia].
Qed.

Lemma outcomes_length (env : Reddit.Env) (postsData : list RedditPost) (n : nat) :
  List.length (outcomes env n postsData) = List.length postsData.
Proof.
  revert n. induction postsData as [| p ps IH]; intro n; [reflexivity |].
  cbn [outcomes List.length]. rewrite IH. reflexivity.
Qed.

End Writes.

(** ** The batches of one collection *)

Section Batches.

Import RedditService.

Lemma ensureRateLimit_frame (env : Reddit.Env) (w : Reddit.World) :
  let w' := ensureRateLimit env w in
  gets w' = gets w
  /\ saves w' = saves w
  /\ requests (history w') = requests (history w)
  /\ savings (history w') = savings (history w).
Proof.
  destruct w as [lrt nw h a wt g s].
  unfold ensureRateLimit, Date_now, elapse, sleep, Reddit.record, setLastRequestTime.
  cbn [lastRequestTime now history answers waits gets saves].
  destruct (nw + passes env a - lrt <? requestDelay);
    cbn [lastRequestTime now history answers waits gets saves];
    rewrite ?requests_app, ?savings_app; cbn [requests savings]; rewrite ?app_nil_r;
    repeat split.
Qed.

(** One turn of the loop up to the answer: the current request is sent
    as the next GET. *)
Lemma round_frame (env : Reddit.Env) (msg : string) (req : Request) (w : Reddit.World) :
  let w3 := fst (get env req (Reddit.record (Logged SDebug msg) (ensureRateLimit env w))) in
  snd (get env req (Reddit.record (Logged SDebug msg) (ensureRateLimit env w)))
  = reddit env (gets w) req
  /\ gets w3 = S (gets w)
  /\ saves w3 = saves w
  /\ requests (history w3) = (requests (history w) ++ [req])%list
  /\ savings (history w3) = savings (history w).
Proof.
  destruct (ensureRateLimit_frame env w) as (E1 & E2 & E3 & E4).
  unfold get, elapse, Reddit.record.
  cbn [fst snd lastRequestTime now history answers waits gets saves].
  rewrite !requests_app, !savings_app, E1, E2, E3, E4. cbn [requests savings].
  rewrite !app_nil_r. repeat split.
Qed.

Lemma record_frame (ev : Reddit.Event) (w : Reddit.World) :
  requests [ev] = [] -> savings [ev] = [] ->
  gets (Reddit.record ev w) = gets w
  /\ saves (Reddit.record ev w) = saves w
  /\ requests (history (Reddit.record ev w)) = requests (history w)
  /\ savings (history (Reddit.record ev w)) = savings (history w).
Proof.
  intros Hr Hs. unfold Reddit.record. cbn [gets saves history].
  rewrite requests_app, savings_app, Hr, Hs, !app_nil_r. repeat split.
Qed.

(** With [maxRequests] a whole number [k], the loop comes to its end
    within [k - totalRequests] turns and sends at most that many
    requests. *)
Lemma batches_bound (env : Reddit.Env) (request : option string -> Request)
    (origin : string) (maxResults : number) (k : Z) :
  0 <= k < 2 ^ 53 ->
  forall fuel allPosts after totalRequests w,
    Z.of_nat totalRequests <= k ->
    (Z.to_nat k - totalRequests <= fuel)%nat ->
    exists w' r,
      batches fuel env request origin maxResults (of_Z k) allPosts after totalRequests w
      = Some (w', r)
      /\ (gets w <= gets w')%nat
      /\ Z.of_nat (gets w') - Z.of_nat (gets w) <= k - Z.of_nat totalRequests.
Proof.
  intro Hk. induction fuel as [| fuel IH]; intros allPosts after n w Hn Hfuel;
    cbn [batches]; rewrite (of_nat_lt n k) by lia;
    destruct (Num.lt (of_nat (List.length allPosts)) maxResults); cbn [andb];
    try (exists w; eexists; split; [reflexivity | split; lia]);
    destruct (Z.of_nat n <? k) eqn:E;
    try (exists w; eexists; split; [reflexivity | split; lia]);
    apply Z.ltb_lt in E; [lia |].
  match goal with
  | |- context [get env ?req (Reddit.record (Logged SDebug ?msg) (ensureRateLimit env w))] =>
      pose proof (round_frame env msg req w) as (_ & G & _);
      destruct (get env req (Reddit.record (Logged SDebug msg) (ensureRateLimit env w)))
        as [w3 [page | error]]
  end; cbn [fst] in G.
  - match goal with
    | |- context [if ?c then _ else _] => destruct c
    end.
    + eexists; eexists; split; [reflexivity |].
      unfold Reddit.record; cbn [gets]. split; lia.
    + match goal with
      | |- context [if ?c then _ else _] => destruct c
      end.
      * eexists; eexists; split; [reflexivity |].
        unfold Reddit.record; cbn [gets]. split; lia.
      * match goal with
        | |- context [batches fuel env request origin maxResults (of_Z k) ?a ?c ?m ?w4] =>
            destruct (IH a c m w4) as (w' & r & E1 & E2 & E3); [lia | lia |]
        end.
        exists w', r. split; [exact E1 |].
        unfold Reddit.record in E2, E3; cbn [gets] in E2, E3. split; lia.
  - eexists; eexists; split; [reflexivity |].
    unfold Reddit.record; cbn [gets]. split; lia.
Qed.

End Batches.

(** ** What a collection returns *)

Section Collected.

Import RedditService.

Lemma last_cons {A : Type} (a d : A) (l : list A) : last (a :: l) d = last l a.
Proof.
  revert a d. induction l as [| b l IH]; intros a d; [reflexivity |].
  change (last (a :: b :: l) d) with (last (b :: l) d). rewrite !IH. reflexivity.
Qed.

(** The posts returned are the posts of the pages fetched, in order; they
    are cut only where the limit is reached while a cursor remains. *)
Lemma batches_listing (env : Reddit.Env) (request : option string -> Request)
    (origin : string) (maxResults maxRequests : number) (fuel : nat) :
  forall allPosts after totalRequests w w' posts' after' totalRequests',
    batches fuel env request origin maxResults maxRequests allPosts after totalRequests w
    = Some (w', Ok (posts', after', totalRequests')) ->
    (gets w <= gets w')%nat
    /\ after' = last (map page_after (listing env request (gets w) after (gets w' - gets w)))
                     after
    /\ exists rest,
         (allPosts
          ++ map toPost (flat_map children
                           (listing env request (gets w) after (gets w' - gets w))))%list
         = (posts' ++ rest)%list
         /\ (truthy after' = false -> rest = []).
Proof.
  induction fuel as [| fuel IH]; intros allPosts after n w w' posts' after' n' H;
    cbn [batches] in H;
    destruct (Num.lt (of_nat (List.length allPosts)) maxResults
              && Num.lt (of_nat n) maxRequests)%bool;
    try discriminate;
    try (injection H as <- <- <- <-; rewrite Nat.sub_diag; cbn [listing flat_map map last];
         split; [lia | split; [reflexivity | exists []; split; [reflexivity | reflexivity]]]).
  match type of H with
  | context [get env ?req (Reddit.record (Logged SDebug ?msg) (ensureRateLimit env w))] =>
      pose proof (round_frame env msg req w) as (A & G & _);
      destruct (get env req (Reddit.record (Logged SDebug msg) (ensureRateLimit env w)))
        as [w3 [page | error]]
  end; cbn [fst snd] in A, G; [| discriminate].
  match type of H with
  | context [if ?c then _ else _] => destruct c eqn:Estop
  end.
  - injection H as <- <- <- <-. unfold Reddit.record; cbn [gets]. rewrite G.
    replace (S (gets w) - gets w)%nat with 1%nat by lia.
    cbn [listing]. rewrite <- A. cbn [flat_map map last]. rewrite app_nil_r.
    split; [lia |]. split; [reflexivity |]. exists []. rewrite app_nil_r. split; reflexivity.
  - match type of H with
    | context [if ?c then _ else _] => destruct c
    end.
    + injection H as <- <- <- <-. unfold Reddit.record; cbn [gets]. rewrite G.
      replace (S (gets w) - gets w)%nat with 1%nat by lia.
      cbn [listing]. rewrite <- A. cbn [flat_map map last]. rewrite app_nil_r.
      split; [lia |]. split; [reflexivity |].
      apply orb_false_iff in Estop. destruct Estop as [Ea _].
      apply Bool.negb_false_iff in Ea.
      unfold splice.
      match goal with
      | |- context [firstn ?k ?l] => exists (skipn k l); split; [symmetry; apply firstn_skipn |]
      end.
      intro Hn. rewrite Hn in Ea. discriminate.
    + apply IH in H. destruct H as (H1 & H2 & rest & H3 & H4).
      unfold Reddit.record in H1, H2, H3; cbn [gets] in H1, H2, H3. rewrite G in H1, H2, H3.
      replace (gets w' - gets w)%nat with (S (gets w' - S (gets w))) by lia.
      cbn [listing]. rewrite <- A. cbn [flat_map map]. rewrite last_cons.
      split; [lia |]. split; [exact H2 |].
      exists rest. split; [| exact H4].
      rewrite map_app, app_assoc. exact H3.
Qed.

(** With pages of at most 100 posts and a whole limit [m], fewer than
    [m + 100] posts are returned, and at most [m] while a cursor
    remains. *)
Lemma batches_size (env : Reddit.Env) (request : option string -> Request)
    (origin : string) (m : Z) (maxRequests : number) (fuel : nat) :
  1 <= m <= 10000 ->
  (forall n req page, reddit env n req = Ok page -> (List.length (children page) <= 100)%nat) ->
  forall allPosts after totalRequests w w' posts' after' totalRequests',
    Z.of_nat (List.length allPosts) < m ->
    batches fuel env request origin (of_Z m) maxRequests allPosts after totalRequests w
    = Some (w', Ok (posts', after', totalRequests')) ->
    Z.of_nat (List.length posts') < m + 100
    /\ (truthy after' = true -> Z.of_nat (List.length posts') <= m).
Proof.
  intros Hm Hpages.
  induction fuel as [| fuel IH]; intros allPosts after n w w' posts' after' n' Hlen H;
    cbn [batches] in H;
    destruct (Num.lt (of_nat (List.length allPosts)) (of_Z m)
              && Num.lt (of_nat n) maxRequests)%bool;
    try discriminate;
    try (injection H as <- <- <- <-; split; [lia | intros _; lia]).
  match type of H with
  | context [get env ?req (Reddit.record (Logged SDebug ?msg) (ensureRateLimit env w))] =>
      pose proof (round_frame env msg req w) as (A & _);
      destruct (get env req (Reddit.record (Logged SDebug msg) (ensureRateLimit env w)))
        as [w3 [page | error]]
  end; cbn [fst snd] in A; [| discriminate].
  symmetry in A. apply Hpages in A.
  assert (Hb : Z.of_nat (List.length (allPosts ++ map toPost (children page))%list)
               = Z.of_nat (List.length allPosts) + Z.of_nat (List.length (children page))).
  { rewrite length_app, length_map. lia. }
  match type of H with
  | context [if ?c then _ else _] => destruct c eqn:Estop
  end.
  - injection H as <- <- <- <-. split; [lia |]. intro Ht. rewrite Ht in Estop.
    cbn [negb orb] in Estop. apply Nat.eqb_eq in Estop. rewrite length_map in Estop. lia.
  - rewrite of_nat_ge in H by (change (2 ^ 53) with 9007199254740992; lia).
    match type of H with
    | context [if ?c then _ else _] => destruct c eqn:Elim
    end.
    + injection H as <- <- <- <-.
      rewrite splice_of_Z by (change (2 ^ 53) with 9007199254740992; lia).
      match goal with
      | |- context [firstn ?k ?l] => pose proof (firstn_le_length k l) as Hf;
                                     pose proof (length_firstn k l) as Hg
      end.
      split; [lia | intros _; lia].
    + apply Z.leb_gt in Elim. eapply IH; [| exact H]. lia.
Qed.

End Collected.

(** ** Reading a bound *)

Section Reading.

Lemma digit_value_bound (c : ascii) : is_digit c = true -> 0 <= digit_value c <= 9.
Proof.
  unfold is_digit, digit_value. intro H. apply andb_true_iff in H. destruct H as [H1 H2].
  apply Nat.leb_le in H1. apply Nat.leb_le in H2. lia.
Qed.

Lemma leading_digits_bound (s : string) :
  forall a, 0 <= a ->
    exists n, leading_digits s (Some a) = Some n
              /\ 0 <= n < (a + 1) * 10 ^ Z.of_nat (String.length s).
Proof.
  induction s as [| c r IH]; intros a Ha.
  - exists a. split; [reflexivity |]. cbn. lia.
  - cbn [leading_digits String.length]. rewrite Nat2Z.inj_succ, Z.pow_succ_r by lia.
    assert (Hp : 0 < 10 ^ Z.of_nat (String.length r)) by (apply Z.pow_pos_nonneg; lia).
    destruct (is_digit c) eqn:Ec.
    + pose proof (digit_value_bound c Ec) as Hd.
      destruct (IH (10 * a + digit_value c)) as (n & Hn & Hb); [lia |].
      exists n. split; [exact Hn |]. nia.
    + exists a. split; [reflexivity |]. nia.
Qed.

Lemma leading_digits_start (s : string) :
  leading_digits s None = None
  \/ exists n, leading_digits s None = Some n /\ 0 <= n < 10 ^ Z.of_nat (String.length s).
Proof.
  destruct s as [| c r]; [left; reflexivity |].
  cbn [leading_digits String.length]. rewrite Nat2Z.inj_succ, Z.pow_succ_r by lia.
  destruct (is_digit c) eqn:Ec; [right | left; reflexivity].
  pose proof (digit_value_bound c Ec) as Hd.
  destruct (leading_digits_bound r (10 * 0 + digit_value c)) as (n & Hn & Hb); [lia |].
  exists n. split; [exact Hn |].
  assert (Hp : 0 < 10 ^ Z.of_nat (String.length r)) by (apply Z.pow_pos_nonneg; lia). nia.
Qed.

Lemma skip_spaces_length (s : string) :
  (String.length (Str.skip_spaces s) <= String.length s)%nat.
Proof.
  induction s as [| c r IH]; [apply Nat.le_refl |].
  cbn [Str.skip_spaces]. destruct (Str.is_space c); cbn [String.length]; lia.
Qed.

Lemma signed_length (s : string) :
  (String.length (snd (signed s)) <= String.length s)%nat.
Proof.
  destruct s as [| c r]; [apply Nat.le_refl |].
  unfold signed. bits c; cbn [snd String.length]; lia.
Qed.

(** [parseInt] gives NaN where no integer is read, and otherwise the
    double of the integer read, of magnitude below [10 ^ length];  a zero
    read after a minus sign is the negative zero. *)
Lemma parseInt_spec (s : string) :
  match integerRead s with
  | None => parseInt s = NaN
  | Some z =>
      (parseInt s = of_Z z \/ (z = 0 /\ parseInt s = S754_zero true))
      /\ - 10 ^ Z.of_nat (String.length s) < z < 10 ^ Z.of_nat (String.length s)
  end.
Proof.
  unfold integerRead, parseInt.
  pose proof (signed_length (Str.skip_spaces s)) as Hl1.
  pose proof (skip_spaces_length s) as Hl2.
  destruct (signed (Str.skip_spaces s)) as [negative body]. cbn [snd] in Hl1.
  destruct (leading_digits_start body) as [-> | (n & -> & Hn)]; [reflexivity |].
  assert (Hpow : 10 ^ Z.of_nat (String.length body) <= 10 ^ Z.of_nat (String.length s))
    by (apply Z.pow_le_mono_r; lia).
  destruct negative.
  - split; [| lia]. destruct (n =? 0) eqn:E.
    + apply Z.eqb_eq in E. subst n. right. split; reflexivity.
    + left. reflexivity.
  - split; [left; reflexivity | lia].
Qed.

End Reading.

(** ** Properties of the collection *)

Section CollectionProperties.

Import RedditService.

Lemma andSave_paced (env : Reddit.Env) (saveToDatabase : bool)
    (found : option (Reddit.World * Result RedditSearchResponse))
    (w' : Reddit.World) (r : Result SavedResponse) :
  honest env ->
  (forall w1 r1, found = Some (w1, r1) -> paced w1) ->
  andSave env saveToDatabase found = Some (w', r) -> paced w'.
Proof.
  intros Hh Hf H. unfold andSave in H.
  destruct found as [[w1 [res | e]] |]; [| | discriminate].
  - specialize (Hf w1 (Ok res) eq_refl).
    destruct (saveToDatabase && Nat.ltb 0 (List.length (posts res)))%bool.
    + unfold savePostsToDatabase, RedditPostRepository.createMany in H.
      match type of H with
      | context [RedditPostRepository.createMany_from env ?ps 0 0 (Reddit.record ?ev w1)] =>
          pose proof (createMany_from_paced env ps Hh 0%nat 0%nat (Reddit.record ev w1)
                        (record_paced ev w1 eq_refl Hf)) as Hp;
          destruct (RedditPostRepository.createMany_from env ps 0 0 (Reddit.record ev w1))
            as [w2 [[c s] | e]]
      end; cbn [fst] in Hp; injection H as <- _; apply record_paced; auto.
    + injection H as <- _. exact Hf.
  - injection H as <- _. exact (Hf w1 (Err e) eq_refl).
Qed.

Lemma searchAllPosts_paced (env : Reddit.Env) (fuel : nat) (query : string)
    (subreddit : option string) (maxResults : number) (w w' : Reddit.World)
    (r : Result RedditSearchResponse) :
  honest env -> paced w ->
  searchAllPosts fuel env query subreddit maxResults w = Some (w', r) -> paced w'.
Proof.
  intros Hh Hw H. unfold searchAllPosts in H.
  match type of H with
  | context [batches fuel env ?rq ?o ?m ?k ?a ?c ?n ?w0] =>
      pose proof (batches_paced env rq o m k fuel Hh a c n w0) as Hb;
      destruct (batches fuel env rq o m k a c n w0) as [[w1 [[[ps af] tr] | e]] |]
  end; [| | discriminate].
  - injection H as <- _. apply record_paced; [reflexivity |].
    eapply Hb; [| reflexivity]. apply record_paced; [reflexivity | exact Hw].
  - injection H as <- _.
    eapply Hb; [| reflexivity]. apply record_paced; [reflexivity | exact Hw].
Qed.

Lemma getAllSubredditPosts_paced (env : Reddit.Env) (fuel : nat) (subreddit sort : string)
    (maxResults : number) (w w' : Reddit.World) (r : Result RedditSearchResponse) :
  honest env -> paced w ->
  getAllSubredditPosts fuel env subreddit sort maxResults w = Some (w', r) -> paced w'.
Proof.
  intros Hh Hw H. unfold getAllSubredditPosts in H.
  match type of H with
  | context [batches fuel env ?rq ?o ?m ?k ?a ?c ?n ?w0] =>
      pose proof (batches_paced env rq o m k fuel Hh a c n w0) as Hb;
      destruct (batches fuel env rq o m k a c n w0) as [[w1 [[[ps af] tr] | e]] |]
  end; [| | discriminate].
  - injection H as <- _. apply record_paced; [reflexivity |].
    eapply Hb; [| reflexivity]. apply record_paced; [reflexivity | exact Hw].
  - injection H as <- _.
    eapply Hb; [| reflexivity]. apply record_paced; [reflexivity | exact Hw].
Qed.

(** X11. Run one at a time under a clock that does not run backwards and
    timers that do not fire early, the four collecting methods of the
    service keep the pace: the times stored in [lastRequestTime] before
    the requests are at least 1000 ms apart, across the batches of one
    call and from one call to the next, one such time is stored for each
    request sent, and the field holds the last of them. *)
Theorem requests_keep_their_distance (env : Reddit.Env) (w : Reddit.World) :
  honest env -> paced w ->
  (forall fuel query subreddit maxResults w' r,
      searchAllPosts fuel env query subreddit maxResults w = Some (w', r) -> paced w')
  /\ (forall fuel subreddit sort maxResults w' r,
         getAllSubredditPosts fuel env subreddit sort maxResults w = Some (w', r) ->
         paced w')
  /\ (forall fuel query subreddit maxResults saveToDatabase w' r,
         searchAndSavePosts fuel env query subreddit maxResults saveToDatabase w
         = Some (w', r) -> paced w')
  /\ (forall fuel subreddit sort maxResults saveToDatabase w' r,
         getSubredditAndSavePosts fuel env subreddit sort maxResults saveToDatabase w
         = Some (w', r) -> paced w').
Proof.
  intros Hh Hw. split; [| split; [| split]].
  - intros fuel query subreddit maxResults w' r H.
    exact (searchAllPosts_paced env fuel query subreddit maxResults w w' r Hh Hw H).
  - intros fuel subreddit sort maxResults w' r H.
    exact (getAllSubredditPosts_paced env fuel subreddit sort maxResults w w' r Hh Hw H).
  - intros fuel query subreddit maxResults saveToDatabase w' r H.
    unfold searchAndSavePosts in H. eapply andSave_paced; [exact Hh | | exact H].
    intros w1 r1 H1.
    exact (searchAllPosts_paced env fuel query subreddit maxResults w w1 r1 Hh Hw H1).
  - intros fuel subreddit sort maxResults saveToDatabase w' r H.
    unfold getSubredditAndSavePosts in H. eapply andSave_paced; [exact Hh | | exact H].
    intros w1 r1 H1.
    exact (getAllSubredditPosts_paced env fuel subreddit sort maxResults w w1 r1 Hh Hw H1).
Qed.

(** X12. For a whole limit [m] between 1 and 10000, the values the
    endpoints let through, a collection comes to its end, with a result
    or with the error of a request, after at most [ceil (m / 100)]
    requests, whatever Reddit answers. *)
Theorem collection_sends_bounded_requests (env : Reddit.Env) (m : Z) (fuel : nat)
    (w : Reddit.World) :
  1 <= m <= 10000 ->
  (Z.to_nat ((m + 99) / 100) <= fuel)%nat ->
  (forall query subreddit,
      exists w' r,
        searchAllPosts fuel env query subreddit (of_Z m) w = Some (w', r)
        /\ (gets w <= gets w')%nat
        /\ Z.of_nat (gets w' - gets w) <= (m + 99) / 100)
  /\ (forall subreddit sort,
         exists w' r,
           getAllSubredditPosts fuel env subreddit sort (of_Z m) w = Some (w', r)
           /\ (gets w <= gets w')%nat
           /\ Z.of_nat (gets w' - gets w) <= (m + 99) / 100).
Proof.
  intros Hm Hfuel.
  assert (Hk : 0 <= (m + 99) / 100 < 2 ^ 53).
  { split; [apply Z.div_pos; lia |].
    apply Z.le_lt_trans with 10099; [| reflexivity].
    apply Z.div_le_upper_bound; lia. }
  split.
  - intros query subreddit. unfold searchAllPosts. rewrite (ceil_in_integers m Hm).
    match goal with
    | |- context [batches fuel env ?rq ?o ?mr (of_Z ?k) ?a ?c ?n ?w0] =>
        destruct (batches_bound env rq o mr k Hk fuel a c n w0) as (w1 & r & E & G1 & G2);
        [cbn; lia | lia |]; rewrite E
    end.
    unfold Reddit.record in G1, G2; cbn [gets] in G1, G2.
    destruct r as [[[ps af] tr] | e]; eexists; eexists;
      (split; [reflexivity |]); unfold Reddit.record; cbn [gets]; split; lia.
  - intros subreddit sort. unfold getAllSubredditPosts. rewrite (ceil_in_integers m Hm).
    match goal with
    | |- context [batches fuel env ?rq ?o ?mr (of_Z ?k) ?a ?c ?n ?w0] =>
        destruct (batches_bound env rq o mr k Hk fuel a c n w0) as (w1 & r & E & G1 & G2);
        [cbn; lia | lia |]; rewrite E
    end.
    unfold Reddit.record in G1, G2; cbn [gets] in G1, G2.
    destruct r as [[[ps af] tr] | e]; eexists; eexists;
      (split; [reflexivity |]); unfold Reddit.record; cbn [gets]; split; lia.
Qed.

(** X13. The limit is not a hard cap.  When Reddit serves pages of at
    most 100 posts, a collection with a whole limit [m] between 1 and
    10000 returns fewer than [m + 100] posts, and at most [m] when it
    returns a cursor; [total] is the number of posts returned. *)
Theorem collection_may_exceed_the_limit (env : Reddit.Env) (m : Z) :
  1 <= m <= 10000 ->
  (forall n req page,
      reddit env n req = Ok page -> (List.length (children page) <= 100)%nat) ->
  (forall fuel query subreddit w w' r,
      searchAllPosts fuel env query subreddit (of_Z m) w = Some (w', Ok r) ->
      total r = List.length (posts r)
      /\ Z.of_nat (List.length (posts r)) < m + 100
      /\ (truthy (after r) = true -> Z.of_nat (List.length (posts r)) <= m))
  /\ (forall fuel subreddit sort w w' r,
         getAllSubredditPosts fuel env subreddit sort (of_Z m) w = Some (w', Ok r) ->
         total r = List.length (posts r)
         /\ Z.of_nat (List.length (posts r)) < m + 100
         /\ (truthy (after r) = true -> Z.of_nat (List.length (posts r)) <= m)).
Proof.
  intros Hm Hpages. split.
  - intros fuel query subreddit w w' r H. unfold searchAllPosts in H.
    match type of H with
    | context [batches fuel env ?rq ?o ?mr ?k ?a ?c ?n ?w0] =>
        pose proof (batches_size env rq o m k fuel Hm Hpages a c n w0) as Hb;
        destruct (batches fuel env rq o mr k a c n w0) as [[w1 [[[ps af] tr] | e]] |]
    end; try discriminate.
    injection H as _ <-. cbn [posts total after]. split; [reflexivity |].
    eapply Hb; [cbn; lia | reflexivity].
  - intros fuel subreddit sort w w' r H. unfold getAllSubredditPosts in H.
    match type of H with
    | context [batches fuel env ?rq ?o ?mr ?k ?a ?c ?n ?w0] =>
        pose proof (batches_size env rq o m k fuel Hm Hpages a c n w0) as Hb;
        destruct (batches fuel env rq o mr k a c n w0) as [[w1 [[[ps af] tr] | e]] |]
    end; try discriminate.
    injection H as _ <-. cbn [posts total after]. split; [reflexivity |].
    eapply Hb; [cbn; lia | reflexivity].
Qed.

End CollectionProperties.

(** ** Properties of the endpoints and of the writes *)

Section EndpointProperties.

Import RedditService.

Lemma truthy_Some (s : string) : s <> ""%string -> truthy (Some s) = true.
Proof. destruct s; [congruence | reflexivity]. Qed.

Lemma truthy_shown (s : option string) : truthy s = true -> s = Some (shown s).
Proof. destruct s as [[| c r] |]; try discriminate. reflexivity. Qed.

Lemma maxResultsNumber_unreadable (max : string) :
  max <> ""%string -> integerRead max = None ->
  RedditController.maxResultsNumber (Some max) = Ok NaN.
Proof.
  intros Hne Hr. unfold RedditController.maxResultsNumber.
  rewrite (truthy_Some max Hne). cbn [shown].
  pose proof (parseInt_spec max) as Hp. rewrite Hr in Hp. rewrite Hp. reflexivity.
Qed.

Lemma batches_NaN (fuel : nat) (env : Reddit.Env) (request : option string -> Request)
    (origin : string) (w : Reddit.World) :
  batches fuel env request origin NaN (Math_ceil (div NaN (of_Z 100))) [] None 0 w
  = Some (w, Ok ([], None, 0%nat)).
Proof. destruct fuel; reflexivity. Qed.

(** X14. A [max] of ASCII characters that is present but does not begin,
    after white space and one sign, with a digit passes both checks of
    the endpoints as NaN.  The service then answers at once with no
    posts, [total] 0 and no cursor; no request is sent and nothing is
    written, even when saving is asked for. *)
Theorem unreadable_max_is_served_empty (fuel : nat) (env : Reddit.Env)
    (query subreddit sort saveToDatabase : option string) (max : string)
    (w : Reddit.World) :
  max <> ""%string ->
  Str.asciiText max = true ->
  integerRead max = None ->
  (truthy query = true ->
   exists w',
     RedditController.searchAllPosts fuel env query subreddit (Some max) w
     = Some (w', Ok (mkResponse [] 0 None))
     /\ gets w' = gets w /\ saves w' = saves w)
  /\ (truthy subreddit = true ->
      exists w',
        RedditController.getAllSubredditPosts fuel env subreddit sort (Some max) w
        = Some (w', Ok (mkResponse [] 0 None))
        /\ gets w' = gets w /\ saves w' = saves w)
  /\ (truthy query = true ->
      exists w',
        RedditController.searchAndSavePosts fuel env query subreddit (Some max)
                                            saveToDatabase w
        = Some (w', Ok (mkSavedResponse (mkResponse [] 0 None) None))
        /\ gets w' = gets w /\ saves w' = saves w)
  /\ (truthy subreddit = true ->
      exists w',
        RedditController.getSubredditAndSavePosts fuel env subreddit sort (Some max)
                                                  saveToDatabase w
        = Some (w', Ok (mkSavedResponse (mkResponse [] 0 None) None))
        /\ gets w' = gets w /\ saves w' = saves w).
Proof.
  intros Hne _ Hr. pose proof (maxResultsNumber_unreadable max Hne Hr) as Hm.
  split; [| split; [| split]]; intro Ht.
  - unfold RedditController.searchAllPosts. rewrite Ht, Hm. cbn [negb].
    unfold searchAllPosts. rewrite batches_NaN.
    eexists. split; [reflexivity |]. split; reflexivity.
  - unfold RedditController.getAllSubredditPosts. rewrite Ht, Hm. cbn [negb].
    unfold getAllSubredditPosts. rewrite batches_NaN.
    eexists. split; [reflexivity |]. split; reflexivity.
  - unfold RedditController.searchAndSavePosts. rewrite Ht, Hm. cbn [negb].
    unfold searchAndSavePosts, searchAllPosts. rewrite batches_NaN.
    unfold andSave. cbn [posts List.length Nat.ltb Nat.leb]. rewrite andb_false_r.
    eexists. split; [reflexivity |]. split; reflexivity.
  - unfold RedditController.getSubredditAndSavePosts. rewrite Ht, Hm. cbn [negb].
    unfold getSubredditAndSavePosts, getAllSubredditPosts. rewrite batches_NaN.
    unfold andSave. cbn [posts List.length Nat.ltb Nat.leb]. rewrite andb_false_r.
    eexists. split; [reflexivity |]. split; reflexivity.
Qed.

(** X15. On a [max] of at most 15 ASCII characters the two checks of the
    endpoints are checks on the integer that [parseInt] reads: above
    10000 it is refused, below 1 it is refused, and otherwise that
    integer is what the service is called with.  A [max] in which no
    integer is read is let through as NaN, and an absent or empty [max]
    stands for 1000. *)
Theorem max_is_checked_as_a_whole_number (max : string) :
  max <> ""%string ->
  Str.asciiText max = true ->
  (String.length max <= 15)%nat ->
  RedditController.maxResultsNumber (Some max)
  = match integerRead max with
    | None => Ok NaN
    | Some z =>
        if 10000 <? z then Err (mkError "Error" "Max results cannot exceed 10000")
        else if z <? 1 then Err (mkError "Error" "Max results must be at least 1")
        else Ok (of_Z z)
    end
  /\ RedditController.maxResultsNumber None = Ok (of_Z 1000)
  /\ RedditController.maxResultsNumber (Some ""%string) = Ok (of_Z 1000).
Proof.
  intros Hne _ Hlen. split; [| split; reflexivity].
  pose proof (parseInt_spec max) as Hp.
  destruct (integerRead max) as [z |] eqn:Hr.
  - destruct Hp as [Hv Hb].
    assert (Hz : - 2 ^ 53 < z < 2 ^ 53).
    { assert (10 ^ Z.of_nat (String.length max) <= 10 ^ 15)
        by (apply Z.pow_le_mono_r; lia).
      change (10 ^ 15) with 1000000000000000 in *.
      change (2 ^ 53) with 9007199254740992. lia. }
    unfold RedditController.maxResultsNumber.
    rewrite (truthy_Some max Hne). cbn [shown].
    destruct Hv as [-> | [-> ->]]; [| reflexivity].
    rewrite of_Z_gt_bound, of_Z_lt_bound
      by (try exact Hz; change (2 ^ 53) with 9007199254740992; lia).
    reflexivity.
  - exact (maxResultsNumber_unreadable max Hne Hr).
Qed.

End EndpointProperties.

Section WriteProperties.

Import RedditPostRepository RedditService.

Lemma filter_split_length {A : Type} (f : A -> bool) (l : list A) :
  (List.length (filter f l) + List.length (filter (fun x => negb (f x)) l)
   = List.length l)%nat.
Proof.
  induction l as [| a l IH]; [reflexivity |].
  cbn [filter]. destruct (f a); cbn [negb List.length]; lia.
Qed.

(** The loop that comes to its end has handed every post to [save] and
    counted it. *)
Lemma createMany_from_ok (env : Reddit.Env) (postsData : list RedditPost) :
  forall created skipped w w' created' skipped',
    createMany_from env postsData created skipped w = (w', Ok (created', skipped')) ->
    (created' + skipped' = created + skipped + List.length postsData)%nat
    /\ savings (history w') = (savings (history w) ++ postsData)%list.
Proof.
  induction postsData as [| p ps IH]; intros c s w w' c' s' H; cbn [createMany_from] in H.
  - injection H as <- <- <-. cbn. rewrite app_nil_r. split; [lia | reflexivity].
  - pose proof (create_spec env p w) as [Hc _].
    pose proof (save_spec env p w) as (_ & S1 & _). rewrite <- Hc in S1.
    destruct (create env p w) as [w1 [doc | e]]; cbn [fst] in S1.
    + apply IH in H. destruct H as [H1 H2]. rewrite H2, S1, savings_app.
      cbn [savings List.length]. rewrite <- app_assoc. split; [lia | reflexivity].
    + destruct (Str.includes (err_message e) "already exists"); [| discriminate].
      apply IH in H. destruct H as [H1 H2]. rewrite H2, S1, savings_app.
      cbn [savings List.length]. rewrite <- app_assoc. split; [lia | reflexivity].
Qed.

(** X16. When no save fails other than by a duplicate key or with a
    message containing [already exists], [createMany] hands every post
    to [save] once, in order, and returns: [created] counts the saves
    that succeeded, [skipped] the others, and together they count the
    posts.  A duplicate key is skipped whatever the id of the post. *)
Theorem createMany_counts_every_post (env : Reddit.Env) (postsData : list RedditPost)
    (w : Reddit.World) :
  existsb fatal (outcomes env (saves w) postsData) = false ->
  exists w' created skipped,
    createMany env postsData w = (w', Ok (created, skipped))
    /\ created = List.length (filter stored (outcomes env (saves w) postsData))
    /\ (created + skipped = List.length postsData)%nat
    /\ savings (history w') = (savings (history w) ++ postsData)%list.
Proof.
  intro Hf. unfold createMany.
  destruct (createMany_from_clean env postsData 0%nat 0%nat w Hf) as (w' & E1 & E2 & _).
  exists w'. eexists. eexists. split; [exact E1 |]. split; [reflexivity |].
  split; [| exact E2].
  cbn [Nat.add]. rewrite filter_split_length. apply outcomes_length.
Qed.

(** X17. The first save that fails otherwise ends [createMany] with the
    error of that save, and [savePostsToDatabase] with it.  The posts
    before it have been handed to [save], the posts after it never are:
    there is no rollback and no second attempt. *)
Theorem createMany_stops_at_the_first_fatal_save (env : Reddit.Env)
    (postsData : list RedditPost) (w : Reddit.World)
    (before : list SaveOutcome) (o : SaveOutcome) (rest : list SaveOutcome) :
  outcomes env (saves w) postsData = (before ++ o :: rest)%list ->
  existsb fatal before = false ->
  fatal o = true ->
  exists code error,
    o = Rejected code error
    /\ (exists w',
          createMany env postsData w = (w', Err error)
          /\ savings (history w')
             = (savings (history w) ++ firstn (S (List.length before)) postsData)%list)
    /\ (exists w',
          savePostsToDatabase env postsData w = (w', Err error)
          /\ savings (history w')
             = (savings (history w) ++ firstn (S (List.length before)) postsData)%list).
Proof.
  intros Ho Hb Hf. unfold createMany.
  destruct (createMany_from_fatal env postsData 0%nat 0%nat w before o rest Ho Hb Hf)
    as (w' & code & e & E0 & E1 & E2 & _).
  exists code, e. split; [exact E0 |]. split.
  - exists w'. split; [exact E1 | exact E2].
  - unfold savePostsToDatabase, createMany.
    match goal with
    | |- context [createMany_from env postsData 0 0 (Reddit.record ?ev w)] =>
        destruct (createMany_from_fatal env postsData 0%nat 0%nat (Reddit.record ev w)
                    before o rest Ho Hb Hf) as (w2 & code2 & e2 & F0 & F1 & F2 & _)
    end.
    rewrite F1. rewrite E0 in F0. injection F0 as _ <-.
    eexists. split; [reflexivity |].
    unfold Reddit.record at 1. cbn [history]. rewrite savings_app, F2.
    unfold Reddit.record. cbn [history savings]. rewrite savings_app. cbn [savings].
    rewrite !app_nil_r. reflexivity.
Qed.

Lemma andSave_spec (env : Reddit.Env) (saveToDatabase : bool)
    (found : option (Reddit.World * Result RedditSearchResponse))
    (w' : Reddit.World) (r : SavedResponse) :
  andSave env saveToDatabase found = Some (w', Ok r) ->
  exists w1,
    found = Some (w1, Ok (searchResult r))
    /\ match databaseResult r with
       | None =>
           (saveToDatabase = false \/ posts (searchResult r) = []) /\ w' = w1
       | Some d =>
           saveToDatabase = true
           /\ posts (searchResult r) <> []
           /\ (saved d + skipped d = List.length (posts (searchResult r)))%nat
           /\ savings (history w')
              = (savings (history w1) ++ posts (searchResult r))%list
       end.
Proof.
  intro H. unfold andSave in H.
  destruct found as [[w1 [res | e]] |]; try discriminate.
  exists w1.
  destruct saveToDatabase; cbn [andb] in H.
  - destruct (posts res) as [| p ps] eqn:Ep.
    + cbn in H. injection H as <- <-. cbn [searchResult databaseResult].
      split; [reflexivity |]. split; [right; exact Ep | reflexivity].
    + cbn [List.length Nat.ltb Nat.leb] in H.
      unfold savePostsToDatabase, createMany in H.
      match type of H with
      | context [createMany_from env ?l 0 0 (Reddit.record ?ev w1)] =>
          pose proof (createMany_from_ok env l 0%nat 0%nat (Reddit.record ev w1)) as Hok;
          destruct (createMany_from env l 0 0 (Reddit.record ev w1)) as [w2 [[c s] | e]]
      end; try discriminate.
      injection H as <- <-. cbn [searchResult databaseResult saved skipped].
      destruct (Hok w2 c s eq_refl) as [H1 H2].
      split; [reflexivity |]. rewrite Ep. split; [reflexivity |].
      split; [discriminate |]. split; [cbn [Nat.add] in H1; exact H1 |].
      unfold Reddit.record at 1. cbn [history]. rewrite savings_app, H2.
      unfold Reddit.record. cbn [history savings]. rewrite savings_app. cbn [savings].
      rewrite !app_nil_r. reflexivity.
  - injection H as <- <-. cbn [searchResult databaseResult].
    split; [reflexivity |]. split; [left; reflexivity | reflexivity].
Qed.

Lemma searchAllPosts_total (env : Reddit.Env) (fuel : nat) (query : string)
    (subreddit : option string) (maxResults : number) (w w' : Reddit.World)
    (r : RedditSearchResponse) :
  searchAllPosts fuel env query subreddit maxResults w = Some (w', Ok r) ->
  total r = List.length (posts r).
Proof.
  unfold searchAllPosts.
  match goal with
  | |- context [batches fuel env ?rq ?o ?mr ?k ?a ?c ?n ?w0] =>
      destruct (batches fuel env rq o mr k a c n w0) as [[w1 [[[ps af] tr] | e]] |]
  end; try discriminate.
  intro H. injection H as _ <-. reflexivity.
Qed.

Lemma getAllSubredditPosts_total (env : Reddit.Env) (fuel : nat) (subreddit sort : string)
    (maxResults : number) (w w' : Reddit.World) (r : RedditSearchResponse) :
  getAllSubredditPosts fuel env subreddit sort maxResults w = Some (w', Ok r) ->
  total r = List.length (posts r).
Proof.
  unfold getAllSubredditPosts.
  match goal with
  | |- context [batches fuel env ?rq ?o ?mr ?k ?a ?c ?n ?w0] =>
      destruct (batches fuel env rq o mr k a c n w0) as [[w1 [[[ps af] tr] | e]] |]
  end; try discriminate.
  intro H. injection H as _ <-. reflexivity.
Qed.

(** X18. A collection with saving that returns has returned what the
    collection alone returns.  [databaseResult] is absent exactly when
    saving was not asked for or no post was found, and then nothing was
    handed to [save]; when it is present every post found was handed to
    [save] once, in order, and [saved + skipped] is [total]. *)
Theorem saved_and_skipped_add_up (env : Reddit.Env) (fuel : nat)
    (maxResults : number) (saveToDatabase : bool) (w w' : Reddit.World)
    (r : SavedResponse) :
  (forall query subreddit,
      searchAndSavePosts fuel env query subreddit maxResults saveToDatabase w
      = Some (w', Ok r) ->
      exists w1,
        searchAllPosts fuel env query subreddit maxResults w
        = Some (w1, Ok (searchResult r))
        /\ match databaseResult r with
           | None =>
               (saveToDatabase = false \/ posts (searchResult r) = []) /\ w' = w1
           | Some d =>
               saveToDatabase = true
               /\ posts (searchResult r) <> []
               /\ (saved d + skipped d = total (searchResult r))%nat
               /\ savings (history w')
                  = (savings (history w1) ++ posts (searchResult r))%list
           end)
  /\ (forall subreddit sort,
         getSubredditAndSavePosts fuel env subreddit sort maxResults saveToDatabase w
         = Some (w', Ok r) ->
         exists w1,
           getAllSubredditPosts fuel env subreddit sort maxResults w
           = Some (w1, Ok (searchResult r))
           /\ match databaseResult r with
              | None =>
                  (saveToDatabase = false \/ posts (searchResult r) = []) /\ w' = w1
              | Some d =>
                  saveToDatabase = true
                  /\ posts (searchResult r) <> []
                  /\ (saved d + skipped d = total (searchResult r))%nat
                  /\ savings (history w')
                     = (savings (history w1) ++ posts (searchResult r))%list
              end).
Proof.
  split.
  - intros query subreddit H. unfold searchAndSavePosts in H.
    destruct (andSave_spec env saveToDatabase _ w' r H) as (w1 & Hs & Hd).
    exists w1. split; [exact Hs |].
    rewrite (searchAllPosts_total env fuel query subreddit maxResults w w1 _ Hs).
    exact Hd.
  - intros subreddit sort H. unfold getSubredditAndSavePosts in H.
    destruct (andSave_spec env saveToDatabase _ w' r H) as (w1 & Hs & Hd).
    exists w1. split; [exact Hs |].
    rewrite (getAllSubredditPosts_total env fuel subreddit sort maxResults w w1 _ Hs).
    exact Hd.
Qed.

(** X19. The posts a collection returns are the posts of the pages it
    fetched, in the order Reddit served them: the first request carries
    no cursor, every later one the cursor of the page before it, and the
    cursor returned is that of the last page.  Nothing is dropped unless
    the limit is reached while a cursor remains; a listing that ends is
    returned whole. *)
Theorem collected_posts_follow_the_listing (env : Reddit.Env) (fuel : nat)
    (maxResults : number) (w w' : Reddit.World) (r : RedditSearchResponse) :
  (forall query subreddit,
      searchAllPosts fuel env query subreddit maxResults w = Some (w', Ok r) ->
      let pages :=
        listing env (searchRequest query subreddit) (gets w) None (gets w' - gets w) in
      after r = last (map page_after pages) None
      /\ exists rest,
           map toPost (flat_map children pages) = (posts r ++ rest)%list
           /\ (truthy (after r) = false -> rest = []))
  /\ (forall subreddit sort,
         getAllSubredditPosts fuel env subreddit sort maxResults w = Some (w', Ok r) ->
         let pages :=
           listing env (listingRequest subreddit sort) (gets w) None (gets w' - gets w) in
         after r = last (map page_after pages) None
         /\ exists rest,
              map toPost (flat_map children pages) = (posts r ++ rest)%list
              /\ (truthy (after r) = false -> rest = [])).
Proof.
  split.
  - intros query subreddit H. unfold searchAllPosts in H.
    match type of H with
    | context [batches fuel env ?rq ?o ?mr ?k ?a ?c ?n ?w0] =>
        pose proof (batches_listing env rq o mr k fuel a c n w0) as Hb;
        destruct (batches fuel env rq o mr k a c n w0) as [[w1 [[[ps af] tr] | e]] |]
    end; try discriminate.
    injection H as <- <-. cbn [posts after].
    destruct (Hb w1 ps af tr eq_refl) as (_ & H2 & rest & H3 & H4).
    unfold Reddit.record in *; cbn [gets] in *. cbn [app] in H3.
    split; [exact H2 |]. exists rest. split; [exact H3 | exact H4].
  - intros subreddit sort H. unfold getAllSubredditPosts in H.
    match type of H with
    | context [batches fuel env ?rq ?o ?mr ?k ?a ?c ?n ?w0] =>
        pose proof (batches_listing env rq o mr k fuel a c n w0) as Hb;
        destruct (batches fuel env rq o mr k a c n w0) as [[w1 [[[ps af] tr] | e]] |]
    end; try discriminate.
    injection H as <- <-. cbn [posts after].
    destruct (Hb w1 ps af tr eq_refl) as (_ & H2 & rest & H3 & H4).
    unfold Reddit.record in *; cbn [gets] in *. cbn [app] in H3.
    split; [exact H2 |]. exists rest. split; [exact H3 | exact H4].
Qed.

End WriteProperties.

(** ** The properties of the collection at concrete inputs *)

Lemma redditEnv_honest : honest redditEnv.
Proof. split; intros; cbn; lia. Qed.

Lemma redditEnv_pages (n : nat) (req : Request) (page : Page) :
  reddit redditEnv n req = Ok page -> (List.length (children page) <= 100)%nat.
Proof.
  cbn. destruct n as [| [| [| n]]]; cbn; intro H; try discriminate;
    injection H as <-; cbn [children fullPage]; rewrite repeat_length; apply Nat.le_refl.
Qed.

(** A search with saving, limit 150, against the two full pages: two
    requests, the second stamped 1003 ms after the first. *)
Lemma requests_keep_their_distance_witness :
  exists w' r,
    RedditService.searchAndSavePosts 2 redditEnv "crm" None (of_Z 150) true
                                     (started 1700000000000)
    = Some (w', r)
    /\ paced w'
    /\ stamps (history w') = [1700000000006; 1700000001009].
Proof.
  assert (E : exists w' r,
             RedditService.searchAndSavePosts 2 redditEnv "crm" None (of_Z 150) true
                                              (started 1700000000000)
             = Some (w', r)
             /\ stamps (history w') = [1700000000006; 1700000001009]).
  { vm_compute. eexists. eexists. split; reflexivity. }
  destruct E as (w' & r & Hrun & Hs). exists w', r.
  split; [exact Hrun |]. split; [| exact Hs].
  destruct (requests_keep_their_distance redditEnv (started 1700000000000))
    as (_ & _ & H & _).
  - exact redditEnv_honest.
  - repeat split. cbn. lia.
  - exact (H _ _ _ _ _ _ _ Hrun).
Defined.

(** Limit 150: two requests at most. *)
Lemma collection_sends_bounded_requests_witness :
  exists w' r,
    RedditService.searchAllPosts 2 redditEnv "crm" None (of_Z 150) (started 0)
    = Some (w', r)
    /\ (gets (started 0) <= gets w')%nat
    /\ Z.of_nat (gets w' - gets (started 0)) <= (150 + 99) / 100.
Proof.
  destruct (collection_sends_bounded_requests redditEnv 150 2 (started 0)) as [H _].
  - lia.
  - vm_compute. apply le_n.
  - exact (H "crm"%string None).
Defined.

(** Limit 150 against two full pages, the second without a cursor: 200
    posts are returned. *)
Lemma collection_may_exceed_the_limit_witness :
  exists w' r,
    RedditService.searchAllPosts 2 redditEnv "crm" None (of_Z 150) (started 0)
    = Some (w', Ok r)
    /\ List.length (posts r) = 200%nat
    /\ total r = 200%nat
    /\ Z.of_nat (List.length (posts r)) < 150 + 100.
Proof.
  assert (E : exists w' r,
             RedditService.searchAllPosts 2 redditEnv "crm" None (of_Z 150) (started 0)
             = Some (w', Ok r)
             /\ List.length (posts r) = 200%nat).
  { vm_compute. eexists. eexists. split; reflexivity. }
  destruct E as (w' & r & Hrun & Hl). exists w', r.
  destruct (collection_may_exceed_the_limit redditEnv 150) as [H _].
  - lia.
  - exact redditEnv_pages.
  - destruct (H _ _ _ _ _ _ Hrun) as (H1 & H2 & _).
    split; [exact Hrun |]. split; [exact Hl |]. split; [rewrite H1; exact Hl | exact H2].
Defined.

(** [max=abc] *)
Lemma unreadable_max_is_served_empty_witness :
  exists w',
    RedditController.searchAndSavePosts 5 redditEnv (Some "crm") None (Some "abc") None
                                        (started 0)
    = Some (w', Ok (mkSavedResponse (mkResponse [] 0 None) None))
    /\ gets w' = gets (started 0) /\ saves w' = saves (started 0).
Proof.
  destruct (unreadable_max_is_served_empty 5 redditEnv (Some "crm") None None None "abc"
              (started 0)) as (_ & _ & H & _).
  - discriminate.
  - reflexivity.
  - reflexivity.
  - exact (H eq_refl).
Defined.

(** [max=250], [max=10001], [max=-3] and [max=12abc] *)
Lemma max_is_checked_as_a_whole_number_witness :
  RedditController.maxResultsNumber (Some "250") = Ok (of_Z 250)
  /\ RedditController.maxResultsNumber (Some "10001")
     = Err (mkError "Error" "Max results cannot exceed 10000")
  /\ RedditController.maxResultsNumber (Some "-3")
     = Err (mkError "Error" "Max results must be at least 1")
  /\ RedditController.maxResultsNumber (Some "12abc") = Ok (of_Z 12).
Proof.
  split; [| split; [| split]].
  - destruct (max_is_checked_as_a_whole_number "250") as [H _];
      [discriminate | reflexivity | cbn; lia | exact H].
  - destruct (max_is_checked_as_a_whole_number "10001") as [H _];
      [discriminate | reflexivity | cbn; lia | exact H].
  - destruct (max_is_checked_as_a_whole_number "-3") as [H _];
      [discriminate | reflexivity | cbn; lia | exact H].
  - destruct (max_is_checked_as_a_whole_number "12abc") as [H _];
      [discriminate | reflexivity | cbn; lia | exact H].
Defined.

(** Two posts, the second of which is a duplicate. *)
Lemma createMany_counts_every_post_witness :
  exists w',
    RedditPostRepository.createMany redditEnv
      (map RedditService.toPost [sampleChild; sampleChild]) (started 0)
    = (w', Ok (1%nat, 1%nat)).
Proof.
  destruct (createMany_counts_every_post redditEnv
              (map RedditService.toPost [sampleChild; sampleChild]) (started 0))
    as (w' & c & s & H1 & H2 & H3 & _).
  - reflexivity.
  - exists w'. rewrite H1.
    assert (Hc : c = 1%nat) by (rewrite H2; reflexivity).
    assert (Hs : s = 1%nat) by (rewrite Hc in H3; cbn in H3; lia).
    rewrite Hc, Hs. reflexivity.
Defined.

(** Three posts and a database that is lost at the second save. *)
Lemma createMany_stops_at_the_first_fatal_save_witness :
  exists w',
    RedditService.savePostsToDatabase lostEnv
      (map RedditService.toPost [sampleChild; sampleChild; sampleChild]) (started 0)
    = (w', Err (mkError "MongoNetworkError" "connection refused"))
    /\ savings (history w') = map RedditService.toPost [sampleChild; sampleChild].
Proof.
  destruct (createMany_stops_at_the_first_fatal_save lostEnv
              (map RedditService.toPost [sampleChild; sampleChild; sampleChild])
              (started 0)
              [Stored (RedditService.toPost sampleChild)]
              (Rejected None (mkError "MongoNetworkError" "connection refused"))
              [Stored (RedditService.toPost sampleChild)])
    as (code & error & H0 & _ & w' & H1 & H2).
  - reflexivity.
  - reflexivity.
  - reflexivity.
  - injection H0 as _ <-. exists w'. split; [exact H1 | exact H2].
Defined.

(** A search with saving, limit 150: 200 posts found, 199 saved, one
    skipped. *)
Lemma saved_and_skipped_add_up_witness :
  exists w' r d,
    RedditService.searchAndSavePosts 2 redditEnv "crm" None (of_Z 150) true (started 0)
    = Some (w', Ok r)
    /\ databaseResult r = Some d
    /\ (saved d + skipped d = total (searchResult r))%nat
    /\ total (searchResult r) = 200%nat.
Proof.
  assert (E : exists w' r d,
             RedditService.searchAndSavePosts 2 redditEnv "crm" None (of_Z 150) true
                                              (started 0)
             = Some (w', Ok r)
             /\ databaseResult r = Some d
             /\ total (searchResult r) = 200%nat).
  { vm_compute. eexists. eexists. eexists. repeat split. }
  destruct E as (w' & r & d & Hrun & Hd & Ht). exists w', r, d.
  destruct (saved_and_skipped_add_up redditEnv 2 (of_Z 150) true (started 0) w' r)
    as [H _].
  destruct (H _ _ Hrun) as (w1 & _ & Hm). rewrite Hd in Hm.
  destruct Hm as (_ & _ & Hsum & _).
  split; [exact Hrun |]. split; [exact Hd |]. split; [exact Hsum | exact Ht].
Defined.

(** The two full pages are returned whole. *)
Lemma collected_posts_follow_the_listing_witness :
  exists w' r,
    RedditService.searchAllPosts 2 redditEnv "crm" None (of_Z 150) (started 0)
    = Some (w', Ok r)
    /\ posts r = map RedditService.toPost (repeat sampleChild 200)
    /\ after r = None.
Proof.
  assert (E : exists w' r,
             RedditService.searchAllPosts 2 redditEnv "crm" None (of_Z 150) (started 0)
             = Some (w', Ok r)
             /\ gets w' = 2%nat).
  { vm_compute. eexists. eexists. split; reflexivity. }
  destruct E as (w' & r & Hrun & Hg). exists w', r.
  destruct (collected_posts_follow_the_listing redditEnv 2 (of_Z 150) (started 0) w' r)
    as [H _].
  destruct (H _ _ Hrun) as (Ha & rest & Hp & Hr).
  rewrite Hg in Ha, Hp. cbn in Ha.
  rewrite Ha in Hr. rewrite (Hr eq_refl), app_nil_r in Hp.
  split; [exact Hrun |]. split; [| exact Ha].
  rewrite <- Hp. vm_compute. reflexivity.
Defined.
